(** * The OpenCode platform adapter of the Ring installer

    A shallow embedding of [installer/ring_installer/adapters/opencode.py]
    and the properties of its field rewrites, body and hook rewrites,
    install-path resolution and hook-configuration merge.

    Conventions of the embedding.
    - A Python [str] is a [string]; every character is read as a code
      point below 256, and the character classes below are Python's
      ([str.isspace], [str.lower], the [re] classes [\w] and [\s]) on
      that range.
    - A Python value is a [pyval]; a [dict] is an association list in
      insertion order, as CPython keeps it.
    - A Python exception is the [Raise] case of [result]. *)

From Stdlib Require Import Bool Arith Lia List String Ascii ZArith.
From Stdlib Require Import DecimalString.
Import ListNotations.
Set Warnings "-register-all".
Open Scope list_scope.
Open Scope string_scope.

(** ** Python strings *)

Module PyStr.

Definition code (c : ascii) : nat := nat_of_ascii c.

Definition between (lo hi n : nat) : bool := Nat.leb lo n && Nat.leb n hi.

(** [str.isspace] and the [re] class [\s]. *)
Definition is_space (c : ascii) : bool :=
  let n := code c in
  between 9 13 n || between 28 32 n || Nat.eqb n 133 || Nat.eqb n 160.

(** The [re] class [\w]: alphanumeric characters and the underscore. *)
Definition is_word (c : ascii) : bool :=
  let n := code c in
  between 48 57 n || between 65 90 n || Nat.eqb n 95 || between 97 122 n
  || Nat.eqb n 170 || between 178 179 n || Nat.eqb n 181 || between 185 186 n
  || between 188 190 n || between 192 214 n || between 216 246 n
  || between 248 255 n.

(** One character of [str.lower]. *)
Definition lower_char (c : ascii) : ascii :=
  let n := code c in
  if between 65 90 n || between 192 214 n || between 216 222 n
  then ascii_of_nat (n + 32) else c.

(** [s.lower()] *)
Fixpoint lower (s : string) : string :=
  match s with
  | EmptyString => EmptyString
  | String c r => String (lower_char c) (lower r)
  end.

(** [s.startswith(p)] *)
Fixpoint startswith (p s : string) : bool :=
  match p, s with
  | EmptyString, _ => true
  | String a p', String b s' => Ascii.eqb a b && startswith p' s'
  | String _ _, EmptyString => false
  end.

(** [p in s] for two strings: [p] occurs in [s]. *)
Fixpoint contains (p s : string) : bool :=
  startswith p s ||
  match s with
  | EmptyString => false
  | String _ r => contains p r
  end.

(** Case-insensitive [startswith]: how [re.IGNORECASE] compares the
    literal characters of a pattern with the text. *)
Fixpoint startswith_ci (p s : string) : bool :=
  match p, s with
  | EmptyString, _ => true
  | String a p', String b s' =>
      Ascii.eqb (lower_char a) (lower_char b) && startswith_ci p' s'
  | String _ _, EmptyString => false
  end.

(** [s[n:]] *)
Fixpoint drop (n : nat) (s : string) : string :=
  match n, s with
  | O, _ => s
  | S k, String _ r => drop k r
  | S _, EmptyString => EmptyString
  end.

(** Leftmost, non-overlapping replacement: the scan of [str.replace]
    for a non-empty [old].  [skip] counts the characters of the
    current occurrence that are still to be consumed. *)
Fixpoint replace_scan (old new : string) (skip : nat) (s : string) : string :=
  match s with
  | EmptyString => EmptyString
  | String c r =>
      match skip with
      | S k => replace_scan old new k r
      | O =>
          if startswith old s
          then new ++ replace_scan old new (length old - 1) r
          else String c (replace_scan old new 0 r)
      end
  end.

(** [new.join(s)]-like interleaving, what [str.replace] does for an
    empty [old]: [new] before every character and at the end. *)
Fixpoint interleave (new s : string) : string :=
  match s with
  | EmptyString => new
  | String c r => new ++ String c (interleave new r)
  end.

(** [s.replace(old, new)] *)
Definition replace (old new s : string) : string :=
  match old with
  | EmptyString => interleave new s
  | String _ _ => replace_scan old new 0 s
  end.

(** [s.lstrip()], [s.rstrip()] and [s.strip()] *)
Fixpoint lstrip (s : string) : string :=
  match s with
  | EmptyString => EmptyString
  | String c r => if is_space c then lstrip r else s
  end.

Fixpoint rstrip (s : string) : string :=
  match s with
  | EmptyString => EmptyString
  | String c r =>
      match rstrip r with
      | EmptyString => if is_space c then EmptyString else String c EmptyString
      | r' => String c r'
      end
  end.

Definition strip (s : string) : string := rstrip (lstrip s).

(** [s.split(sep)] for a one-character separator: never empty. *)
Fixpoint split_char (sep : ascii) (s : string) : list string :=
  match s with
  | EmptyString => [EmptyString]
  | String c r =>
      if Ascii.eqb c sep then EmptyString :: split_char sep r
      else match split_char sep r with
           | [] => [String c EmptyString]
           | w :: ws => String c w :: ws
           end
  end.

(** [sep.join(parts)] *)
Fixpoint join (sep : string) (parts : list string) : string :=
  match parts with
  | [] => EmptyString
  | [p] => p
  | p :: ps => p ++ sep ++ join sep ps
  end.

(** [str(n)] for an integer. *)
Definition of_Z (z : Z) : string := NilZero.string_of_int (Z.to_int z).

End PyStr.

(** ** Python values and exceptions *)

Inductive pyval : Type :=
| PNone
| PBool (b : bool)
| PInt (z : Z)
| PStr (s : string)
| PList (items : list pyval)
| PDict (entries : list (pyval * pyval)).

Inductive exn : Type :=
| TypeError
| AttributeError
| KeyError
| IndexError
| ValueError
| RuntimeError
| OSError.

Inductive result (A : Type) : Type :=
| Ok (a : A)
| Raise (e : exn).

Arguments Ok {A} a.
Arguments Raise {A} e.

Definition bind {A B : Type} (r : result A) (k : A -> result B) : result B :=
  match r with
  | Ok a => k a
  | Raise e => Raise e
  end.

Notation "x <- r ;; k" := (bind r (fun x => k))
  (at level 61, r at next level, right associativity).

(** ** Python dictionaries *)

Module PyDict.

Definition dict : Type := list (pyval * pyval).

(** Equality of two hashable keys.  [True == 1] and [False == 0], as in
    Python; lists and dictionaries are not hashable and never keys. *)
Definition num_of (v : pyval) : option Z :=
  match v with
  | PBool b => Some (if b then 1%Z else 0%Z)
  | PInt z => Some z
  | _ => None
  end.

Definition key_eqb (a b : pyval) : bool :=
  match a, b with
  | PNone, PNone => true
  | PStr s, PStr t => String.eqb s t
  | _, _ =>
      match num_of a, num_of b with
      | Some x, Some y => Z.eqb x y
      | _, _ => false
      end
  end.

(** [d.get(k)] *)
Fixpoint get (k : pyval) (d : dict) : option pyval :=
  match d with
  | [] => None
  | (k', v) :: r => if key_eqb k' k then Some v else get k r
  end.

(** [k in d] *)
Definition mem (k : pyval) (d : dict) : bool :=
  match get k d with Some _ => true | None => false end.

(** [d[k] = v]: an existing key keeps its position and its key object,
    a new key goes last. *)
Fixpoint set (k v : pyval) (d : dict) : dict :=
  match d with
  | [] => [(k, v)]
  | (k', v') :: r =>
      if key_eqb k' k then (k', v) :: r else (k', v') :: set k v r
  end.

(** [d.pop(k, None)], the dictionary that remains.  A dictionary holds
    a key once; the entry of [k] is the one that goes. *)
Fixpoint remove (k : pyval) (d : dict) : dict :=
  match d with
  | [] => []
  | (k', v') :: r =>
      if key_eqb k' k then remove k r else (k', v') :: remove k r
  end.

Definition keys (d : dict) : list pyval := map fst d.

End PyDict.

(** ** The adapter's static tables *)

(** [_OPENCODE_TOOL_NAME_MAP], in the order of the source: iterating the
    dictionary visits the entries in this order. *)
Definition _OPENCODE_TOOL_NAME_MAP : list (string * string) :=
  [ ("Bash", "bash"); ("Read", "read"); ("Write", "write");
    ("Edit", "edit"); ("List", "list"); ("Glob", "glob"); ("Grep", "grep");
    ("WebFetch", "webfetch"); ("Task", "task");
    ("TodoWrite", "todowrite"); ("TodoRead", "todoread");
    ("MultiEdit", "edit"); ("NotebookEdit", "edit");
    ("BrowseURL", "webfetch"); ("FetchURL", "webfetch") ].

(** [_OPENCODE_MODEL_MAP] *)
Definition _OPENCODE_MODEL_MAP : list (string * string) :=
  [ ("opus", "anthropic/claude-opus-4-5");
    ("sonnet", "anthropic/claude-sonnet-4-5");
    ("haiku", "anthropic/claude-haiku-4-5");
    ("inherit", "inherit") ].

(** Lookup in a table with string keys: [table.get(k)]. *)
Fixpoint table_get (table : list (string * string)) (k : string) : option string :=
  match table with
  | [] => None
  | (k', v) :: r => if String.eqb k' k then Some v else table_get r k
  end.

(** [self._OPENCODE_TOOL_NAME_MAP.get(tool, tool.lower())] *)
Definition map_tool_name (tool : string) : string :=
  match table_get _OPENCODE_TOOL_NAME_MAP tool with
  | Some mapped => mapped
  | None => PyStr.lower tool
  end.

(** ** The tools rewrite *)

(** [mapped == item] for a string [mapped]: only an equal string is equal. *)
Definition str_eq_val (mapped : string) (item : pyval) : bool :=
  match item with
  | PStr s => String.eqb s mapped
  | _ => false
  end.

(** [mapped in normalized_list] *)
Definition list_has_str (mapped : string) (l : list pyval) : bool :=
  existsb (str_eq_val mapped) l.

(** One turn of the loop over [tools.items()]. *)
Definition tools_dict_step (normalized : PyDict.dict) (item : pyval * pyval)
  : PyDict.dict :=
  match fst item with
  | PStr tool => PyDict.set (PStr (map_tool_name tool)) (snd item) normalized
  | _ => normalized
  end.

(** One turn of the loop over a [tools] list. *)
Definition tools_list_step (normalized_list : list pyval) (tool : pyval)
  : list pyval :=
  match tool with
  | PStr t =>
      let mapped := map_tool_name t in
      if list_has_str mapped normalized_list then normalized_list
      else normalized_list ++ [PStr mapped]
  | _ => normalized_list ++ [tool]
  end.

(** [_transform_tools_for_opencode] *)
Definition _transform_tools_for_opencode (tools : pyval) : pyval :=
  match tools with
  | PDict entries => PDict (fold_left tools_dict_step entries [])
  | PList items => PList (fold_left tools_list_step items [])
  | _ => tools
  end.

(** *** The tools rewrite as the specification words it *)

(** A list entry rewritten through the table; other entries unchanged. *)
Definition map_entry (v : pyval) : pyval :=
  match v with
  | PStr t => PStr (map_tool_name t)
  | _ => v
  end.

(** Keep the first occurrence of every name; [seen] holds the names met
    so far.  Entries that are not strings always stay. *)
Fixpoint dedup_names (seen : list string) (l : list pyval) : list pyval :=
  match l with
  | [] => []
  | PStr s :: r =>
      if existsb (String.eqb s) seen then dedup_names seen r
      else PStr s :: dedup_names (seen ++ [s]) r
  | v :: r => v :: dedup_names seen r
  end.

Definition tools_list_spec (items : list pyval) : list pyval :=
  dedup_names [] (map map_entry items).

(** The entries of a mapping whose key is a string, key rewritten. *)
Fixpoint renamed_entries (entries : list (pyval * pyval)) : list (string * pyval) :=
  match entries with
  | [] => []
  | (PStr tool, enabled) :: r => (map_tool_name tool, enabled) :: renamed_entries r
  | _ :: r => renamed_entries r
  end.

(** The value written last under [name]. *)
Fixpoint last_value (name : string) (l : list (string * pyval)) : option pyval :=
  match l with
  | [] => None
  | (n, v) :: r =>
      match last_value name r with
      | Some w => Some w
      | None => if String.eqb n name then Some v else None
      end
  end.

Definition is_str (v : pyval) : bool :=
  match v with PStr _ => true | _ => false end.

(** The names of the string entries of a list of values. *)
Fixpoint str_names (l : list pyval) : list string :=
  match l with
  | [] => []
  | PStr s :: r => s :: str_names r
  | _ :: r => str_names r
  end.

(** ** Frontmatter rewrites *)

(** [str(v)] for the values that can be hashed. *)
Definition str_of_scalar (v : pyval) : option string :=
  match v with
  | PNone => Some "None"
  | PBool true => Some "True"
  | PBool false => Some "False"
  | PInt z => Some (PyStr.of_Z z)
  | PStr s => Some s
  | PList _ | PDict _ => None
  end.

(** The [model] branch of [_transform_frontmatter] on one value: the
    value to assign, if any.  [model in self._OPENCODE_MODEL_MAP] hashes
    the value: a list or a dictionary raises [TypeError]; a value that is
    no string is never a key of the table and never equal to ["inherit"]. *)
Definition rewrite_model (model : pyval) : result (option pyval) :=
  match str_of_scalar model with
  | None => Raise TypeError
  | Some text =>
      let known :=
        match model with
        | PStr s => table_get _OPENCODE_MODEL_MAP s
        | _ => None
        end in
      match known with
      | Some qualified => Ok (Some (PStr qualified))
      | None =>
          if negb (PyStr.contains "/" text) && negb (str_eq_val "inherit" model)
          then Ok (Some (PStr ("anthropic/" ++ text)))
          else Ok None
      end
  end.

(** [_transform_frontmatter] *)
Definition _transform_frontmatter (frontmatter : PyDict.dict)
  : result PyDict.dict :=
  let result := frontmatter in
  result <-
    match PyDict.get (PStr "model") result with
    | Some model =>
        assigned <- rewrite_model model ;;
        match assigned with
        | Some v => Ok (PyDict.set (PStr "model") v result)
        | None => Ok result
        end
    | None => Ok result
    end ;;
  match PyDict.get (PStr "tools") result with
  | Some tools =>
      Ok (PyDict.set (PStr "tools") (_transform_tools_for_opencode tools) result)
  | None => Ok result
  end.

(** [for field in fields: result.pop(field, None)] *)
Definition drop_fields (fields : list string) (result : PyDict.dict)
  : PyDict.dict :=
  fold_left (fun r field => PyDict.remove (PStr field) r) fields result.

Definition agent_drop_list : list string :=
  ["version"; "last_updated"; "changelog"; "output_schema"].

Definition command_drop_list : list string :=
  ["name"; "version"; "type"; "tags"].

(** The [type] to [mode] conversion of [_transform_agent_frontmatter]. *)
Definition convert_type (result : PyDict.dict) : PyDict.dict :=
  match PyDict.get (PStr "type") result with
  | Some agent_type =>
      let result := PyDict.remove (PStr "type") result in
      if str_eq_val "subagent" agent_type && negb (PyDict.mem (PStr "mode") result)
      then PyDict.set (PStr "mode") (PStr "subagent") result
      else if str_eq_val "primary" agent_type
              && negb (PyDict.mem (PStr "mode") result)
      then PyDict.set (PStr "mode") (PStr "primary") result
      else result
  | None => result
  end.

(** [_transform_agent_frontmatter] *)
Definition _transform_agent_frontmatter (frontmatter : PyDict.dict)
  : result PyDict.dict :=
  result <- _transform_frontmatter frontmatter ;;
  Ok (drop_fields agent_drop_list (convert_type result)).

(** [result["argument-hint"] = result.pop(field)] *)
Definition rename_to_hint (field : string) (result : PyDict.dict) : PyDict.dict :=
  match PyDict.get (PStr field) result with
  | Some v =>
      PyDict.set (PStr "argument-hint") v (PyDict.remove (PStr field) result)
  | None => result
  end.

(** [_transform_command_frontmatter] *)
Definition _transform_command_frontmatter (frontmatter : PyDict.dict)
  : result PyDict.dict :=
  result <- _transform_frontmatter frontmatter ;;
  let result :=
    if PyDict.mem (PStr "args") result
       && negb (PyDict.mem (PStr "argument-hint") result)
    then rename_to_hint "args" result
    else if PyDict.mem (PStr "arguments") result
            && negb (PyDict.mem (PStr "argument-hint") result)
    then rename_to_hint "arguments" result
    else result in
  Ok (drop_fields command_drop_list result).

(** ** The body rewrite *)

Module ToolRef.
Import PyStr.

Definition head_is_word (s : string) : bool :=
  match s with
  | String c _ => is_word c
  | EmptyString => false
  end.

(** [\b] between a character whose class is [prev_word] (no character:
    [false]) and the head of [s]. *)
Definition word_boundary (prev_word : bool) (s : string) : bool :=
  xorb prev_word (head_is_word s).

(** The class of the character before position [n] of [s], when the
    class of the one before [s] is [prev_word]. *)
Fixpoint word_before (prev_word : bool) (n : nat) (s : string) : bool :=
  match n, s with
  | S k, String c r => word_before (is_word c) k r
  | _, _ => prev_word
  end.

(** [\s+kw] under [re.IGNORECASE], at the head of [s]. *)
Fixpoint spaces_then (kw s : string) : bool :=
  match s with
  | String c r => is_space c && (startswith_ci kw r || spaces_then kw r)
  | EmptyString => false
  end.

(** The lookahead [(?=\s+tool|\s+command)]. *)
Definition lookahead (s : string) : bool :=
  spaces_then "tool" s || spaces_then "command" s.

(** [\bname\b(?=\s+tool|\s+command)] under [re.IGNORECASE] matches at
    the head of [s]. *)
Definition matches_at (name : string) (prev_word : bool) (s : string) : bool :=
  word_boundary prev_word s
  && startswith_ci name s
  && word_boundary (word_before prev_word (length name) s) (drop (length name) s)
  && lookahead (drop (length name) s).

(** The scan of [re.sub] for this pattern and a non-empty [name]:
    leftmost matches, not overlapping. *)
Fixpoint sub_scan (name repl : string) (prev_word : bool) (skip : nat)
         (s : string) : string :=
  match s with
  | EmptyString => EmptyString
  | String c r =>
      match skip with
      | S k => sub_scan name repl (is_word c) k r
      | O =>
          if matches_at name prev_word s
          then repl ++ sub_scan name repl (is_word c) (length name - 1) r
          else String c (sub_scan name repl (is_word c) 0 r)
      end
  end.

(** [re.sub(rf'\b{name}\b(?=\s+tool|\s+command)', repl, text,
    flags=re.IGNORECASE)] *)
Definition sub (name repl text : string) : string :=
  sub_scan name repl false 0 text.

End ToolRef.

(** [_normalize_tool_references] *)
Definition _normalize_tool_references (text : string) : string :=
  fold_left (fun result entry => ToolRef.sub (fst entry) (snd entry) result)
            _OPENCODE_TOOL_NAME_MAP text.

(** ** The frontmatter codec of the base adapter *)

(** Modelled from the spec: the frontmatter codec that the adapter
    inherits from its base class ([ring_installer/adapters/base.py], not
    among the sources).  [find_block] locates the delimited metadata block
    at the very start of a document and splits it from the body;
    [parse_block] reads the block; [create_frontmatter] renders a
    metadata structure as a header. *)
Class FrontmatterCodec : Type := {
  find_block : string -> option (string * string);
  parse_block : string -> PyDict.dict;
  create_frontmatter : PyDict.dict -> string
}.

(** Modelled from the spec: [extract_frontmatter] of the base adapter
    ([ring_installer/adapters/base.py]).  A document without a metadata
    block yields empty metadata and the whole text as body. *)
Definition extract_frontmatter `{FrontmatterCodec} (content : string)
  : PyDict.dict * string :=
  match find_block content with
  | None => ([], content)
  | Some (block, body) => (parse_block block, body)
  end.

(** [if frontmatter:] *)
Definition truthy (d : PyDict.dict) : bool :=
  match d with [] => false | _ => true end.

(** The common shape of [transform_skill], [transform_agent] and
    [transform_command]. *)
Definition transform_with `{FrontmatterCodec}
    (rewrite : PyDict.dict -> result PyDict.dict) (content : string)
  : result string :=
  let (frontmatter, body) := extract_frontmatter content in
  frontmatter <- (if truthy frontmatter then rewrite frontmatter
                  else Ok frontmatter) ;;
  let body := _normalize_tool_references body in
  if truthy frontmatter
  then Ok (create_frontmatter frontmatter ++ String "010" EmptyString ++ body)
  else Ok body.

Definition transform_skill `{FrontmatterCodec} (skill_content : string)
  : result string :=
  transform_with _transform_frontmatter skill_content.

Definition transform_agent `{FrontmatterCodec} (agent_content : string)
  : result string :=
  transform_with _transform_agent_frontmatter agent_content.

Definition transform_command `{FrontmatterCodec} (command_content : string)
  : result string :=
  transform_with _transform_command_frontmatter command_content.

(** ** The hook rewrite *)

(** [transform_hook] *)
Definition transform_hook (hook_content : string) : string :=
  let result := PyStr.replace "${CLAUDE_PLUGIN_ROOT}/hooks/"
                              "bash ~/.config/opencode/hook/" hook_content in
  let result := PyStr.replace "$CLAUDE_PLUGIN_ROOT/hooks/"
                              "bash ~/.config/opencode/hook/" result in
  let result := PyStr.replace "${CLAUDE_PLUGIN_ROOT}" "~/.config/opencode" result in
  let result := PyStr.replace "$CLAUDE_PLUGIN_ROOT" "~/.config/opencode" result in
  result.


(** ** Occurrences and alphabets, for the statements about rewrites *)

(** The character [c] occurs in [s]. *)
Fixpoint has_char (c : ascii) (s : string) : bool :=
  match s with
  | EmptyString => false
  | String d r => Ascii.eqb d c || has_char c r
  end.

Definition dollar : ascii := "$"%char.

(** The placeholders of [transform_hook] and what replaces them. *)
Definition braced_root : string := "${CLAUDE_PLUGIN_ROOT}".
Definition bare_root : string := "$CLAUDE_PLUGIN_ROOT".
Definition braced_hooks : string := "${CLAUDE_PLUGIN_ROOT}/hooks/".
Definition bare_hooks : string := "$CLAUDE_PLUGIN_ROOT/hooks/".
Definition hook_prefix : string := "bash ~/.config/opencode/hook/".
Definition config_dir : string := "~/.config/opencode".


(** ** Words and keywords, for the statements about the body rewrite *)

(** Every character of [s] is a word character. *)
Fixpoint all_word (s : string) : bool :=
  match s with
  | EmptyString => true
  | String c r => PyStr.is_word c && all_word r
  end.

(** Every character of [s] is whitespace. *)
Fixpoint all_space (s : string) : bool :=
  match s with
  | EmptyString => true
  | String c r => PyStr.is_space c && all_space r
  end.

(** [s] is empty or ends with a character that is no word character:
    what stands behind it begins a word. *)
Fixpoint ends_nonword (s : string) : bool :=
  match s with
  | EmptyString => true
  | String c EmptyString => negb (PyStr.is_word c)
  | String _ r => ends_nonword r
  end.

(** What the lookahead of the pattern asks of the text behind a name:
    whitespace, one character or more, then the letters of [tool] or of
    [command] in any case. *)
Definition followed_by_keyword (post : string) : Prop :=
  exists ws kw rest,
    post = ws ++ kw ++ rest
    /\ ws <> EmptyString /\ all_space ws = true
    /\ (PyStr.lower kw = "tool" \/ PyStr.lower kw = "command").

(** The wording "followed by whitespace and then the literal word tool
    or command": whitespace, then exactly these letters, standing as a
    word of their own. *)
Definition followed_by_exact_word (post : string) : Prop :=
  exists ws kw rest,
    post = ws ++ kw ++ rest
    /\ ws <> EmptyString /\ all_space ws = true
    /\ (kw = "tool" \/ kw = "command")
    /\ ToolRef.head_is_word rest = false.

(** Whitespace followed by a keyword somewhere in [s]. *)
Fixpoint mentions_keyword (s : string) : bool :=
  ToolRef.lookahead s ||
  match s with
  | EmptyString => false
  | String _ r => mentions_keyword r
  end.

(** What the statements below need of a table name: letters only, and
    not beginning like a keyword. *)
Definition plain_name (name : string) : bool :=
  ToolRef.head_is_word name && all_word name
  && negb (PyStr.startswith_ci "tool" name)
  && negb (PyStr.startswith_ci "command" name).


(** ** A codec for the examples *)

Definition nl : string := String "010" EmptyString.

(** [s] cut at the first occurrence of [sep]. *)
Fixpoint cut_at (sep s : string) : option (string * string) :=
  if PyStr.startswith sep s
  then Some (EmptyString, PyStr.drop (String.length sep) s)
  else match s with
       | EmptyString => None
       | String c r =>
           match cut_at sep r with
           | Some (a, b) => Some (String c a, b)
           | None => None
           end
       end.

(** The block stands between a first line [---] and the next line [---],
    as the reference generators of the repository read it.  This codec
    reads no field from the block; the examples use it on documents
    without a block only. *)
#[local] Instance dashes_codec : FrontmatterCodec := {
  find_block content :=
    if PyStr.startswith ("---" ++ nl) content
    then cut_at (nl ++ "---" ++ nl) (PyStr.drop 4 content)
    else None;
  parse_block _ := [];
  create_frontmatter _ := "---" ++ nl ++ "---"
}.


(** ** Paths, the environment and the log *)

(** A [pathlib] path, by its parts: [/home/user] is [["/"; "home"; "user"]]. *)
Definition Path : Type := list string.

(** What the interpreter takes from the operating system.  The three
    [pathlib] calls raise where the system cannot answer: [RuntimeError]
    when no home directory can be determined or a symbolic link loops,
    [OSError] from the system calls of [resolve], [ValueError] on a path
    with a null character. *)
Record os_env : Type := {
(** [os.environ.get(name)] *)
environ : string -> option string;
(** [Path(text).expanduser()] *)
expanduser : string -> result Path;
(** [path.resolve()]: absolute, symbolic links followed *)
resolve : Path -> result Path;
(** [Path.home()] *)
home_dir : result Path
}.

Inductive log_record : Type :=
| LogInfo (message : string)
| LogWarning (message : string)
| LogError (message : string).

(** The fields of the adapter instance that the methods below read and
    write: the platform configuration and the memoized install path,
    both set up by the constructor of the base class. *)
Record adapter : Type := {
  config : PyDict.dict;
  _install_path : option Path
}.

Definition is_absolute (p : Path) : bool :=
  match p with
  | root :: _ => PyStr.startswith "/" root
  | [] => false
  end.

(** [other] is a prefix of [p], part by part. *)
Fixpoint parts_prefix (other p : Path) : bool :=
  match other, p with
  | [], _ => true
  | a :: other', b :: p' => String.eqb a b && parts_prefix other' p'
  | _ :: _, [] => false
  end.

(** [p.relative_to(other)] returns ([true]) or raises [ValueError]
    ([false]): the parts of [other] must begin the parts of [p]. *)
Definition relative_to (p other : Path) : bool :=
  match other with
  | [] => negb (is_absolute p)
  | _ :: _ => parts_prefix other p
  end.

(** [self.config.get("install_path", "~/.config/opencode")], which
    [Path] takes only as a string. *)
Definition configured_path (self : adapter) : result string :=
  match PyDict.get (PStr "install_path") (config self) with
  | None => Ok "~/.config/opencode"
  | Some (PStr text) => Ok text
  | Some _ => Raise TypeError
  end.

Definition override_warning (override : string) : log_record :=
  LogWarning ("OPENCODE_CONFIG_PATH=" ++ override
              ++ " ignored: path must be under home").

(** The override branch of [get_install_path]: [if override:] and what
    it guards.  Only [relative_to] stands in the [try]; what [expanduser],
    [resolve] and [Path.home] raise goes to the caller. *)
Definition checked_override (os : os_env) (env_path : Path)
  : result (Path * list log_record) :=
  match environ os "OPENCODE_CONFIG_PATH" with
  | Some (String c r as override) =>
      expanded <- expanduser os override ;;
      candidate <- resolve os expanded ;;
      home <- home_dir os ;;
      home <- resolve os home ;;
      if relative_to candidate home
      then Ok (candidate, [])
      else Ok (env_path, [override_warning override])
  | Some EmptyString | None => Ok (env_path, [])
  end.

(** [get_install_path]: the path, the adapter with its memo, the log. *)
Definition get_install_path (os : os_env) (self : adapter)
  : result (Path * adapter * list log_record) :=
  match _install_path self with
  | Some path => Ok (path, self, [])
  | None =>
      text <- configured_path self ;;
      env_path <- expanduser os text ;;
      checked <- checked_override os env_path ;;
      let '(env_path, log) := checked in
      Ok (env_path,
          {| config := config self; _install_path := Some env_path |},
          log)
  end.

(** An operating system for the examples: no symbolic links, paths
    already absolute, home [/home/user], no other user known. *)
Definition split_parts (text : string) : Path :=
  ((if PyStr.startswith "/" text then ["/"] else [])
   ++ filter (fun part => negb (String.eqb part ""))
             (PyStr.split_char "/" text))%list.

Definition example_home : Path := ["/"; "home"; "user"].

Definition example_os (override : option string) : os_env := {|
  environ name :=
    if String.eqb name "OPENCODE_CONFIG_PATH" then override else None;
  expanduser text :=
    match split_parts text with
    | "~" :: rest => Ok (example_home ++ rest)%list
    | first :: rest =>
        if PyStr.startswith "~" first then Raise RuntimeError
        else Ok (first :: rest)
    | [] => Ok []
    end;
  resolve p := Ok p;
  home_dir := Ok example_home
|}.

Definition fresh_adapter : adapter :=
  {| config := []; _install_path := None |}.

(** ** The hook-configuration merge *)

(** Containers and items of the merge, with the exceptions Python
    raises on the wrong kind of value. *)

(** [needle in container], for a string [needle]. *)
Definition py_contains (needle : string) (container : pyval) : result bool :=
  match container with
  | PDict d => Ok (PyDict.mem (PStr needle) d)
  | PList l => Ok (list_has_str needle l)
  | PStr s => Ok (PyStr.contains needle s)
  | PNone | PBool _ | PInt _ => Raise TypeError
  end.

(** [container[key] = v], for a string [key]. *)
Definition py_setitem (container : pyval) (key : string) (v : pyval)
  : result pyval :=
  match container with
  | PDict d => Ok (PDict (PyDict.set (PStr key) v d))
  | _ => Raise TypeError
  end.

(** [container[key]], for a string [key]. *)
Definition py_getitem (container : pyval) (key : string) : result pyval :=
  match container with
  | PDict d =>
      match PyDict.get (PStr key) d with
      | Some v => Ok v
      | None => Raise KeyError
      end
  | _ => Raise TypeError
  end.

(** The items [list.extend(v)] appends. *)
Definition py_iter (v : pyval) : result (list pyval) :=
  match v with
  | PList items => Ok items
  | PDict d => Ok (PyDict.keys d)
  | PStr s => Ok (map (fun c => PStr (String c EmptyString))
                      (list_ascii_of_string s))
  | PNone | PBool _ | PInt _ => Raise TypeError
  end.

(** [if "hooks" not in existing_config: existing_config["hooks"] = {}] *)
Definition ensure_hooks (existing_config : pyval) : result pyval :=
  present <- py_contains "hooks" existing_config ;;
  if present then Ok existing_config
  else py_setitem existing_config "hooks" (PDict []).

(** The position that the index [z] names in a list of [n] items: from
    the front when it is not negative, from the back when it is. *)
Definition list_index (z : Z) (n : nat) : option nat :=
  if (0 <=? z)%Z
  then (if (z <? Z.of_nat n)%Z then Some (Z.to_nat z) else None)
  else (if (- Z.of_nat n <=? z)%Z then Some (Z.to_nat (Z.of_nat n + z))
        else None).

(** [items[i] = v], for a position [i] of the list. *)
Fixpoint list_set (i : nat) (v : pyval) (items : list pyval) : list pyval :=
  match items, i with
  | [], _ => []
  | _ :: rest, O => v :: rest
  | x :: rest, S k => x :: list_set k v rest
  end.

(** One turn of the loop over [hooks_to_merge.items()], on the three
    kinds of value that [existing_config["hooks"]] can be.  On a mapping
    the event is a key.  On a list, [in] compares the event name with the
    items and the subscript takes it as an index: an integer or a boolean
    in range ([IndexError] out of range), [TypeError] for any other name.
    On a string, [in] wants a string and no subscript takes one; on
    [None], a boolean or a number [in] raises. *)
Definition merge_event (existing_config : pyval) (entry : pyval * pyval)
  : result pyval :=
  let (event_name, event_hooks) := entry in
  hooks <- py_getitem existing_config "hooks" ;;
  match hooks with
  | PDict hooks =>
      let hooks :=
        if PyDict.mem event_name hooks then hooks
        else PyDict.set event_name (PList []) hooks in
      match PyDict.get event_name hooks with
      | Some (PList current) =>
          added <- py_iter event_hooks ;;
          py_setitem existing_config "hooks"
            (PDict (PyDict.set event_name (PList (current ++ added)%list) hooks))
      | Some _ => Raise AttributeError
      | None => Raise KeyError
      end
  | PList items =>
      match PyDict.num_of event_name with
      | None => Raise TypeError
      | Some z =>
          items <-
            (if existsb (fun item => PyDict.key_eqb item event_name) items
             then Ok items
             else match list_index z (List.length items) with
                  | Some i => Ok (list_set i (PList []) items)
                  | None => Raise IndexError
                  end) ;;
          match list_index z (List.length items) with
          | Some i =>
              match nth_error items i with
              | Some (PList current) =>
                  added <- py_iter event_hooks ;;
                  py_setitem existing_config "hooks"
                    (PList (list_set i (PList (current ++ added)%list) items))
              | Some _ => Raise AttributeError
              | None => Raise IndexError
              end
          | None => Raise IndexError
          end
      end
  | PStr _ | PNone | PBool _ | PInt _ => Raise TypeError
  end.

(** [hooks_config.get("hooks", hooks_config)] *)
Definition hooks_to_merge (hooks_config : PyDict.dict) : pyval :=
  match PyDict.get (PStr "hooks") hooks_config with
  | Some wrapped => wrapped
  | None => PDict hooks_config
  end.

Definition merge_events (existing_config : pyval)
                        (entries : list (pyval * pyval)) : result pyval :=
  fold_left (fun acc entry => existing_config <- acc ;;
                              merge_event existing_config entry)
            entries (Ok existing_config).

(** The part of [merge_hooks_to_config] between the read and the write. *)
Definition merge_into (existing_config : pyval) (hooks_config : PyDict.dict)
  : result pyval :=
  existing_config <- ensure_hooks existing_config ;;
  match hooks_to_merge hooks_config with
  | PDict entries => merge_events existing_config entries
  | _ => Raise AttributeError
  end.

(** The regular file at a path, as [merge_hooks_to_config] meets it:
    absent; not to be examined, so that [exists] raises [OSError] (no
    permission to search the directory, a name that is too long); present
    but raising on [read_text]; or present with a text. *)
Inductive file : Type :=
| Missing
| Inaccessible
| Unreadable
| Contents (text : string).

(** What an attempt to write a path meets, in the order of the [try]
    block: [mkdir] of the parent directory with its missing ancestors,
    the opening of the file, which truncates it, and the write. *)
Inductive write_fate : Type :=
(** the directories are made and the text is written *)
| Written
(** [mkdir] raises after it has made the ancestors of at most [depth] parts *)
| MkdirFails (depth : nat)
(** the directories are made, opening the file raises, the file is as it was *)
| OpenFails
(** the directories are made, the file is truncated, and the write raises
    with the first [kept] characters of the text in the file *)
| WriteFails (kept : nat).

(** The disk: the regular files, the directories, and what writing a
    path meets. *)
Record disk : Type := {
  file_at : Path -> file;
  dir_at : Path -> bool;
  write_fate_at : Path -> write_fate
}.

Definition path_eqb (p q : Path) : bool :=
  parts_prefix p q && parts_prefix q p.

(** [p.exists()]: the path names a file or a directory. *)
Definition path_exists (d : disk) (p : Path) : result bool :=
  match file_at d p with
  | Inaccessible => Raise OSError
  | Missing => Ok (dir_at d p)
  | Unreadable | Contents _ => Ok true
  end.

(** [p.read_text(encoding="utf-8")]; [None] where it raises. *)
Definition read_text (d : disk) (p : Path) : option string :=
  match file_at d p with
  | Contents text => Some text
  | Missing | Inaccessible | Unreadable => None
  end.

(** [q] is [p] or one of its ancestors. *)
Definition is_ancestor_or_self (q p : Path) : bool :=
  match q with
  | [] => false
  | _ :: _ => parts_prefix q p
  end.

(** The disk after [p.mkdir(parents=True, exist_ok=True)] has made [p]
    and its ancestors of at most [depth] parts. *)
Definition mkdir_parents (d : disk) (p : Path) (depth : nat) : disk :=
  {| file_at := file_at d;
     dir_at q :=
       dir_at d q || (is_ancestor_or_self q p && Nat.leb (List.length q) depth);
     write_fate_at := write_fate_at d |}.

(** The disk with [text] in the file at [p]. *)
Definition write_text (d : disk) (p : Path) (text : string) : disk :=
  {| file_at q := if path_eqb p q then Contents text else file_at d q;
     dir_at := dir_at d;
     write_fate_at := write_fate_at d |}.

(** The [json] module: [loads] and [dumps] return [None] where the
    module raises. *)
Record json_lib : Type := {
  json_loads : string -> option pyval;
  json_dumps : pyval -> option string
}.

(** The lines of [content] that are not comment lines, joined again. *)
Definition strip_comment_lines (content : string) : string :=
  PyStr.join nl
    (filter (fun line => negb (PyStr.startswith "//" (PyStr.strip line)))
            (PyStr.split_char "010" content)).

Definition read_warning : log_record :=
  LogWarning "Failed to read opencode.json".

Definition write_error : log_record :=
  LogError "Failed to write opencode.json".

Definition dry_run_info : log_record :=
  LogInfo "[DRY RUN] Would merge hooks into opencode.json".

(** The body of the [try] block of the read, on the text of the file. *)
Definition parse_config (json : json_lib) (content : string)
  : pyval * list log_record :=
  let clean_content := strip_comment_lines content in
  match PyStr.strip clean_content with
  | EmptyString => (PDict [], [])
  | String _ _ =>
      match json_loads json clean_content with
      | Some parsed => (parsed, [])
      | None => (PDict [], [read_warning])
      end
  end.

(** The read of the existing configuration: [config_path.exists()],
    which stands before the [try] and raises to the caller, then the
    [try] block and its [except], which leaves the empty configuration. *)
Definition read_existing (json : json_lib) (d : disk) (config_path : Path)
  : result (pyval * list log_record) :=
  present <- path_exists d config_path ;;
  if present
  then match read_text d config_path with
       | Some content => Ok (parse_config json content)
       | None => Ok (PDict [], [read_warning])
       end
  else Ok (PDict [], []).

(** The [try] block of the write: whether it came to its end, and the
    disk it leaves.  [base_path] is [config_path.parent]. *)
Definition write_config (json : json_lib) (d : disk)
    (base_path config_path : Path) (merged : pyval) : bool * disk :=
  match write_fate_at d config_path with
  | MkdirFails depth => (false, mkdir_parents d base_path depth)
  | fate =>
      let d := mkdir_parents d base_path (List.length base_path) in
      match json_dumps json merged with
      | None => (false, d)
      | Some text =>
          match fate with
          | Written => (true, write_text d config_path text)
          | WriteFails kept =>
              (false, write_text d config_path (substring 0 kept text))
          | OpenFails | MkdirFails _ => (false, d)
          end
      end
  end.

(** The outcome of [merge_hooks_to_config]: the returned boolean, the
    adapter, the disk and the log. *)
Record merge_outcome : Type := {
  returned : bool;
  adapter_after : adapter;
  disk_after : disk;
  logged : list log_record
}.

(** [install_path or self.get_install_path()] *)
Definition locate (os : os_env) (self : adapter) (install_path : option Path)
  : result (Path * adapter * list log_record) :=
  match install_path with
  | Some given => Ok (given, self, [])
  | None => get_install_path os self
  end.


(** [merge_hooks_to_config] *)
Definition merge_hooks_to_config (os : os_env) (json : json_lib)
    (self : adapter) (d : disk) (hooks_config : PyDict.dict)
    (dry_run : bool) (install_path : option Path) : result merge_outcome :=
  located <- locate os self install_path ;;
  let '(base_path, self, log0) := located in
  let config_path := (base_path ++ ["opencode.json"])%list in
  read <- read_existing json d config_path ;;
  let (existing_config, log1) := read in
  merged <- merge_into existing_config hooks_config ;;
  if dry_run
  then Ok {| returned := true; adapter_after := self; disk_after := d;
             logged := (log0 ++ log1 ++ [dry_run_info])%list |}
  else
    let (done, d) := write_config json d base_path config_path merged in
    if done
    then Ok {| returned := true; adapter_after := self; disk_after := d;
               logged := (log0 ++ log1)%list |}
    else Ok {| returned := false; adapter_after := self; disk_after := d;
               logged := (log0 ++ log1 ++ [write_error])%list |}.

(** A [json] module and a disk for the examples.  The module reads the
    empty object only and writes every value as the same text: the
    examples are about which branch runs, not about the format. *)
Definition example_json : json_lib :=
  {| json_loads text :=
       if String.eqb text "{}" then Some (PDict []) else None;
     json_dumps _ := Some "{}" |}.

Definition example_disk (existing : file) (fate : write_fate) : disk :=
  {| file_at _ := existing; dir_at _ := false; write_fate_at _ := fate |}.


(** *** The merge as the specification words it *)

Definition is_list (v : pyval) : bool :=
  match v with PList _ => true | _ => false end.

(** The [hooks] mapping of an existing configuration; none yet is the
    empty mapping. *)
Definition existing_hooks (existing_config : PyDict.dict) : option PyDict.dict :=
  match PyDict.get (PStr "hooks") existing_config with
  | None => Some []
  | Some (PDict hooks) => Some hooks
  | Some _ => None
  end.

(** Every event of the mapping has a list. *)
Definition all_lists (hooks : PyDict.dict) : bool :=
  forallb (fun entry => is_list (snd entry)) hooks.

(** Every incoming entry has a string for its event name and a list for
    its hook entries. *)
Definition entries_ok (entries : list (pyval * pyval)) : bool :=
  forallb (fun entry => is_str (fst entry) && is_list (snd entry)) entries.

(** The hook entries that [entries] contributes to [event], in order. *)
Fixpoint incoming_for (event : string) (entries : list (pyval * pyval))
  : list pyval :=
  match entries with
  | [] => []
  | (PStr name, PList items) :: r =>
      if String.eqb name event then (items ++ incoming_for event r)%list
      else incoming_for event r
  | _ :: r => incoming_for event r
  end.

(** [entries] has an entry for [event]. *)
Definition has_entry (event : string) (entries : list (pyval * pyval)) : bool :=
  existsb (fun entry => str_eq_val event (fst entry)) entries.

(** The list of [event] after the merge: the existing list followed by
    the incoming entries; created when an entry comes in and none
    existed. *)
Definition merged_list (hooks : PyDict.dict) (entries : list (pyval * pyval))
                       (event : string) : option pyval :=
  match PyDict.get (PStr event) hooks with
  | Some (PList existing) =>
      Some (PList (existing ++ incoming_for event entries)%list)
  | Some other => Some other
  | None =>
      if has_entry event entries
      then Some (PList (incoming_for event entries))
      else None
  end.

(** The incoming entries meet lists only: every event they name has a
    list in [hooks] or is not in it. *)
Definition touched_lists (hooks : PyDict.dict)
                         (entries : list (pyval * pyval)) : bool :=
  forallb (fun entry =>
             match PyDict.get (fst entry) hooks with
             | Some (PList _) | None => true
             | Some _ => false
             end) entries.

(** The read of the existing configuration fails: the path exists and
    [read_text] raises (a file that cannot be read, a directory), or
    [json.loads] raises on the text without its comment lines. *)
Definition read_fails (json : json_lib) (d : disk) (config_path : Path) : Prop :=
  (path_exists d config_path = Ok true /\ read_text d config_path = None)
  \/ exists content,
       file_at d config_path = Contents content
       /\ PyStr.strip (strip_comment_lines content) <> EmptyString
       /\ json_loads json (strip_comment_lines content) = None.

(** The write of [merged] comes to its end: nothing in the [try] block
    raises. *)
Definition write_succeeds (json : json_lib) (d : disk) (config_path : Path)
                          (merged : pyval) : bool :=
  match write_fate_at d config_path, json_dumps json merged with
  | Written, Some _ => true
  | _, _ => false
  end.

(** A second [json] module for the examples.  It writes a value in the
    notation of Python literals, strings between single quotes, and reads
    the two texts of the examples. *)
Fixpoint show_value (v : pyval) : string :=
  match v with
  | PNone => "null"
  | PBool true => "true"
  | PBool false => "false"
  | PInt z => PyStr.of_Z z
  | PStr text => "'" ++ text ++ "'"
  | PList items =>
      "[" ++ (fix show_items (l : list pyval) : string :=
                match l with
                | [] => EmptyString
                | x :: rest =>
                    show_value x
                    ++ match rest with
                       | [] => EmptyString
                       | _ :: _ => ", " ++ show_items rest
                       end
                end) items ++ "]"
  | PDict entries =>
      "{" ++ (fix show_entries (l : list (pyval * pyval)) : string :=
                match l with
                | [] => EmptyString
                | (k, w) :: rest =>
                    show_value k ++ ": " ++ show_value w
                    ++ match rest with
                       | [] => EmptyString
                       | _ :: _ => ", " ++ show_entries rest
                       end
                end) entries ++ "}"
  end.

Definition literal_json : json_lib :=
  {| json_loads text :=
       if String.eqb text "{'hooks': {'PreToolUse': ['Y']}}"
       then Some (PDict [(PStr "hooks",
                          PDict [(PStr "PreToolUse", PList [PStr "Y"])])])
       else if String.eqb text "{}" then Some (PDict [])
       else None;
     json_dumps v := Some (show_value v) |}.

(** A disk for the examples with one file and nothing else. *)
Definition disk_with (p : Path) (content : string) (fate : write_fate) : disk :=
  {| file_at q := if path_eqb p q then Contents content else Missing;
     dir_at _ := false;
     write_fate_at _ := fate |}.

(** The [args] / [arguments] branch of [_transform_command_frontmatter],
    named for the statements about it. *)
Definition argument_hint_step (result : PyDict.dict) : PyDict.dict :=
  if PyDict.mem (PStr "args") result
     && negb (PyDict.mem (PStr "argument-hint") result)
  then rename_to_hint "args" result
  else if PyDict.mem (PStr "arguments") result
          && negb (PyDict.mem (PStr "argument-hint") result)
  then rename_to_hint "arguments" result
  else result.


(** ** The configuration file path *)

(** [get_config_path]: [opencode.jsonc] when that file exists, else
    [opencode.json]. *)
Definition get_config_path (os : os_env) (d : disk) (self : adapter)
  : result (Path * adapter * list log_record) :=
  located <- get_install_path os self ;;
  let '(install_path, self, log) := located in
  let jsonc_path := (install_path ++ ["opencode.jsonc"])%list in
  let json_path := (install_path ++ ["opencode.json"])%list in
  present <- path_exists d jsonc_path ;;
  if present then Ok (jsonc_path, self, log)
  else Ok (json_path, self, log).

(** A line that the read of the configuration leaves out. *)
Definition is_comment_line (line : string) : bool :=
  PyStr.startswith "//" (PyStr.strip line).

(** A [json] module for the examples that reads [null] only. *)
Definition null_json : json_lib :=
  {| json_loads text :=
       if String.eqb text "null" then Some PNone else None;
     json_dumps _ := Some "null" |}.

(** The characters of [s] that are no word characters, in order. *)
Fixpoint nonword_part (s : string) : string :=
  match s with
  | EmptyString => EmptyString
  | String c r =>
      if PyStr.is_word c then nonword_part r else String c (nonword_part r)
  end.


(** The line break at which the read splits the file. *)
Definition newline : ascii := "010"%char.

(** A line that the read of the configuration keeps. *)
Definition kept_line (line : string) : bool := negb (is_comment_line line).


(** ** Metadata that a rewrite removes entirely *)

(** [k] is one of the string keys [fields]. *)
Definition removed_key (fields : list string) (k : pyval) : bool :=
  match k with
  | PStr s => existsb (String.eqb s) fields
  | _ => false
  end.

(** Every field of [frontmatter] is one that [_transform_command_frontmatter]
    pops. *)
Definition command_leaves_nothing (frontmatter : PyDict.dict) : bool :=
  forallb (removed_key command_drop_list) (PyDict.keys frontmatter).

(** Every field of [frontmatter] is one that [_transform_agent_frontmatter]
    pops, and its [type], if any, is not turned into a [mode]. *)
Definition agent_leaves_nothing (frontmatter : PyDict.dict) : bool :=
  forallb (removed_key ("type" :: agent_drop_list)) (PyDict.keys frontmatter)
  && match PyDict.get (PStr "type") frontmatter with
     | Some agent_type =>
         negb (str_eq_val "subagent" agent_type)
         && negb (str_eq_val "primary" agent_type)
     | None => true
     end.

(** A second codec for the examples: the block is read line by line, a
    line [key: value] gives the field [key] with the string [value]. *)
Definition parse_line (fields : PyDict.dict) (line : string) : PyDict.dict :=
  match cut_at ": " line with
  | Some (key, value) => PyDict.set (PStr key) (PStr value) fields
  | None => fields
  end.

Fixpoint render_fields (fields : PyDict.dict) : string :=
  match fields with
  | (PStr key, PStr value) :: rest =>
      key ++ ": " ++ value ++ nl ++ render_fields rest
  | _ :: rest => render_fields rest
  | [] => EmptyString
  end.

#[local] Instance lines_codec : FrontmatterCodec := {
  find_block content :=
    if PyStr.startswith ("---" ++ nl) content
    then cut_at (nl ++ "---" ++ nl) (PyStr.drop 4 content)
    else None;
  parse_block block := fold_left parse_line (PyStr.split_char newline block) [];
  create_frontmatter fields := "---" ++ nl ++ render_fields fields ++ "---"
}.


(** ** The body rewrite on one word *)

(** What the pass for an entry of the table makes of a whole word behind
    which a keyword stands. *)
Definition token_step (word : string) (entry : string * string) : string :=
  if String.eqb (PyStr.lower word) (PyStr.lower (fst entry))
  then snd entry else word.

(** The same over the passes of a table, in their order. *)
Definition token_fold (table : list (string * string)) (word : string)
  : string :=
  fold_left token_step table word.


(* ================================================================== *)
(** * Properties *)
(* ================================================================== *)

(** ** Dictionaries with string keys *)

Module PyDictFacts.
Import PyDict.

Lemma key_eqb_str k s : key_eqb k (PStr s) = true <-> k = PStr s.
Proof.
  destruct k; simpl; split; intro H; try discriminate; try congruence.
  - apply String.eqb_eq in H. now subst.
  - injection H as ->. apply String.eqb_refl.
Qed.

Lemma key_eqb_str_str s t : key_eqb (PStr s) (PStr t) = String.eqb s t.
Proof. reflexivity. Qed.

Lemma get_set_str a b v d :
  get (PStr a) (set (PStr b) v d)
  = if String.eqb b a then Some v else get (PStr a) d.
Proof.
  induction d as [|[k w] r IH]; simpl.
  - reflexivity.
  - destruct (key_eqb k (PStr b)) eqn:Kb.
    + apply key_eqb_str in Kb. subst k. simpl.
      destruct (String.eqb b a); reflexivity.
    + simpl. destruct (key_eqb k (PStr a)) eqn:Ka.
      * apply key_eqb_str in Ka. subst k. simpl in Kb.
        destruct (String.eqb b a) eqn:E; [|reflexivity].
        apply String.eqb_eq in E. subst. rewrite String.eqb_refl in Kb.
        discriminate.
      * exact IH.
Qed.

Lemma keys_set_str n v d :
  keys (set (PStr n) v d)
  = if mem (PStr n) d then keys d else (keys d ++ [PStr n])%list.
Proof.
  unfold mem, keys. induction d as [|[k w] r IH]; simpl.
  - reflexivity.
  - destruct (key_eqb k (PStr n)); simpl.
    + reflexivity.
    + rewrite IH. destruct (get (PStr n) r); reflexivity.
Qed.

Lemma get_remove_str a b d :
  get (PStr a) (remove (PStr b) d)
  = if String.eqb b a then None else get (PStr a) d.
Proof.
  induction d as [|[k w] r IH]; simpl.
  - now destruct (String.eqb b a).
  - destruct (key_eqb k (PStr b)) eqn:Kb.
    + rewrite IH. apply key_eqb_str in Kb. subst k. simpl.
      destruct (String.eqb b a); reflexivity.
    + simpl. destruct (key_eqb k (PStr a)) eqn:Ka.
      * apply key_eqb_str in Ka. subst k. simpl in Kb.
        now rewrite String.eqb_sym, Kb.
      * exact IH.
Qed.

End PyDictFacts.

(** ** The tools rewrite *)

Module ToolsFacts.
Import PyDict PyDictFacts.

Lemma list_has_str_names m l :
  list_has_str m l = existsb (String.eqb m) (str_names l).
Proof.
  unfold list_has_str. induction l as [|v r IH]; simpl; [reflexivity|].
  destruct v; simpl; try exact IH.
  now rewrite IH, String.eqb_sym.
Qed.

Lemma str_names_app l1 l2 :
  str_names (l1 ++ l2) = (str_names l1 ++ str_names l2)%list.
Proof.
  induction l1 as [|v r IH]; simpl; [reflexivity|].
  destruct v; simpl; now rewrite ?IH.
Qed.

(** The loop over a list, from any accumulator. *)
Lemma tools_list_fold items : forall acc,
  fold_left tools_list_step items acc
  = (acc ++ dedup_names (str_names acc) (map map_entry items))%list.
Proof.
  induction items as [|v r IH]; intro acc; simpl.
  - now rewrite app_nil_r.
  - rewrite IH. destruct v; simpl;
      try (rewrite str_names_app; simpl; rewrite app_nil_r, <- app_assoc;
           reflexivity).
    rewrite list_has_str_names.
    destruct (existsb (String.eqb (map_tool_name s)) (str_names acc)).
    + reflexivity.
    + rewrite str_names_app. simpl. now rewrite <- app_assoc.
Qed.

Lemma existsb_eqb_In s l : existsb (String.eqb s) l = true <-> In s l.
Proof.
  rewrite existsb_exists. split.
  - intros [x [Hin E]]. apply String.eqb_eq in E. now subst.
  - intro H. exists s. split; [assumption | apply String.eqb_refl].
Qed.

(** No name is kept twice, and no name already seen is kept. *)
Lemma dedup_names_NoDup l : forall seen,
  NoDup seen -> NoDup (seen ++ str_names (dedup_names seen l)).
Proof.
  induction l as [|v r IH]; intros seen ND; simpl.
  - now rewrite app_nil_r.
  - destruct v; simpl; try (now apply IH).
    destruct (existsb (String.eqb s) seen) eqn:E.
    + now apply IH.
    + simpl. change (s :: str_names (dedup_names (seen ++ [s]) r))
        with ([s] ++ str_names (dedup_names (seen ++ [s]) r))%list.
      rewrite app_assoc. apply IH.
      apply NoDup_app; [assumption | repeat constructor; intros [] | ].
      intros x Hx [->|[]].
      apply existsb_eqb_In in Hx. congruence.
Qed.

(** Entries that are not strings pass through, in order. *)
Lemma dedup_names_others l : forall seen,
  filter (fun v => negb (is_str v)) (dedup_names seen (map map_entry l))
  = filter (fun v => negb (is_str v)) l.
Proof.
  induction l as [|v r IH]; intro seen; simpl; [reflexivity|].
  destruct v; simpl; rewrite ?IH; try reflexivity.
  destruct (existsb _ seen); simpl; now rewrite IH.
Qed.

(** Every name of a string entry is kept, once it is not already seen. *)
Lemma dedup_names_In l : forall seen s,
  In s (seen ++ str_names (dedup_names seen l))
  <-> In s (seen ++ str_names l).
Proof.
  induction l as [|v r IH]; intros seen s; simpl; [tauto|].
  destruct v; simpl; try apply IH.
  destruct (existsb (String.eqb s0) seen) eqn:E.
  - rewrite IH. rewrite !in_app_iff. simpl.
    apply existsb_eqb_In in E. intuition (subst; auto).
  - simpl. specialize (IH (seen ++ [s0])%list s).
    rewrite <- !app_assoc in IH. simpl in IH. exact IH.
Qed.

(** The loop over a mapping, from any accumulator: the value under a name. *)
Lemma tools_dict_fold_get entries : forall acc name,
  get (PStr name) (fold_left tools_dict_step entries acc)
  = match last_value name (renamed_entries entries) with
    | Some w => Some w
    | None => get (PStr name) acc
    end.
Proof.
  induction entries as [|[k v] r IH]; intros acc name; simpl.
  - reflexivity.
  - rewrite IH. unfold tools_dict_step. simpl.
    destruct k; simpl; try reflexivity.
    destruct (last_value name (renamed_entries r)); [reflexivity|].
    rewrite get_set_str. now destruct (String.eqb (map_tool_name s) name).
Qed.

Lemma mem_str_names n d :
  Forall (fun k => is_str k = true) (keys d) ->
  mem (PStr n) d = existsb (String.eqb n) (str_names (keys d)).
Proof.
  unfold mem, keys. induction d as [|[k w] r IH]; simpl; intro F.
  - reflexivity.
  - inversion F as [|? ? Hk F']; subst. simpl in Hk.
    destruct k; try discriminate. simpl.
    rewrite String.eqb_sym. destruct (String.eqb n s); simpl.
    + reflexivity.
    + now apply IH.
Qed.

(** The loop over a mapping, from any accumulator: the keys, in order. *)
Lemma tools_dict_fold_keys entries : forall acc,
  Forall (fun k => is_str k = true) (keys acc) ->
  keys (fold_left tools_dict_step entries acc)
  = (keys acc ++ dedup_names (str_names (keys acc))
                   (map (fun e => PStr (fst e)) (renamed_entries entries)))%list.
Proof.
  induction entries as [|[k v] r IH]; intros acc F; simpl.
  - now rewrite app_nil_r.
  - unfold tools_dict_step at 2. simpl.
    destruct k; simpl; try (now apply IH).
    assert (K := keys_set_str (map_tool_name s) v acc).
    rewrite (mem_str_names _ _ F) in K.
    destruct (existsb (String.eqb (map_tool_name s)) (str_names (keys acc))) eqn:E.
    + rewrite IH; rewrite K; [reflexivity | assumption].
    + rewrite IH; rewrite K.
      * rewrite str_names_app. simpl. now rewrite <- app_assoc.
      * apply Forall_app. split; [assumption | now repeat constructor].
Qed.

Lemma last_value_app name l1 l2 :
  last_value name (l1 ++ l2)
  = match last_value name l2 with
    | Some w => Some w
    | None => last_value name l1
    end.
Proof.
  induction l1 as [|[n v] r IH]; simpl.
  - now destruct (last_value name l2).
  - rewrite IH. now destruct (last_value name l2).
Qed.

Lemma renamed_entries_app l1 l2 :
  renamed_entries (l1 ++ l2) = (renamed_entries l1 ++ renamed_entries l2)%list.
Proof.
  induction l1 as [|[k v] r IH]; simpl; [reflexivity|].
  destruct k; simpl; now rewrite ?IH.
Qed.

Lemma last_value_None name l :
  (forall n v, In (n, v) l -> n <> name) -> last_value name l = None.
Proof.
  induction l as [|[n v] r IH]; simpl; intro H; [reflexivity|].
  rewrite IH by (intros; eapply H; right; eassumption).
  destruct (String.eqb n name) eqn:E; [|reflexivity].
  apply String.eqb_eq in E. exfalso. eapply H; [left; reflexivity | exact E].
Qed.

Lemma renamed_entries_In n v l :
  In (n, v) (renamed_entries l) ->
  exists tool, In (PStr tool, v) l /\ n = map_tool_name tool.
Proof.
  induction l as [|[k w] r IH]; simpl; [tauto|].
  destruct k; simpl; intro H;
    try (destruct (IH H) as [t [? ?]]; exists t; split; [now right | assumption]).
  destruct H as [E|H].
  - injection E as <- <-. exists s. split; [now left | reflexivity].
  - destruct (IH H) as [t [? ?]]. exists t. split; [now right | assumption].
Qed.

End ToolsFacts.

Module ToolsClaims.
Import PyDict PyDictFacts ToolsFacts.

Lemma In_set_str k w m v d :
  In (k, w) (set (PStr m) v d) ->
  In (k, w) d \/ (k = PStr m /\ w = v).
Proof.
  induction d as [|[k' v'] r IH]; simpl.
  - intros [E|[]]. injection E as <- <-. now right.
  - destruct (key_eqb k' (PStr m)) eqn:K; simpl.
    + apply key_eqb_str in K. subst k'.
      intros [E|H]; [injection E as <- <-; now right | left; now right].
    + intros [E|H]; [left; now left|].
      destruct (IH H) as [?|?]; [left; now right | now right].
Qed.

(** Every entry the loop writes comes from an entry with a string key. *)
Lemma tools_dict_fold_origin all entries : forall acc,
  incl entries all ->
  (forall k v, In (k, v) acc ->
     exists tool, k = PStr (map_tool_name tool) /\ In (PStr tool, v) all) ->
  forall k v, In (k, v) (fold_left tools_dict_step entries acc) ->
    exists tool, k = PStr (map_tool_name tool) /\ In (PStr tool, v) all.
Proof.
  induction entries as [|[k0 v0] r IH]; intros acc Hincl Hacc; simpl.
  - exact Hacc.
  - apply IH.
    + intros x Hx. apply Hincl. now right.
    + unfold tools_dict_step. simpl. destruct k0; try exact Hacc.
      intros k v Hin. apply In_set_str in Hin. destruct Hin as [Hin|[-> ->]].
      * now apply Hacc.
      * exists s. split; [reflexivity | apply Hincl; now left].
Qed.

(** Entries whose key is no string do not take part in the loop. *)
Lemma tools_dict_fold_filter entries : forall acc,
  fold_left tools_dict_step entries acc
  = fold_left tools_dict_step (filter (fun e => is_str (fst e)) entries) acc.
Proof.
  induction entries as [|[k v] r IH]; intro acc; simpl; [reflexivity|].
  destruct k; simpl; apply IH.
Qed.

End ToolsClaims.

(** C1: the tools rewrite.  A mapping: every string key is renamed by the
    tool-name table, or lower-cased when the table has no entry for it;
    the value found under a resulting name is the value of the last entry
    renamed to it, so an entry that no later entry collides with keeps its
    enabled/disabled value; the keys stand in first-occurrence order.
    A list: string entries are renamed the same way and only the first
    occurrence of a resulting name is kept; entries that are not strings
    pass through unchanged.  Any other value is returned as it is. *)
Theorem C1_tools_rewrite (tools : pyval) :
  match tools with
  | PDict entries =>
      exists normalized,
        _transform_tools_for_opencode tools = PDict normalized
        /\ (forall name,
              PyDict.get (PStr name) normalized
              = last_value name (renamed_entries entries))
        /\ PyDict.keys normalized
           = dedup_names [] (map (fun e => PStr (fst e)) (renamed_entries entries))
        /\ (forall before tool enabled after,
              entries = (before ++ (PStr tool, enabled) :: after)%list ->
              (forall t e, In (PStr t, e) after ->
                           map_tool_name t <> map_tool_name tool) ->
              PyDict.get (PStr (map_tool_name tool)) normalized = Some enabled)
  | PList items =>
      _transform_tools_for_opencode tools = PList (tools_list_spec items)
      /\ NoDup (str_names (tools_list_spec items))
      /\ (forall s, In s (str_names (tools_list_spec items))
                    <-> In s (str_names (map map_entry items)))
      /\ filter (fun v => negb (is_str v)) (tools_list_spec items)
         = filter (fun v => negb (is_str v)) items
  | _ => _transform_tools_for_opencode tools = tools
  end
  /\ (forall tool mapped,
        table_get _OPENCODE_TOOL_NAME_MAP tool = Some mapped ->
        map_tool_name tool = mapped)
  /\ (forall tool,
        table_get _OPENCODE_TOOL_NAME_MAP tool = None ->
        map_tool_name tool = PyStr.lower tool)
  /\ _transform_tools_for_opencode
       (PDict [(PStr "Bash", PBool true); (PStr "Read", PBool false)])
     = PDict [(PStr "bash", PBool true); (PStr "read", PBool false)]
  /\ _transform_tools_for_opencode (PList [PStr "Bash"; PStr "bash"; PStr "Edit"])
     = PList [PStr "bash"; PStr "edit"].
Proof.
  split; [| repeat split; try reflexivity;
            unfold map_tool_name; intros; now rewrite H ].
  destruct tools as [| | | |items|entries]; try reflexivity.
  - (* a list *)
    repeat split.
    + simpl. f_equal. apply (ToolsFacts.tools_list_fold items []).
    + apply (ToolsFacts.dedup_names_NoDup (map map_entry items) []). constructor.
    + apply (ToolsFacts.dedup_names_In (map map_entry items) [] s).
    + apply (ToolsFacts.dedup_names_In (map map_entry items) [] s).
    + apply ToolsFacts.dedup_names_others.
  - (* a mapping *)
    exists (fold_left tools_dict_step entries []). repeat split.
    + intro name. rewrite ToolsFacts.tools_dict_fold_get.
      now destruct (last_value name (renamed_entries entries)).
    + apply (ToolsFacts.tools_dict_fold_keys entries []). constructor.
    + intros before tool enabled after -> Hlater.
      rewrite ToolsFacts.tools_dict_fold_get, ToolsFacts.renamed_entries_app.
      simpl. rewrite ToolsFacts.last_value_app. simpl.
      rewrite ToolsFacts.last_value_None.
      * now rewrite String.eqb_refl.
      * intros n v Hin. apply ToolsFacts.renamed_entries_In in Hin.
        destruct Hin as [t [Hin ->]]. eapply Hlater. eassumption.
Qed.

(** C10: in a tools mapping, an entry whose key is not a string is
    dropped: every entry of the rewritten mapping has a string key and
    comes from an entry of the input with a string key, and the rewrite of
    the mapping is the rewrite of its string-keyed entries alone. *)
Theorem C10_non_string_keys_dropped (entries : list (pyval * pyval)) :
  exists normalized,
    _transform_tools_for_opencode (PDict entries) = PDict normalized
    /\ (forall k v, In (k, v) normalized ->
          exists tool, k = PStr (map_tool_name tool)
                       /\ In (PStr tool, v) entries)
    /\ _transform_tools_for_opencode
         (PDict (filter (fun e => is_str (fst e)) entries))
       = PDict normalized
    /\ (forallb (fun e => negb (is_str (fst e))) entries = true ->
        normalized = []).
Proof.
  exists (fold_left tools_dict_step entries []). repeat split.
  - apply (ToolsClaims.tools_dict_fold_origin entries entries []).
    + apply incl_refl.
    + intros k v [].
  - simpl. f_equal. symmetry. apply ToolsClaims.tools_dict_fold_filter.
  - intro H. rewrite ToolsClaims.tools_dict_fold_filter.
    replace (filter (fun e => is_str (fst e)) entries) with (@nil (pyval * pyval)).
    + reflexivity.
    + induction entries as [|[k v] r IH]; simpl in *; [reflexivity|].
      apply andb_prop in H. destruct H as [Hk Hr].
      destruct (is_str k); [discriminate | now apply IH].
Qed.

(** ** Frontmatter rewrites *)

Module FrontmatterFacts.
Import PyDict PyDictFacts.

Lemma get_drop_fields fields : forall d k,
  get (PStr k) (drop_fields fields d)
  = if existsb (String.eqb k) fields then None else get (PStr k) d.
Proof.
  unfold drop_fields.
  induction fields as [|f r IH]; intros d k; simpl; [reflexivity|].
  rewrite IH, get_remove_str, (String.eqb_sym f k).
  destruct (String.eqb k f); simpl;
    now destruct (existsb (String.eqb k) r).
Qed.

(** [_transform_frontmatter] raises only on a model that cannot be
    hashed, and touches no field but [model] and [tools]. *)
(** A [model] that cannot be hashed stops the rewrite. *)
Lemma model_raises fm m :
  get (PStr "model") fm = Some m -> str_of_scalar m = None ->
  _transform_frontmatter fm = Raise TypeError.
Proof.
  intros G T. unfold _transform_frontmatter. rewrite G. cbn [bind].
  unfold rewrite_model. now rewrite T.
Qed.

Lemma transform_frontmatter_cases fm :
  match _transform_frontmatter fm with
  | Ok result =>
      (forall k, k <> "model" -> k <> "tools" ->
                 get (PStr k) result = get (PStr k) fm)
      /\ (forall m, get (PStr "model") fm = Some m ->
            exists assigned, rewrite_model m = Ok assigned
              /\ get (PStr "model") result
                 = Some (match assigned with Some v => v | None => m end))
      /\ (get (PStr "model") fm = None -> get (PStr "model") result = None)
  | Raise e =>
      exists m, get (PStr "model") fm = Some m /\ str_of_scalar m = None
  end.
Proof.
  unfold _transform_frontmatter.
  destruct (get (PStr "model") fm) as [m|] eqn:Hm; simpl.
  - unfold rewrite_model at 1.
    destruct (str_of_scalar m) as [text|] eqn:Ht; simpl.
    2:{ exists m. now split. }
    set (assigned := match match m with PStr s => _ | _ => None end with
                     | Some q => _ | None => _ end).
    assert (Hrw : rewrite_model m = assigned)
      by (unfold rewrite_model; rewrite Ht; reflexivity).
    clearbody assigned.
    destruct assigned as [[v|]|e]; simpl.
    + destruct (get (PStr "tools") (set (PStr "model") v fm)) eqn:Htools;
        repeat split.
      * intros k K1 K2. rewrite !get_set_str.
        destruct (String.eqb "tools" k) eqn:E1;
          [apply String.eqb_eq in E1; congruence|].
        destruct (String.eqb "model" k) eqn:E2;
          [apply String.eqb_eq in E2; congruence|]. reflexivity.
      * intros m0 [= <-]. exists (Some v). split; [assumption|].
        rewrite !get_set_str. reflexivity.
      * discriminate.
      * intros k K1 K2. rewrite !get_set_str.
        destruct (String.eqb "model" k) eqn:E2;
          [apply String.eqb_eq in E2; congruence|]. reflexivity.
      * intros m0 [= <-]. exists (Some v). split; [assumption|].
        rewrite !get_set_str. reflexivity.
      * discriminate.
    + destruct (get (PStr "tools") fm) eqn:Htools; repeat split.
      * intros k K1 K2. rewrite !get_set_str.
        destruct (String.eqb "tools" k) eqn:E1;
          [apply String.eqb_eq in E1; congruence|]. reflexivity.
      * intros m0 [= <-]. exists None. split; [assumption|].
        rewrite !get_set_str. simpl. assumption.
      * discriminate.
      * intros m0 [= <-]. exists None. split; [assumption|]. assumption.
      * discriminate.
    + unfold rewrite_model in Hrw. rewrite Ht in Hrw.
      destruct m; simpl in Hrw; try discriminate;
        repeat match type of Hrw with
               | context [match ?x with _ => _ end] => destruct x
               end; discriminate.
  - destruct (get (PStr "tools") fm) eqn:Htools; repeat split;
      try discriminate.
    + intros k K1 K2. rewrite !get_set_str.
      destruct (String.eqb "tools" k) eqn:E1;
        [apply String.eqb_eq in E1; congruence|]. reflexivity.
    + intros _. rewrite get_set_str. simpl. assumption.
    + intros _. assumption.
Qed.

End FrontmatterFacts.

Module AgentFacts.
Import PyDict PyDictFacts.

Lemma get_type_convert d : get (PStr "type") (convert_type d) = None.
Proof.
  unfold convert_type. destruct (get (PStr "type") d) as [t|] eqn:Ht.
  - repeat match goal with
           | |- context [if ?b then _ else _] => destruct b
           end;
      rewrite ?get_set_str, get_remove_str; reflexivity.
  - exact Ht.
Qed.

Lemma get_mode_convert d :
  get (PStr "mode") (convert_type d)
  = match get (PStr "mode") d with
    | Some m => Some m
    | None =>
        match get (PStr "type") d with
        | Some t =>
            if str_eq_val "subagent" t then Some (PStr "subagent")
            else if str_eq_val "primary" t then Some (PStr "primary")
            else None
        | None => None
        end
    end.
Proof.
  unfold convert_type, mem.
  destruct (get (PStr "type") d) as [t|] eqn:Ht.
  - rewrite get_remove_str. simpl.
    destruct (get (PStr "mode") d) as [m|] eqn:Hm; simpl.
    + rewrite !andb_false_r. rewrite get_remove_str. simpl. exact Hm.
    + rewrite !andb_true_r.
      destruct (str_eq_val "subagent" t); [now rewrite get_set_str|].
      destruct (str_eq_val "primary" t); [now rewrite get_set_str|].
      rewrite get_remove_str. simpl. exact Hm.
  - now destruct (get (PStr "mode") d).
Qed.

Lemma table_get_In table s v :
  table_get table s = Some v -> In (s, v) table.
Proof.
  induction table as [|[k w] r IH]; simpl; [discriminate|].
  destruct (String.eqb k s) eqn:E.
  - apply String.eqb_eq in E. subst k. intros [= <-]. now left.
  - intro H. right. now apply IH.
Qed.

Lemma model_map_no_slash s qualified :
  table_get _OPENCODE_MODEL_MAP s = Some qualified ->
  PyStr.contains "/" s = false.
Proof.
  intro H. apply table_get_In in H. unfold _OPENCODE_MODEL_MAP in H.
  repeat (destruct H as [H|H]; [injection H as <- <-; reflexivity|]).
  destruct H.
Qed.

End AgentFacts.


(** The three examples of the specification. *)
Example model_examples :
  _transform_frontmatter [(PStr "model", PStr "sonnet")]
  = Ok [(PStr "model", PStr "anthropic/claude-sonnet-4-5")]
  /\ _transform_frontmatter [(PStr "model", PStr "custom-model")]
     = Ok [(PStr "model", PStr "anthropic/custom-model")]
  /\ _transform_frontmatter [(PStr "model", PStr "vendor/custom")]
     = Ok [(PStr "model", PStr "vendor/custom")].
Proof. repeat split. Qed.





(** ** Strings *)

Module PyStrFacts.
Import PyStr.

Lemma append_assoc (a b c : string) : (a ++ b) ++ c = a ++ (b ++ c).
Proof. induction a as [|x a IH]; simpl; [reflexivity | now rewrite IH]. Qed.

Lemma append_nil_r (a : string) : a ++ "" = a.
Proof. induction a as [|x a IH]; simpl; [reflexivity | now rewrite IH]. Qed.

Lemma length_append (a b : string) :
  String.length (a ++ b) = String.length a + String.length b.
Proof. induction a as [|x a IH]; simpl; [reflexivity | now rewrite IH]. Qed.

Lemma startswith_app p s : startswith p (p ++ s) = true.
Proof.
  induction p as [|c p IH]; simpl; [reflexivity|].
  now rewrite Ascii.eqb_refl.
Qed.

Lemma startswith_split p s :
  startswith p s = true -> s = p ++ drop (String.length p) s.
Proof.
  revert s. induction p as [|c p IH]; intros s H; simpl in *.
  - reflexivity.
  - destruct s as [|d s]; [discriminate|].
    apply andb_prop in H. destruct H as [E H].
    apply Ascii.eqb_eq in E. subst d. simpl. f_equal. now apply IH.
Qed.

Lemma drop_app_length a b : drop (String.length a) (a ++ b) = b.
Proof. induction a as [|x a IH]; simpl; [now destruct b | exact IH]. Qed.

(** A prefix that fits in the first part is a prefix of the first part. *)
Lemma startswith_app_fit p x y :
  startswith p (x ++ y) = true -> String.length p <= String.length x ->
  startswith p x = true.
Proof.
  revert x. induction p as [|c p IH]; intros x H L; simpl in *.
  - reflexivity.
  - destruct x as [|d x]; simpl in *; [lia|].
    apply andb_prop in H. destruct H as [E H]. rewrite E. simpl.
    apply IH; [assumption | lia].
Qed.

Lemma startswith_app_l p x y :
  startswith p x = true -> startswith p (x ++ y) = true.
Proof.
  revert x. induction p as [|c p IH]; intros x H; simpl in *.
  - reflexivity.
  - destruct x as [|d x]; simpl in *; [discriminate|].
    apply andb_prop in H. destruct H as [E H]. rewrite E. simpl.
    now apply IH.
Qed.

Lemma contains_startswith p s : startswith p s = true -> contains p s = true.
Proof. intro H. destruct s; simpl in *; now rewrite H. Qed.

Lemma contains_cons p c s : contains p s = true -> contains p (String c s) = true.
Proof. intro H. simpl. rewrite H. apply orb_true_r. Qed.

Lemma contains_app_r p a s : contains p s = true -> contains p (a ++ s) = true.
Proof.
  induction a as [|c a IH]; intro H; simpl append; [assumption|].
  apply contains_cons. now apply IH.
Qed.

Lemma contains_app_l p s b : contains p s = true -> contains p (s ++ b) = true.
Proof.
  induction s as [|c s IH]; simpl.
  - rewrite orb_false_r. intro H. destruct p; [|discriminate].
    now destruct b.
  - intro H. apply orb_prop in H. destruct H as [H|H].
    + pose proof (startswith_app_l p (String c s) b H) as K.
      simpl in K. now rewrite K.
    + rewrite (IH H). apply orb_true_r.
Qed.

(** [contains] is the existence of an occurrence. *)
Lemma contains_iff p s :
  contains p s = true <-> exists a b, s = a ++ p ++ b.
Proof.
  split.
  - induction s as [|c s IH]; simpl.
    + rewrite orb_false_r. intro H. destruct p; [|discriminate].
      now exists "", "".
    + intro H. apply orb_prop in H. destruct H as [H|H].
      * exists "", (drop (String.length p) (String c s)).
        now apply startswith_split in H.
      * destruct (IH H) as [a [b E]]. exists (String c a), b.
        simpl. now rewrite E.
  - intros [a [b ->]]. apply contains_app_r, contains_app_l.
    apply contains_startswith. rewrite <- (append_nil_r p) at 2.
    apply startswith_app.
Qed.

Lemma contains_trans p q s :
  contains p q = true -> contains q s = true -> contains p s = true.
Proof.
  rewrite !contains_iff. intros [a [b ->]] [a' [b' ->]].
  exists (a' ++ a), (b ++ b'). now rewrite !append_assoc.
Qed.

Lemma startswith_first_char c p d s :
  startswith (String c p) (String d s) = true -> d = c.
Proof.
  simpl. intro H. apply andb_prop in H. destruct H as [E _].
  apply Ascii.eqb_eq in E. now subst.
Qed.

(** *** The scan of [str.replace] *)

Section Replace.
Variables (c0 : ascii) (old' new : string).
Let old := String c0 old'.

Lemma replace_scan_skip a : forall b,
  replace_scan old new (String.length a) (a ++ b) = replace_scan old new 0 b.
Proof.
  induction a as [|x a IH]; intro b; simpl.
  - now destruct b.
  - apply IH.
Qed.

Lemma replace_scan_match s :
  replace_scan old new 0 (old ++ s) = new ++ replace_scan old new 0 s.
Proof.
  change (old ++ s) with (String c0 (old' ++ s)).
  cbn [replace_scan].
  change (String c0 (old' ++ s)) with (old ++ s).
  rewrite startswith_app. f_equal.
  replace (String.length old - 1) with (String.length old')
    by (subst old; simpl; lia).
  apply replace_scan_skip.
Qed.

Lemma replace_scan_step c s :
  startswith old (String c s) = false ->
  replace_scan old new 0 (String c s) = String c (replace_scan old new 0 s).
Proof. intro H. cbn [replace_scan]. now rewrite H. Qed.

(** Without an occurrence nothing changes. *)
Lemma replace_scan_absent s :
  contains old s = false -> replace_scan old new 0 s = s.
Proof.
  induction s as [|c s IH]; intro H; [reflexivity|].
  simpl in H. apply orb_false_elim in H. destruct H as [H1 H2].
  rewrite replace_scan_step by exact H1. now rewrite IH.
Qed.

(** A text in which the first character of [old] does not occur is
    copied, and the scan goes on behind it. *)
Lemma replace_scan_pass x : forall y,
  has_char c0 x = false ->
  replace_scan old new 0 (x ++ y) = x ++ replace_scan old new 0 y.
Proof.
  induction x as [|c x IH]; intros y H; [reflexivity|].
  simpl in H. apply orb_false_elim in H. destruct H as [H1 H2].
  simpl append. rewrite replace_scan_step.
  - now rewrite IH.
  - subst old. simpl. rewrite Ascii.eqb_sym in H1. now rewrite H1.
Qed.

(** The leftmost occurrence is rewritten. *)
Lemma replace_scan_occurrence x y :
  has_char c0 x = false ->
  replace_scan old new 0 (x ++ old ++ y)
  = x ++ new ++ replace_scan old new 0 y.
Proof.
  intro H. rewrite replace_scan_pass by exact H.
  now rewrite replace_scan_match.
Qed.

Section Alphabet.
Variables (n0 : ascii) (new' : string).
Hypothesis new_eq : new = String n0 new'.

(** A text in which the first character of [new] does not occur,
    found at the head of the output, stood at the head of the
    input. *)
Lemma startswith_replace_scan q : forall t,
  has_char n0 q = false ->
  startswith q (replace_scan old new 0 t) = true ->
  startswith q t = true.
Proof.
  induction q as [|d q IH]; intros t D H; [reflexivity|].
  simpl in D. apply orb_false_elim in D. destruct D as [D1 D2].
  destruct t as [|c t]; [discriminate H|].
  destruct (startswith old (String c t)) eqn:M.
  - apply startswith_split in M. rewrite M in H.
    rewrite replace_scan_match, new_eq in H.
    apply startswith_first_char in H. subst n0.
    now rewrite Ascii.eqb_refl in D1.
  - rewrite replace_scan_step in H by exact M.
    simpl in H. apply andb_prop in H. destruct H as [E H].
    simpl. rewrite E. simpl. now apply IH.
Qed.

Lemma contains_behind q x : forall y,
  has_char q x = false ->
  forall p, contains (String q p) (x ++ y) = true ->
            contains (String q p) y = true.
Proof.
  induction x as [|c x IH]; intros y H p K; [exact K|].
  simpl in H. apply orb_false_elim in H. destruct H as [H1 H2].
  change (String c x ++ y) with (String c (x ++ y)) in K.
  cbn [contains] in K. apply orb_prop in K. destruct K as [K|K].
  - apply startswith_first_char in K. subst c.
    now rewrite Ascii.eqb_refl in H1.
  - now apply (IH y H2).
Qed.

(** An occurrence, in the output, of a text that [new] cannot begin
    or end in the middle of is an occurrence in the input. *)
Lemma contains_replace_scan d q :
  has_char n0 (String d q) = false ->
  has_char d new = false ->
  forall n s, String.length s <= n ->
    contains (String d q) (replace_scan old new 0 s) = true ->
    contains (String d q) s = true.
Proof.
  intros D1 D2 n. induction n as [|n IH]; intros s L H.
  - destruct s; [discriminate H | simpl in L; lia].
  - destruct s as [|c s]; [discriminate H|].
    destruct (startswith old (String c s)) eqn:M.
    + apply startswith_split in M. rewrite M in H |- *.
      rewrite replace_scan_match in H.
      apply contains_behind in H; [|exact D2].
      apply contains_app_r. apply IH; [|exact H].
      assert (String.length (String c s)
              = String.length old
                + String.length (drop (String.length old) (String c s)))
        by (rewrite M at 1; apply length_append).
      subst old. simpl in *. lia.
    + rewrite replace_scan_step in H by exact M.
      cbn [contains] in H. apply orb_prop in H. destruct H as [H|H].
      * apply contains_startswith.
        apply startswith_replace_scan; [exact D1|].
        now rewrite replace_scan_step.
      * apply contains_cons. apply IH; [simpl in L; lia | exact H].
Qed.

(** No occurrence of [old] is left when [new] shares neither its
    first character with [old] nor the first character of [old]. *)
Lemma replace_scan_clean :
  has_char n0 old = false ->
  has_char c0 new = false ->
  forall n s, String.length s <= n ->
    contains old (replace_scan old new 0 s) = false.
Proof.
  intros D1 D2 n. induction n as [|n IH]; intros s L.
  - destruct s; [reflexivity | simpl in L; lia].
  - destruct s as [|c s]; [reflexivity|].
    destruct (startswith old (String c s)) eqn:M.
    + apply startswith_split in M. rewrite M.
      rewrite replace_scan_match.
      destruct (contains old (new ++ _)) eqn:K; [|reflexivity].
      apply contains_behind in K; [|exact D2].
      rewrite IH in K; [discriminate|].
      assert (String.length (String c s)
              = String.length old
                + String.length (drop (String.length old) (String c s)))
        by (rewrite M at 1; apply length_append).
      subst old. simpl in *. lia.
    + rewrite replace_scan_step by exact M.
      cbn [contains]. apply orb_false_intro.
      * destruct (startswith old (String c (replace_scan old new 0 s)))
          eqn:K; [|reflexivity].
        rewrite <- replace_scan_step in K by exact M.
        apply startswith_replace_scan in K; [congruence | exact D1].
      * apply IH. simpl in L. lia.
Qed.

End Alphabet.
End Replace.

End PyStrFacts.

(** ** The hook rewrite *)

Module HookFacts.
Import PyStr PyStrFacts.

Lemma has_char_app c a b : has_char c (a ++ b) = has_char c a || has_char c b.
Proof.
  induction a as [|d a IH]; simpl; [reflexivity|].
  now rewrite IH, orb_assoc.
Qed.

Lemma startswith_common a b s : startswith (a ++ b) (a ++ s) = startswith b s.
Proof.
  induction a as [|c a IH]; simpl; [reflexivity|].
  now rewrite Ascii.eqb_refl.
Qed.

(** The scan lemmas, for [replace] with an [old] that is not empty. *)
Lemma replace_pass c0 old' new x y :
  has_char c0 x = false ->
  replace (String c0 old') new (x ++ y)
  = x ++ replace (String c0 old') new y.
Proof. apply replace_scan_pass. Qed.

Lemma replace_occurrence c0 old' new x y :
  has_char c0 x = false ->
  replace (String c0 old') new (x ++ String c0 old' ++ y)
  = x ++ new ++ replace (String c0 old') new y.
Proof. apply replace_scan_occurrence. Qed.

(** A text that begins like [old] but is no occurrence of it is copied. *)
Lemma replace_keep c0 old' new before tail after :
  has_char c0 before = false ->
  has_char c0 tail = false ->
  startswith (String c0 old') (String c0 (tail ++ after)) = false ->
  replace (String c0 old') new (before ++ String c0 tail ++ after)
  = before ++ String c0 tail ++ replace (String c0 old') new after.
Proof.
  intros Hb Ht Hm. unfold replace.
  rewrite replace_scan_pass by exact Hb. f_equal.
  change (String c0 tail ++ after) with (String c0 (tail ++ after)).
  rewrite replace_scan_step by exact Hm.
  now rewrite replace_scan_pass by exact Ht.
Qed.

Lemma replace_pass2 c0 old' new x y z :
  has_char c0 x = false -> has_char c0 y = false ->
  replace (String c0 old') new (x ++ y ++ z)
  = x ++ y ++ replace (String c0 old') new z.
Proof.
  intros Hx Hy. rewrite <- append_assoc, replace_pass.
  - apply append_assoc.
  - rewrite has_char_app, Hx, Hy. reflexivity.
Qed.

Lemma hook_braced_hooks before after :
  has_char dollar before = false ->
  transform_hook (before ++ braced_hooks ++ after)
  = before ++ hook_prefix ++ transform_hook after.
Proof.
  intro H. unfold transform_hook, braced_hooks, hook_prefix.
  rewrite replace_occurrence by exact H.
  rewrite !replace_pass2 by (exact H || reflexivity).
  reflexivity.
Qed.

Lemma hook_bare_hooks before after :
  has_char dollar before = false ->
  transform_hook (before ++ bare_hooks ++ after)
  = before ++ hook_prefix ++ transform_hook after.
Proof.
  intro H. unfold transform_hook, bare_hooks, hook_prefix.
  rewrite (replace_keep _ _ _ before "CLAUDE_PLUGIN_ROOT/hooks/")
    by (exact H || reflexivity).
  rewrite replace_occurrence by exact H.
  rewrite !replace_pass2 by (exact H || reflexivity).
  reflexivity.
Qed.

Lemma hook_braced_root before after :
  has_char dollar before = false ->
  startswith "/hooks/" after = false ->
  transform_hook (before ++ braced_root ++ after)
  = before ++ config_dir ++ transform_hook after.
Proof.
  intros H N. unfold transform_hook, braced_root, config_dir.
  rewrite (replace_keep _ _ _ before "{CLAUDE_PLUGIN_ROOT}");
    [ | exact H | reflexivity | ].
  2:{ change (startswith ("${CLAUDE_PLUGIN_ROOT}" ++ "/hooks/")
                ("${CLAUDE_PLUGIN_ROOT}" ++ after) = false).
      now rewrite startswith_common. }
  rewrite (replace_keep _ _ _ before "{CLAUDE_PLUGIN_ROOT}")
    by (exact H || reflexivity).
  rewrite replace_occurrence by exact H.
  rewrite !replace_pass2 by (exact H || reflexivity).
  reflexivity.
Qed.

(** The first substitution keeps a text that does not begin with
    [/hooks/] from beginning with it. *)
Lemma no_hooks_head_kept after :
  startswith "/hooks/" after = false ->
  startswith "/hooks/"
    (replace "${CLAUDE_PLUGIN_ROOT}/hooks/" "bash ~/.config/opencode/hook/" after)
  = false.
Proof.
  intro N. destruct after as [|c after]; [reflexivity|].
  destruct (startswith "${CLAUDE_PLUGIN_ROOT}/hooks/" (String c after)) eqn:M.
  - apply startswith_split in M. rewrite M. unfold replace.
    rewrite replace_scan_match. reflexivity.
  - unfold replace. rewrite replace_scan_step by exact M.
    destruct (Ascii.eqb "/" c) eqn:E.
    + apply Ascii.eqb_eq in E. subst c.
      destruct (startswith "/hooks/" (String "/" (replace_scan _ _ 0 after)))
        eqn:K; [|reflexivity].
      exfalso.
      assert (K' : startswith "hooks/"
                     (replace_scan "${CLAUDE_PLUGIN_ROOT}/hooks/"
                        "bash ~/.config/opencode/hook/" 0 after) = true)
        by exact K.
      apply (startswith_replace_scan dollar "{CLAUDE_PLUGIN_ROOT}/hooks/"
               "bash ~/.config/opencode/hook/" "b"%char
               "ash ~/.config/opencode/hook/" eq_refl) in K'.
      * change (startswith "/hooks/" (String "/" after))
          with (startswith "hooks/" after) in N. congruence.
      * reflexivity.
    + cbn [startswith]. now rewrite E.
Qed.

Lemma hook_bare_root before after :
  has_char dollar before = false ->
  startswith "/hooks/" after = false ->
  transform_hook (before ++ bare_root ++ after)
  = before ++ config_dir ++ transform_hook after.
Proof.
  intros H N. unfold transform_hook, bare_root, config_dir.
  rewrite (replace_keep _ _ _ before "CLAUDE_PLUGIN_ROOT")
    by (exact H || reflexivity).
  rewrite (replace_keep _ _ _ before "CLAUDE_PLUGIN_ROOT");
    [ | exact H | reflexivity | ].
  2:{ match goal with
      | |- startswith _ (String _ (_ ++ ?t)) = false =>
          change (startswith ("$CLAUDE_PLUGIN_ROOT" ++ "/hooks/")
                    ("$CLAUDE_PLUGIN_ROOT" ++ t) = false)
      end.
      rewrite startswith_common. now apply no_hooks_head_kept. }
  rewrite (replace_keep _ _ _ before "CLAUDE_PLUGIN_ROOT")
    by (exact H || reflexivity).
  rewrite replace_occurrence by exact H.
  reflexivity.
Qed.

(** No placeholder root is left. *)
Lemma hook_no_bare_root s : contains bare_root (transform_hook s) = false.
Proof.
  unfold transform_hook.
  match goal with
  | |- contains _ (replace _ _ ?t) = false =>
      apply (replace_scan_clean dollar "CLAUDE_PLUGIN_ROOT" config_dir
               "~"%char "/.config/opencode" eq_refl eq_refl eq_refl
               (String.length t) t (le_n _))
  end.
Qed.

Lemma hook_no_braced_root s : contains braced_root (transform_hook s) = false.
Proof.
  unfold transform_hook.
  match goal with
  | |- contains _ (replace ?o ?n ?t) = false =>
      destruct (contains braced_root (replace o n t)) eqn:K; [|reflexivity];
      exfalso;
      apply (contains_replace_scan dollar "CLAUDE_PLUGIN_ROOT" config_dir
               "~"%char "/.config/opencode" eq_refl
               dollar "{CLAUDE_PLUGIN_ROOT}" eq_refl eq_refl
               (String.length t) t (le_n _)) in K
  end.
  match type of K with
  | contains _ (replace _ _ ?t) = true =>
      apply (eq_true_false_abs _ K);
      exact (replace_scan_clean dollar "{CLAUDE_PLUGIN_ROOT}" config_dir
               "~"%char "/.config/opencode" eq_refl eq_refl eq_refl
               (String.length t) t (le_n _))
  end.
Qed.

End HookFacts.

(** C4: the hook rewrite.  The four substitutions run in the order of the
    source: the placeholder root joined with [/hooks/], braced then
    unbraced, becomes the prefix [bash ~/.config/opencode/hook/]; then the
    placeholder root alone, braced then unbraced, becomes
    [~/.config/opencode].  Whatever the input, no placeholder root, braced
    or unbraced, and so no placeholder with the hooks subdirectory, is left
    in the output.  A placeholder behind a text without [$] is rewritten in
    place, and the rest of the content is rewritten behind it. *)
Theorem C4_hook_rewrite (hook_content : string) :
  transform_hook hook_content
  = PyStr.replace bare_root config_dir
      (PyStr.replace braced_root config_dir
         (PyStr.replace bare_hooks hook_prefix
            (PyStr.replace braced_hooks hook_prefix hook_content)))
  /\ PyStr.contains braced_root (transform_hook hook_content) = false
  /\ PyStr.contains bare_root (transform_hook hook_content) = false
  /\ PyStr.contains braced_hooks (transform_hook hook_content) = false
  /\ PyStr.contains bare_hooks (transform_hook hook_content) = false
  /\ (forall before after,
        has_char "$" before = false ->
        transform_hook (before ++ braced_hooks ++ after)
        = before ++ hook_prefix ++ transform_hook after)
  /\ (forall before after,
        has_char "$" before = false ->
        transform_hook (before ++ bare_hooks ++ after)
        = before ++ hook_prefix ++ transform_hook after)
  /\ (forall before after,
        has_char "$" before = false ->
        PyStr.startswith "/hooks/" after = false ->
        transform_hook (before ++ braced_root ++ after)
        = before ++ config_dir ++ transform_hook after)
  /\ (forall before after,
        has_char "$" before = false ->
        PyStr.startswith "/hooks/" after = false ->
        transform_hook (before ++ bare_root ++ after)
        = before ++ config_dir ++ transform_hook after).
Proof.
  split; [reflexivity|].
  split; [apply HookFacts.hook_no_braced_root|].
  split; [apply HookFacts.hook_no_bare_root|].
  split.
  { destruct (PyStr.contains braced_hooks _) eqn:K; [|reflexivity].
    rewrite <- (HookFacts.hook_no_braced_root hook_content). symmetry.
    apply PyStrFacts.contains_trans with braced_hooks; [reflexivity | exact K]. }
  split.
  { destruct (PyStr.contains bare_hooks _) eqn:K; [|reflexivity].
    rewrite <- (HookFacts.hook_no_bare_root hook_content). symmetry.
    apply PyStrFacts.contains_trans with bare_hooks; [reflexivity | exact K]. }
  split; [exact HookFacts.hook_braced_hooks|].
  split; [exact HookFacts.hook_bare_hooks|].
  split; [exact HookFacts.hook_braced_root | exact HookFacts.hook_bare_root].
Qed.

(** ** The body rewrite *)

Module ToolRefFacts.
Import PyStr PyStrFacts ToolRef.

Lemma space_not_word c : is_space c = true -> is_word c = false.
Proof.
  destruct c as [[] [] [] [] [] [] [] []]; vm_compute;
    intro H; (reflexivity || discriminate H).
Qed.

Lemma is_word_lower c : is_word (lower_char c) = is_word c.
Proof. destruct c as [[] [] [] [] [] [] [] []]; vm_compute; reflexivity. Qed.

Lemma ci_same_class a b :
  Ascii.eqb (lower_char a) (lower_char b) = true -> is_word b = is_word a.
Proof.
  intro E. apply Ascii.eqb_eq in E.
  now rewrite <- (is_word_lower a), <- (is_word_lower b), E.
Qed.

Lemma startswith_ci_lower p s :
  startswith_ci p s = startswith (lower p) (lower s).
Proof.
  revert s. induction p as [|a p IH]; intro s; [reflexivity|].
  destruct s as [|b s]; [reflexivity|]. simpl. now rewrite IH.
Qed.

Lemma length_lower s : String.length (lower s) = String.length s.
Proof. induction s as [|c s IH]; simpl; [reflexivity | now rewrite IH]. Qed.

Lemma lower_app a b : lower (a ++ b) = lower a ++ lower b.
Proof. induction a as [|c a IH]; simpl; [reflexivity | now rewrite IH]. Qed.

Lemma all_word_lower s : all_word (lower s) = all_word s.
Proof.
  induction s as [|c s IH]; simpl; [reflexivity|].
  now rewrite IH, is_word_lower.
Qed.

Lemma ends_nonword_tail c r : ends_nonword (String c r) = true -> ends_nonword r = true.
Proof. destruct r; [reflexivity | intro H; exact H]. Qed.

(** A text of word characters, compared with a text that ends before a
    word, can only match inside it. *)
Lemma startswith_ci_inside p : forall r tail,
  all_word p = true -> r <> "" -> ends_nonword r = true ->
  startswith_ci p (r ++ tail) = startswith_ci p r.
Proof.
  induction p as [|a p IH]; intros r tail W N E; [reflexivity|].
  destruct r as [|c r]; [congruence|].
  simpl in W. apply andb_prop in W. destruct W as [Wa W].
  cbn [append startswith_ci].
  destruct (Ascii.eqb (lower_char a) (lower_char c)) eqn:C; [|reflexivity].
  simpl. apply IH; [exact W | | now apply ends_nonword_tail in E].
  intros ->. apply ci_same_class in C. simpl in E.
  rewrite C, Wa in E. discriminate E.
Qed.

(** The same when the text behind begins with no word character. *)
Lemma startswith_ci_before_gap p : forall r post,
  all_word p = true -> head_is_word post = false ->
  startswith_ci p (r ++ post) = startswith_ci p r.
Proof.
  induction p as [|a p IH]; intros r post W G; [reflexivity|].
  simpl in W. apply andb_prop in W. destruct W as [Wa W].
  destruct r as [|c r].
  - destruct post as [|c post]; [reflexivity|]. simpl in *.
    destruct (Ascii.eqb (lower_char a) (lower_char c)) eqn:C; [|reflexivity].
    apply ci_same_class in C. congruence.
  - cbn [append startswith_ci]. now rewrite IH.
Qed.

Lemma startswith_ci_length p s :
  startswith_ci p s = true -> String.length p <= String.length s.
Proof.
  revert s. induction p as [|a p IH]; intros s H; simpl; [lia|].
  destruct s as [|b s]; [discriminate H|]. simpl in *.
  apply andb_prop in H. destruct H as [_ H]. apply IH in H. lia.
Qed.

Section Inert.
(** The text behind: it begins with a word character and with no
    keyword. *)
Variable tail : string.
Hypothesis tail_word : head_is_word tail = true.
Hypothesis tail_tool : startswith_ci "tool" tail = false.
Hypothesis tail_command : startswith_ci "command" tail = false.

Lemma spaces_then_inside kw v :
  all_word kw = true -> kw <> "" -> startswith_ci kw tail = false ->
  ends_nonword v = true ->
  spaces_then kw (v ++ tail) = spaces_then kw v.
Proof.
  intros W N T. induction v as [|c r IH]; intro E.
  - simpl. destruct tail as [|t tl]; [reflexivity|]. simpl in *.
    destruct (is_space t) eqn:S; [|reflexivity].
    apply space_not_word in S. congruence.
  - cbn [append spaces_then]. rewrite IH by now apply ends_nonword_tail in E.
    destruct r as [|d r].
    + simpl append. rewrite T. now destruct kw.
    + rewrite startswith_ci_inside; [reflexivity | exact W | discriminate |].
      now apply ends_nonword_tail in E.
Qed.

Lemma lookahead_inside v :
  ends_nonword v = true -> lookahead (v ++ tail) = lookahead v.
Proof.
  intro E. unfold lookahead.
  rewrite !spaces_then_inside; try reflexivity; try discriminate; assumption.
Qed.

Lemma drop_app_inside n : forall u,
  n <= String.length u -> drop n (u ++ tail) = drop n u ++ tail.
Proof.
  induction n as [|n IH]; intros u L; [reflexivity|].
  destruct u as [|c u]; simpl in *; [lia|]. apply IH. lia.
Qed.

Lemma word_before_inside n : forall u prev,
  n <= String.length u ->
  word_before prev n (u ++ tail) = word_before prev n u.
Proof.
  induction n as [|n IH]; intros u prev L.
  - now destruct u.
  - destruct u as [|c u]; simpl in *; [lia|]. apply IH. lia.
Qed.

Lemma ends_nonword_drop n : forall u,
  ends_nonword u = true -> ends_nonword (drop n u) = true.
Proof.
  induction n as [|n IH]; intros u E; [exact E|].
  destruct u as [|c u]; [reflexivity|].
  simpl drop. apply IH. now apply ends_nonword_tail in E.
Qed.

Lemma startswith_ci_all_word p : forall s,
  all_word p = true -> startswith_ci p s = true ->
  all_word (lower p) = true /\
  (String.length s <= String.length p -> all_word s = true).
Proof.
  induction p as [|a p IH]; intros s W H.
  - split; [reflexivity|]. destruct s; simpl; [reflexivity | lia].
  - destruct s as [|b s]; [discriminate H|].
    simpl in *. apply andb_prop in W. destruct W as [Wa W].
    apply andb_prop in H. destruct H as [C H].
    destruct (IH s W H) as [I1 I2]. split.
    + now rewrite is_word_lower, Wa.
    + intro L. apply ci_same_class in C. rewrite C, Wa. simpl.
      apply I2. lia.
Qed.

Lemma all_word_ends s : s <> "" -> all_word s = true -> ends_nonword s = false.
Proof.
  induction s as [|c s IH]; intros N W; [congruence|].
  simpl in W. apply andb_prop in W. destruct W as [Wc W].
  destruct s as [|d s]; simpl.
  - now rewrite Wc.
  - apply IH; [discriminate | exact W].
Qed.

(** Inside a text that ends before a word the pattern matches as it
    does when the text stands alone. *)
Lemma matches_at_inside name prev u :
  all_word name = true -> u <> "" -> ends_nonword u = true ->
  matches_at name prev (u ++ tail) = matches_at name prev u.
Proof.
  intros W N E. unfold matches_at.
  rewrite (startswith_ci_inside name u tail W N E).
  assert (B : word_boundary prev (u ++ tail) = word_boundary prev u)
    by (destruct u; [congruence | reflexivity]).
  rewrite B.
  destruct (startswith_ci name u) eqn:M;
    [|now rewrite !andb_false_r].
  assert (L : String.length name <= String.length u)
    by now apply startswith_ci_length.
  rewrite drop_app_inside, word_before_inside by exact L.
  assert (D : drop (String.length name) u <> "").
  { intro D0.
    destruct (startswith_ci_all_word name u W M) as [_ A].
    assert (String.length u <= String.length name).
    { pose proof (startswith_split (lower name) (lower u)) as Sp.
      rewrite <- startswith_ci_lower in Sp. specialize (Sp M).
      assert (K : forall n s, drop n s = "" -> String.length s <= n).
      { clear. induction n as [|n IH]; intros s H.
        - simpl in H. subst. simpl. lia.
        - destruct s; simpl in *; [lia|]. apply IH in H. lia. }
      now apply K. }
    rewrite (all_word_ends u N (A H)) in E. discriminate E. }
  assert (E' : ends_nonword (drop (String.length name) u) = true)
    by now apply ends_nonword_drop.
  rewrite lookahead_inside by exact E'.
  destruct (drop (String.length name) u) as [|d r] eqn:Du; [congruence|].
  reflexivity.
Qed.

End Inert.

Lemma sub_scan_skip name repl a : forall b prev,
  sub_scan name repl prev (String.length a) (a ++ b)
  = sub_scan name repl (word_before prev (String.length a) a) 0 b.
Proof.
  induction a as [|c a IH]; intros b prev; simpl.
  - now destruct b.
  - apply IH.
Qed.

Lemma word_before_all_word a : forall prev,
  a <> "" -> all_word a = true -> word_before prev (String.length a) a = true.
Proof.
  induction a as [|c a IH]; intros prev N W; [congruence|].
  simpl in W. apply andb_prop in W. destruct W as [Wc W]. simpl.
  destruct a as [|d a]; [exact Wc|].
  apply IH; [discriminate | exact W].
Qed.

Lemma word_before_run a : forall post prev,
  a <> "" -> all_word a = true ->
  word_before prev (String.length a) (a ++ post) = true.
Proof.
  induction a as [|c a IH]; intros post prev N W; [congruence|].
  simpl in W. apply andb_prop in W. destruct W as [Wc W].
  cbn [String.length append word_before].
  destruct a as [|d a]; [simpl; now destruct post|].
  apply IH; [discriminate | exact W].
Qed.

(** Where no keyword follows whitespace the pattern matches nowhere. *)
Lemma mentions_keyword_drop n : forall s,
  mentions_keyword s = false -> lookahead (drop n s) = false.
Proof.
  induction n as [|n IH]; intros s H.
  - destruct s as [|c s]; [reflexivity|].
    cbn [mentions_keyword] in H. simpl drop. now apply orb_false_elim in H.
  - destruct s as [|c s]; [reflexivity|].
    simpl drop. apply IH. cbn [mentions_keyword] in H.
    now apply orb_false_elim in H.
Qed.

Lemma sub_scan_quiet name repl s : forall prev,
  mentions_keyword s = false -> sub_scan name repl prev 0 s = s.
Proof.
  induction s as [|c s IH]; intros prev H; [reflexivity|].
  cbn [sub_scan]. unfold matches_at.
  rewrite (mentions_keyword_drop _ _ H), andb_false_r.
  f_equal. apply IH. cbn [mentions_keyword] in H.
  now apply orb_false_elim in H.
Qed.

Lemma normalize_quiet s :
  mentions_keyword s = false -> _normalize_tool_references s = s.
Proof.
  intro H. unfold _normalize_tool_references.
  induction _OPENCODE_TOOL_NAME_MAP as [|[name repl] table IH]; [reflexivity|].
  simpl. unfold sub. now rewrite sub_scan_quiet.
Qed.

(** The conjuncts of a boolean conjunction that holds, as hypotheses. *)
Ltac unpack_conjunction H :=
  unfold plain_name in H;
  repeat (apply andb_prop in H; destruct H as [H ?]).

Section Scan.
Variables name repl : string.
Hypothesis name_plain : plain_name name = true.

Lemma name_all_word : all_word name = true.
Proof.
  unpack_conjunction name_plain.
  assumption.
Qed.

Lemma name_head : head_is_word name = true.
Proof.
  unpack_conjunction name_plain.
  assumption.
Qed.

Lemma name_no_keyword :
  startswith_ci "tool" name = false /\ startswith_ci "command" name = false.
Proof.
  unpack_conjunction name_plain.
  split; now apply negb_true_iff.
Qed.

(** Behind a word character, a run of word characters is copied. *)
Lemma sub_scan_word_run a : forall b,
  all_word a = true ->
  sub_scan name repl true 0 (a ++ b) = a ++ sub_scan name repl true 0 b.
Proof.
  induction a as [|c a IH]; intros b W; [reflexivity|].
  simpl in W. apply andb_prop in W. destruct W as [Wc W].
  cbn [append sub_scan]. unfold matches_at, word_boundary.
  change (head_is_word (String c (a ++ b))) with (is_word c).
  rewrite Wc. cbn [xorb andb]. f_equal. now apply IH.
Qed.

(** At a character that is no word character the class of the
    character before does not matter. *)
Lemma sub_scan_gap post :
  head_is_word post = false ->
  sub_scan name repl true 0 post = sub_scan name repl false 0 post.
Proof.
  intro G. destruct post as [|c r]; [reflexivity|].
  cbn [sub_scan].
  assert (M : startswith_ci name (String c r) = false).
  { pose proof name_head as Hh. destruct name as [|n0 nm]; [discriminate Hh|].
    simpl in *. destruct (Ascii.eqb (lower_char n0) (lower_char c)) eqn:C;
      [|reflexivity].
    apply ci_same_class in C. congruence. }
  unfold matches_at. rewrite M, !andb_false_r. reflexivity.
Qed.

Section Tail.
Variable tail : string.
Hypothesis tail_word : head_is_word tail = true.
Hypothesis tail_tool : startswith_ci "tool" tail = false.
Hypothesis tail_command : startswith_ci "command" tail = false.

(** The scan of a text that ends before a word does not depend on
    what stands behind it. *)
Lemma sub_scan_inside u : forall prev skip,
  ends_nonword u = true -> skip <= String.length u ->
  sub_scan name repl prev skip (u ++ tail)
  = sub_scan name repl prev skip u
    ++ sub_scan name repl (match u with "" => prev | _ => false end) 0 tail.
Proof.
  induction u as [|c u IH]; intros prev skip E L.
  - simpl in L. replace skip with 0 by lia. reflexivity.
  - assert (T : (match u with "" => is_word c | _ => false end) = false).
    { destruct u; [|reflexivity]. simpl in E.
      now apply negb_true_iff in E. }
    assert (E' : ends_nonword u = true) by now apply ends_nonword_tail in E.
    destruct skip as [|k].
    + cbn [append sub_scan].
      change (String c (u ++ tail)) with (String c u ++ tail).
      rewrite (matches_at_inside tail tail_word tail_tool tail_command
                 name prev (String c u) name_all_word) by (discriminate || exact E).
      destruct (matches_at name prev (String c u)) eqn:M.
      * rewrite IH, T; [apply eq_sym, append_assoc | exact E' |].
        unfold matches_at in M.
        repeat (apply andb_prop in M; destruct M as [M ?]).
        match goal with
        | H : startswith_ci name _ = true |- _ =>
            apply startswith_ci_length in H; simpl in H; lia
        end.
      * simpl. rewrite IH, T; [reflexivity | exact E' | lia].
    + cbn [append sub_scan]. rewrite IH, T;
        [reflexivity | exact E' | simpl in L; lia].
Qed.

End Tail.

Section Occurrence.
Variables occ post : string.
Hypothesis occ_name : lower occ = lower name.
Hypothesis post_gap : head_is_word post = false.

Lemma occ_length : String.length occ = String.length name.
Proof. now rewrite <- (length_lower occ), occ_name, length_lower. Qed.

Lemma occ_all_word : all_word occ = true.
Proof.
  rewrite <- all_word_lower, occ_name, all_word_lower.
  apply name_all_word.
Qed.

Lemma occ_not_empty : occ <> "".
Proof.
  intro E. pose proof occ_length as L. pose proof name_head as H.
  rewrite E in L. destruct name; [discriminate H | discriminate L].
Qed.

Lemma occ_tail_word : head_is_word (occ ++ post) = true.
Proof.
  pose proof occ_all_word as W. pose proof occ_not_empty as N.
  destruct occ as [|c o]; [congruence|]. simpl in *.
  now apply andb_prop in W.
Qed.

Lemma occ_tail_keyword kw :
  all_word kw = true -> startswith_ci kw name = false ->
  startswith_ci kw (occ ++ post) = false.
Proof.
  intros W K.
  rewrite startswith_ci_before_gap by assumption.
  now rewrite startswith_ci_lower, occ_name, <- startswith_ci_lower.
Qed.

Lemma matches_at_occurrence :
  matches_at name false (occ ++ post) = lookahead post.
Proof.
  unfold matches_at.
  assert (B : word_boundary false (occ ++ post) = true)
    by apply occ_tail_word.
  assert (S : startswith_ci name (occ ++ post) = true).
  { rewrite startswith_ci_lower, lower_app, <- occ_name.
    apply startswith_app. }
  rewrite B, S, <- occ_length, drop_app_length. simpl.
  assert (Wb : word_before false (String.length occ) (occ ++ post) = true)
    by (apply word_before_run; [apply occ_not_empty | apply occ_all_word]).
  rewrite Wb. unfold word_boundary. rewrite post_gap. reflexivity.
Qed.

(** A whole-word occurrence is rewritten exactly when the lookahead
    holds behind it; the texts before and behind are rewritten on
    their own. *)
Lemma sub_occurrence pre :
  ends_nonword pre = true ->
  sub name repl (pre ++ occ ++ post)
  = sub name repl pre
    ++ (if lookahead post then repl else occ)
    ++ sub name repl post.
Proof.
  intro E. unfold sub.
  destruct name_no_keyword as [Kt Kc].
  rewrite (sub_scan_inside (occ ++ post) occ_tail_word
             (occ_tail_keyword "tool" eq_refl Kt)
             (occ_tail_keyword "command" eq_refl Kc) pre false 0 E)
    by lia.
  f_equal.
  replace (match pre with "" => false | _ => false end) with false
    by now destruct pre.
  pose proof matches_at_occurrence as M.
  pose proof occ_all_word as W. pose proof occ_not_empty as N.
  pose proof occ_length as L.
  destruct occ as [|c o] eqn:Eo; [congruence|].
  cbn [append sub_scan].
  change (String c (o ++ post)) with (String c o ++ post).
  rewrite M. simpl in W. apply andb_prop in W. destruct W as [Wc W].
  destruct (lookahead post).
  - f_equal. simpl in L.
    replace (String.length name - 1) with (String.length o) by lia.
    rewrite sub_scan_skip.
    replace (word_before (is_word c) (String.length o) o) with true.
    + now apply sub_scan_gap.
    + destruct o as [|d o']; [simpl; now rewrite Wc|].
      symmetry. apply word_before_all_word; [discriminate | exact W].
  - rewrite Wc, sub_scan_word_run by exact W.
    cbn [append]. do 2 f_equal. now apply sub_scan_gap.
Qed.

End Occurrence.
End Scan.

(** *** The lookahead, in words *)

Lemma startswith_ci_split kw : forall s,
  startswith_ci kw s = true <->
  exists k rest, s = k ++ rest /\ lower k = lower kw.
Proof.
  induction kw as [|a kw IH]; intro s.
  - split; [intros _; now exists "", s|reflexivity].
  - destruct s as [|b s].
    + split; [discriminate|]. intros [k [rest [E L]]].
      destruct k; [discriminate L | discriminate E].
    + simpl. rewrite andb_true_iff, IH, Ascii.eqb_eq. split.
      * intros [C [k [rest [-> L]]]]. exists (String b k), rest.
        simpl. now rewrite L, C.
      * intros [k [rest [E L]]]. destruct k as [|c k]; [discriminate L|].
        simpl in E, L. injection E as <- ->. injection L as L1 L2.
        split; [now symmetry | now exists k, rest].
Qed.

Lemma spaces_then_split kw : forall s,
  spaces_then kw s = true <->
  exists ws r, s = ws ++ r /\ ws <> "" /\ all_space ws = true
               /\ startswith_ci kw r = true.
Proof.
  induction s as [|c s IH].
  - split; [discriminate|]. intros [ws [r [E [N _]]]].
    destruct ws; [congruence | discriminate E].
  - cbn [spaces_then]. rewrite andb_true_iff, orb_true_iff, IH. split.
    + intros [Sp [K|[ws [r [-> [N [A K]]]]]]].
      * exists (String c ""), s. simpl. rewrite Sp. repeat split; auto.
        discriminate.
      * exists (String c ws), r. simpl. rewrite Sp, A.
        repeat split; auto. discriminate.
    + intros [ws [r [E [N [A K]]]]]. destruct ws as [|d ws]; [congruence|].
      simpl in E, A. injection E as <- ->.
      apply andb_prop in A. destruct A as [Sp A]. split; [exact Sp|].
      destruct ws as [|e ws]; [now left|].
      right. exists (String e ws), r. repeat split; auto. discriminate.
Qed.

Lemma lookahead_spec post :
  lookahead post = true <-> followed_by_keyword post.
Proof.
  unfold lookahead, followed_by_keyword.
  rewrite orb_true_iff, !spaces_then_split. split.
  - intros [[ws [r [-> [N [A K]]]]]|[ws [r [-> [N [A K]]]]]];
      apply startswith_ci_split in K; destruct K as [k [rest [-> L]]];
      exists ws, k, rest; repeat split; auto.
  - intros [ws [kw [rest [-> [N [A [L|L]]]]]]]; [left|right];
      exists ws, (kw ++ rest); repeat split; auto;
      apply startswith_ci_split; exists kw, rest; split; auto.
Qed.

(** *** Whole words *)

Lemma startswith_same_length p : forall s,
  startswith p s = true -> String.length p = String.length s -> p = s.
Proof.
  induction p as [|a p IH]; intros s H L.
  - destruct s; [reflexivity | discriminate L].
  - destruct s as [|b s]; [discriminate H|]. simpl in *.
    apply andb_prop in H. destruct H as [E H].
    apply Ascii.eqb_eq in E. subst b. f_equal. apply IH; [exact H | lia].
Qed.

Lemma all_word_app a b : all_word (a ++ b) = all_word a && all_word b.
Proof.
  induction a as [|c a IH]; simpl; [reflexivity|].
  now rewrite IH, andb_assoc.
Qed.

Lemma all_word_head s : s <> "" -> all_word s = true -> head_is_word s = true.
Proof.
  destruct s as [|c s]; [congruence|]. simpl. intros _ W.
  now apply andb_prop in W.
Qed.

Lemma head_is_word_app a b : a <> "" -> head_is_word (a ++ b) = head_is_word a.
Proof. destruct a; [congruence | reflexivity]. Qed.

Lemma all_space_head ws rest :
  ws <> "" -> all_space ws = true -> head_is_word (ws ++ rest) = false.
Proof.
  destruct ws as [|c ws]; [congruence|]. simpl. intros _ A.
  apply andb_prop in A. destruct A as [Sp _]. now apply space_not_word.
Qed.

Lemma lookahead_keyword ws rest :
  ws <> "" -> all_space ws = true ->
  startswith_ci "tool" rest = true \/ startswith_ci "command" rest = true ->
  lookahead (ws ++ rest) = true.
Proof.
  intros N A K. unfold lookahead. apply orb_true_iff.
  destruct K as [K|K]; [left|right]; apply spaces_then_split;
    now exists ws, rest.
Qed.

Section Word.
Variables name repl : string.
Hypothesis name_plain : plain_name name = true.

Variables word post : string.
Hypothesis word_letters : all_word word = true.
Hypothesis word_not_empty : word <> "".
Hypothesis word_tool : startswith_ci "tool" word = false.
Hypothesis word_command : startswith_ci "command" word = false.
Hypothesis post_gap : head_is_word post = false.

(** A whole word that is not the name in any letter case is no match:
    the pattern would end inside the word or go beyond it. *)
Lemma matches_at_other :
  lower word <> lower name ->
  matches_at name false (word ++ post) = false.
Proof.
  intro Other. unfold matches_at.
  pose proof (name_all_word name name_plain) as Wn.
  destruct (startswith_ci name (word ++ post)) eqn:S;
    [|now rewrite !andb_false_r].
  rewrite startswith_ci_before_gap in S by assumption.
  apply startswith_ci_split in S. destruct S as [k [rest [E L]]].
  assert (Lk : String.length k = String.length name)
    by now rewrite <- (length_lower k), L, length_lower.
  assert (Wk : all_word k = true /\ all_word rest = true).
  { rewrite E, all_word_app in word_letters.
    now apply andb_prop in word_letters. }
  destruct Wk as [Wk Wr].
  assert (Nk : k <> "").
  { intros ->. pose proof (name_head name name_plain) as H.
    destruct name; [discriminate H | discriminate Lk]. }
  assert (Nr : rest <> "").
  { intros ->. apply Other. rewrite E, append_nil_r. exact L. }
  rewrite E, <- Lk, append_assoc, drop_app_length.
  rewrite word_before_run by assumption.
  unfold word_boundary.
  rewrite (head_is_word_app rest post Nr), (all_word_head rest Nr Wr).
  cbn [xorb]. now rewrite andb_false_r.
Qed.

(** The scan copies such a word and goes on behind it. *)
Lemma sub_scan_other :
  lower word <> lower name ->
  sub_scan name repl false 0 (word ++ post)
  = word ++ sub_scan name repl false 0 post.
Proof.
  intro Other. pose proof (matches_at_other Other) as M.
  pose proof word_letters as W.
  destruct word as [|c o] eqn:Ew; [congruence|].
  cbn [append sub_scan].
  change (String c (o ++ post)) with (String c o ++ post).
  rewrite M. simpl in W. apply andb_prop in W. destruct W as [Wc W].
  rewrite Wc, (sub_scan_word_run name repl) by exact W.
  f_equal. f_equal. now apply sub_scan_gap.
Qed.

(** A whole word in its text: rewritten exactly when it is the name in
    some letter case and the lookahead holds behind it; the texts before
    and behind are rewritten on their own. *)
Lemma sub_word pre :
  ends_nonword pre = true ->
  sub name repl (pre ++ word ++ post)
  = sub name repl pre
    ++ (if String.eqb (lower word) (lower name) && lookahead post
        then repl else word)
    ++ sub name repl post.
Proof.
  intro E.
  destruct (String.eqb_spec (lower word) (lower name)) as [Same|Other].
  - cbn [andb]. now apply sub_occurrence.
  - cbn [andb]. unfold sub.
    assert (Hw : head_is_word (word ++ post) = true)
      by (rewrite head_is_word_app, all_word_head; auto).
    assert (Kt : startswith_ci "tool" (word ++ post) = false)
      by (rewrite startswith_ci_before_gap; auto).
    assert (Kc : startswith_ci "command" (word ++ post) = false)
      by (rewrite startswith_ci_before_gap; auto).
    rewrite (sub_scan_inside name repl name_plain (word ++ post) Hw Kt Kc
               pre false 0 E) by lia.
    f_equal.
    replace (match pre with "" => false | _ => false end) with false
      by now destruct pre.
    now apply sub_scan_other.
Qed.

End Word.

Section Pass.
Variables name repl : string.
Hypothesis name_plain : plain_name name = true.

(** Whitespace and then a text in which no keyword follows whitespace:
    the pass changes nothing in it. *)
Lemma sub_scan_behind ws rest : forall prev,
  all_space ws = true -> mentions_keyword rest = false ->
  sub_scan name repl prev 0 (ws ++ rest) = ws ++ rest.
Proof.
  induction ws as [|c ws IH]; intros prev A Q.
  - now apply sub_scan_quiet.
  - simpl in A. apply andb_prop in A. destruct A as [Sp A].
    cbn [append sub_scan].
    assert (M : startswith_ci name (String c (ws ++ rest)) = false).
    { pose proof (name_head name name_plain) as Hh.
      destruct name as [|n0 nm]; [discriminate Hh|].
      simpl in *.
      destruct (Ascii.eqb (lower_char n0) (lower_char c)) eqn:C;
        [|reflexivity].
      apply ci_same_class in C. apply space_not_word in Sp. congruence. }
    unfold matches_at. rewrite M, andb_false_r. cbn [andb].
    f_equal. now apply IH.
Qed.

(** The pass on a text with one keyword, behind a whole word. *)
Lemma sub_one_keyword pre word ws rest :
  mentions_keyword pre = false -> ends_nonword pre = true ->
  all_word word = true -> word <> "" ->
  startswith_ci "tool" word = false -> startswith_ci "command" word = false ->
  all_space ws = true -> ws <> "" ->
  startswith_ci "tool" rest = true \/ startswith_ci "command" rest = true ->
  mentions_keyword rest = false ->
  sub name repl (pre ++ word ++ ws ++ rest)
  = pre ++ token_step word (name, repl) ++ ws ++ rest.
Proof.
  intros Qpre Epre W N Kt Kc A Nws K Qrest.
  rewrite (sub_word name repl name_plain word (ws ++ rest) W N Kt Kc
             (all_space_head ws rest Nws A) pre Epre).
  rewrite (lookahead_keyword ws rest Nws A K), andb_true_r.
  unfold sub. rewrite (sub_scan_quiet name repl pre false Qpre).
  now rewrite (sub_scan_behind ws rest false A Qrest).
Qed.

End Pass.

(** The passes of a table on a text with one keyword, behind a whole
    word: the word goes through the passes, nothing else changes. *)
Lemma fold_one_keyword pre ws rest table : forall word,
  forallb (fun entry => plain_name (fst entry) && plain_name (snd entry))
          table = true ->
  mentions_keyword pre = false -> ends_nonword pre = true ->
  plain_name word = true ->
  all_space ws = true -> ws <> "" ->
  startswith_ci "tool" rest = true \/ startswith_ci "command" rest = true ->
  mentions_keyword rest = false ->
  fold_left (fun result entry => sub (fst entry) (snd entry) result)
            table (pre ++ word ++ ws ++ rest)
  = pre ++ token_fold table word ++ ws ++ rest.
Proof.
  induction table as [|[name repl] table IH];
    intros word T Qpre Epre P A Nws K Qrest; [reflexivity|].
  cbn [forallb fst snd] in T. apply andb_prop in T. destruct T as [Te T].
  apply andb_prop in Te. destruct Te as [Pn Pr].
  cbn [fold_left fst snd]. unfold token_fold. cbn [fold_left].
  pose proof P as P0. unpack_conjunction P0.
  rewrite (sub_one_keyword name repl Pn pre word ws rest); try assumption;
    try (now apply negb_true_iff).
  2:{ intros ->. discriminate. }
  apply IH; try assumption.
  unfold token_step. cbn [fst snd].
  now destruct (String.eqb (lower word) (lower name)).
Qed.

Lemma token_fold_miss table : forall word,
  (forall entry, In entry table -> lower word <> lower (fst entry)) ->
  token_fold table word = word.
Proof.
  unfold token_fold.
  induction table as [|entry table IH]; intros word H; [reflexivity|].
  cbn [fold_left]. unfold token_step at 2.
  destruct (String.eqb_spec (lower word) (lower (fst entry))) as [E|_].
  - exfalso. apply (H entry); [now left | exact E].
  - apply IH. intros e He. apply H. now right.
Qed.

Lemma token_fold_hit before name repl after word :
  lower word = lower name ->
  (forall entry, In entry before -> lower word <> lower (fst entry)) ->
  (forall entry, In entry after -> lower repl <> lower (fst entry)) ->
  token_fold (before ++ (name, repl) :: after)%list word = repl.
Proof.
  intros E Hb Ha. unfold token_fold. rewrite fold_left_app.
  fold (token_fold before word). rewrite (token_fold_miss before word Hb).
  cbn [fold_left]. unfold token_step at 2. cbn [fst snd].
  rewrite E, String.eqb_refl.
  now apply (token_fold_miss after repl).
Qed.

End ToolRefFacts.

Module BodyClaims.
Import PyStr PyStrFacts ToolRef ToolRefFacts.

Lemma table_names_plain name repl :
  In (name, repl) _OPENCODE_TOOL_NAME_MAP -> plain_name name = true.
Proof.
  intro H.
  assert (A : forallb (fun e => plain_name (fst e)) _OPENCODE_TOOL_NAME_MAP = true)
    by (vm_compute; reflexivity).
  rewrite forallb_forall in A. exact (A (name, repl) H).
Qed.

Lemma toolbox_not_exact : ~ followed_by_exact_word " toolbox".
Proof.
  intros [ws [kw [rest [E [N [A [K G]]]]]]].
  destruct ws as [|c ws]; [congruence|].
  simpl in E. injection E as <- E. simpl in A.
  destruct ws as [|d ws].
  - simpl in E. destruct K as [-> | ->].
    + injection E as <-. discriminate G.
    + discriminate E.
  - simpl in E. injection E as <- E. simpl in A. discriminate A.
Qed.

Lemma upper_tool_not_exact : ~ followed_by_exact_word " TOOL".
Proof.
  intros [ws [kw [rest [E [N [A [K G]]]]]]].
  destruct ws as [|c ws]; [congruence|].
  simpl in E. injection E as <- E. simpl in A.
  destruct ws as [|d ws].
  - simpl in E. destruct K as [-> | ->]; discriminate E.
  - simpl in E. injection E as <- E. simpl in A. discriminate A.
Qed.

Lemma table_all_plain :
  forallb (fun entry => plain_name (fst entry) && plain_name (snd entry))
          _OPENCODE_TOOL_NAME_MAP = true.
Proof. vm_compute. reflexivity. Qed.

(** Where an entry stands in the table: no entry before it has its name
    in another letter case, and no entry behind it has its platform name
    as a name. *)
Ltac entry_at i :=
  exists (firstn i _OPENCODE_TOOL_NAME_MAP),
         (skipn (S i) _OPENCODE_TOOL_NAME_MAP);
  split; [reflexivity | split; vm_compute; reflexivity].

Ltac find_entry H i :=
  first [ destruct H as [H|H];
          [ injection H as <- <-; entry_at i
          | find_entry H constr:(S i) ]
        | contradiction H ].

Lemma table_entry_split name repl :
  In (name, repl) _OPENCODE_TOOL_NAME_MAP ->
  exists before after,
    _OPENCODE_TOOL_NAME_MAP = (before ++ (name, repl) :: after)%list
    /\ forallb (fun entry => negb (String.eqb (lower name) (lower (fst entry))))
               before = true
    /\ forallb (fun entry => negb (String.eqb (lower repl) (lower (fst entry))))
               after = true.
Proof.
  intro H. unfold _OPENCODE_TOOL_NAME_MAP in H. find_entry H 0.
Qed.

Lemma forallb_differs text (table : list (string * string)) :
  forallb (fun entry => negb (String.eqb text (lower (fst entry)))) table
  = true ->
  forall entry, In entry table -> text <> lower (fst entry).
Proof.
  intros F entry Hin E. rewrite forallb_forall in F.
  specialize (F entry Hin). rewrite E, String.eqb_refl in F. discriminate F.
Qed.

(** The passes of the table on a whole word that is a name of it. *)
Lemma token_fold_name name repl word :
  In (name, repl) _OPENCODE_TOOL_NAME_MAP ->
  lower word = lower name ->
  token_fold _OPENCODE_TOOL_NAME_MAP word = repl.
Proof.
  intros Hin E.
  destruct (table_entry_split name repl Hin) as [before [after [T [Fb Fa]]]].
  rewrite T. apply token_fold_hit; [exact E | |].
  - rewrite E. now apply forallb_differs.
  - now apply forallb_differs.
Qed.

(** Without a metadata block the three transforms return the body with
    the tool references normalised. *)
Lemma transform_without_block `{FrontmatterCodec} rewrite content :
  find_block content = None ->
  transform_with rewrite content = Ok (_normalize_tool_references content).
Proof.
  intro H0. unfold transform_with, extract_frontmatter. now rewrite H0.
Qed.

End BodyClaims.




(** C2, amended: for a document without a metadata block, each of
    [transform_skill], [transform_agent] and [transform_command] returns
    the body after the tool-reference rewrite, with no header before it;
    the body comes back unchanged when no keyword follows whitespace in
    it. *)
Theorem C2_without_metadata {codec : FrontmatterCodec} (content : string) :
  find_block content = None ->
  transform_skill content = Ok (_normalize_tool_references content)
  /\ transform_agent content = Ok (_normalize_tool_references content)
  /\ transform_command content = Ok (_normalize_tool_references content)
  /\ (mentions_keyword content = false ->
      transform_skill content = Ok content
      /\ transform_agent content = Ok content
      /\ transform_command content = Ok content).
Proof.
  intro H0. unfold transform_skill, transform_agent, transform_command.
  rewrite !BodyClaims.transform_without_block by exact H0.
  repeat split; intros; now rewrite ToolRefFacts.normalize_quiet.
Qed.

Lemma C2_without_metadata_witness :
  transform_skill "Read the notes first" = Ok "Read the notes first"
  /\ transform_agent "Use the Bash tool" = Ok "Use the bash tool".
Proof.
  split.
  - destruct (C2_without_metadata (codec := dashes_codec)
                "Read the notes first" eq_refl)
      as [_ [_ [_ Hquiet]]].
    destruct (Hquiet eq_refl) as [Hskill _]. exact Hskill.
  - destruct (C2_without_metadata (codec := dashes_codec)
                "Use the Bash tool" eq_refl)
      as [_ [Hagent _]].
    exact Hagent.
Defined.

(** C2 as worded fails: a body without a metadata block that names a
    tool before the word [tool] does not come back unchanged. *)
Lemma C2_counterexample :
  find_block "Use the Bash tool" = None
  /\ transform_skill "Use the Bash tool" = Ok "Use the bash tool"
  /\ transform_agent "Use the Bash tool" = Ok "Use the bash tool"
  /\ transform_command "Use the Bash tool" = Ok "Use the bash tool"
  /\ "Use the bash tool" <> "Use the Bash tool".
Proof. repeat split; try (vm_compute; reflexivity). discriminate. Qed.

(** ** Install-path resolution *)

Module PathFacts.

Lemma parts_prefix_iff other : forall p,
  parts_prefix other p = true <-> exists rest, p = (other ++ rest)%list.
Proof.
  induction other as [|a other IH]; intro p; simpl.
  - split; [intros _; now exists p | reflexivity].
  - destruct p as [|b p].
    + split; [discriminate | intros [rest E]; discriminate E].
    + rewrite andb_true_iff, String.eqb_eq, IH. split.
      * intros [-> [rest ->]]. now exists rest.
      * intros [rest E]. injection E as <- ->. split; [reflexivity|].
        now exists rest.
Qed.

Lemma relative_to_iff p other :
  other <> [] ->
  relative_to p other = true <-> exists rest, p = (other ++ rest)%list.
Proof.
  intro N. destruct other as [|a other]; [congruence|].
  apply (parts_prefix_iff (a :: other)).
Qed.

End PathFacts.

(** The path is computed once: a memoized path is returned as it is. *)
Lemma install_path_memoized os cfg path :
  get_install_path os {| config := cfg; _install_path := Some path |}
  = Ok (path, {| config := cfg; _install_path := Some path |}, []).
Proof. reflexivity. Qed.

(** C7, amended: install-path resolution on an adapter that has not
    memoized a path yet, with an override present, that is, the variable
    set to a value that is not empty.  The configured default is the
    [install_path] of the platform configuration, or [~/.config/opencode]
    when there is none, with its [~] expanded.  Where the paths can be
    resolved: an override whose resolved path does not have the parts of
    the resolved home directory as a prefix is ignored, a warning is
    logged and the configured default is returned and memoized; an
    override whose resolved path is the home directory itself or lies
    below it is returned and memoized.  The test compares whole path
    parts: [/home/userX] is not under [/home/user], although the text of
    the one begins with the text of the other. *)
Theorem C7_install_path (os : os_env) (self : adapter)
    (default override : string)
    (default_path expanded candidate user_home home : Path) :
  _install_path self = None ->
  (PyDict.get (PStr "install_path") (config self) = Some (PStr default)
   \/ (PyDict.get (PStr "install_path") (config self) = None
       /\ default = "~/.config/opencode")) ->
  environ os "OPENCODE_CONFIG_PATH" = Some override ->
  override <> "" ->
  expanduser os default = Ok default_path ->
  expanduser os override = Ok expanded ->
  resolve os expanded = Ok candidate ->
  home_dir os = Ok user_home ->
  resolve os user_home = Ok home ->
  let memo p := {| config := config self; _install_path := Some p |} in
  (relative_to candidate home = false ->
   get_install_path os self
   = Ok (default_path, memo default_path, [override_warning override]))
  /\ (relative_to candidate home = true ->
      get_install_path os self = Ok (candidate, memo candidate, []))
  /\ (home <> [] ->
      (relative_to candidate home = true
       <-> exists rest, candidate = (home ++ rest)%list))
  /\ relative_to ["/"; "home"; "userX"] ["/"; "home"; "user"] = false
  /\ PyStr.startswith "/home/user" "/home/userX" = true.
Proof.
  intros Hmemo Hconfig Henv Hne Hdefault Hexp Hcand Hhome Hres memo.
  assert (Hconf : configured_path self = Ok default).
  { unfold configured_path.
    destruct Hconfig as [-> | [-> ->]]; reflexivity. }
  assert (Run : get_install_path os self
                = if relative_to candidate home
                  then Ok (candidate, memo candidate, [])
                  else Ok (default_path, memo default_path,
                           [override_warning override])).
  { unfold get_install_path, checked_override.
    rewrite Hmemo, Hconf. cbn [bind]. rewrite Hdefault. cbn [bind].
    rewrite Henv. destruct override as [|c r]; [congruence|].
    rewrite Hexp. cbn [bind]. rewrite Hcand. cbn [bind].
    rewrite Hhome. cbn [bind]. rewrite Hres. cbn [bind].
    now destruct (relative_to candidate home). }
  repeat split.
  - intro R. now rewrite Run, R.
  - intro R. now rewrite Run, R.
  - now apply PathFacts.relative_to_iff.
  - now apply PathFacts.relative_to_iff.
Qed.

Lemma C7_install_path_witness :
  get_install_path (example_os (Some "/etc/opencode"))
    {| config := [(PStr "install_path", PStr "/opt/ring/opencode")];
       _install_path := None |}
  = Ok (["/"; "opt"; "ring"; "opencode"],
        {| config := [(PStr "install_path", PStr "/opt/ring/opencode")];
           _install_path := Some ["/"; "opt"; "ring"; "opencode"] |},
        [override_warning "/etc/opencode"])
  /\ get_install_path (example_os (Some "/home/userX/opencode")) fresh_adapter
     = Ok (["/"; "home"; "user"; ".config"; "opencode"],
           {| config := [];
              _install_path :=
                Some ["/"; "home"; "user"; ".config"; "opencode"] |},
           [override_warning "/home/userX/opencode"])
  /\ get_install_path (example_os (Some "~/work/opencode")) fresh_adapter
     = Ok (["/"; "home"; "user"; "work"; "opencode"],
           {| config := [];
              _install_path := Some ["/"; "home"; "user"; "work"; "opencode"] |},
           []).
Proof.
  assert (N1 : "/etc/opencode" <> "") by discriminate.
  assert (N2 : "/home/userX/opencode" <> "") by discriminate.
  assert (N3 : "~/work/opencode" <> "") by discriminate.
  split; [|split].
  - destruct (C7_install_path (example_os (Some "/etc/opencode"))
                {| config := [(PStr "install_path", PStr "/opt/ring/opencode")];
                   _install_path := None |}
                "/opt/ring/opencode" "/etc/opencode"
                ["/"; "opt"; "ring"; "opencode"] ["/"; "etc"; "opencode"]
                ["/"; "etc"; "opencode"] example_home example_home
                eq_refl (or_introl eq_refl) eq_refl N1
                eq_refl eq_refl eq_refl eq_refl eq_refl) as [Hout _].
    apply Hout. reflexivity.
  - destruct (C7_install_path (example_os (Some "/home/userX/opencode"))
                fresh_adapter
                "~/.config/opencode" "/home/userX/opencode"
                ["/"; "home"; "user"; ".config"; "opencode"]
                ["/"; "home"; "userX"; "opencode"]
                ["/"; "home"; "userX"; "opencode"] example_home example_home
                eq_refl (or_intror (conj eq_refl eq_refl)) eq_refl N2
                eq_refl eq_refl eq_refl eq_refl eq_refl)
      as [Hout _].
    apply Hout. reflexivity.
  - destruct (C7_install_path (example_os (Some "~/work/opencode"))
                fresh_adapter
                "~/.config/opencode" "~/work/opencode"
                ["/"; "home"; "user"; ".config"; "opencode"]
                ["/"; "home"; "user"; "work"; "opencode"]
                ["/"; "home"; "user"; "work"; "opencode"]
                example_home example_home
                eq_refl (or_intror (conj eq_refl eq_refl)) eq_refl N3
                eq_refl eq_refl eq_refl eq_refl eq_refl)
      as [_ [Hin _]].
    apply Hin. reflexivity.
Defined.

(** C7 as worded fails at the boundary itself: the home directory is no
    strict ancestor of itself, and an override that resolves to it is
    accepted, returned and memoized without a warning. *)
Lemma C7_counterexample :
  resolve (example_os (Some "/home/user")) ["/"; "home"; "user"]
  = Ok example_home
  /\ (forall rest, rest <> [] ->
        (example_home ++ rest)%list <> ["/"; "home"; "user"])
  /\ get_install_path (example_os (Some "/home/user")) fresh_adapter
     = Ok (["/"; "home"; "user"],
           {| config := []; _install_path := Some ["/"; "home"; "user"] |},
           []).
Proof.
  split; [reflexivity|]. split; [|reflexivity].
  intros rest N E. destruct rest; [congruence | discriminate E].
Qed.

(** ** The hook-configuration merge *)

Module MergeFacts.
Import PyDict PyDictFacts.

Lemma get_all_lists k hooks v :
  all_lists hooks = true -> get k hooks = Some v -> is_list v = true.
Proof.
  unfold all_lists. induction hooks as [|[k' w] r IH]; simpl; [discriminate|].
  intros A G. apply andb_prop in A. destruct A as [Aw A].
  destruct (key_eqb k' k); [now injection G as <- | now apply IH].
Qed.

Lemma all_lists_set k items hooks :
  all_lists hooks = true -> all_lists (set k (PList items) hooks) = true.
Proof.
  unfold all_lists. induction hooks as [|[k' w] r IH]; simpl; [reflexivity|].
  intro A. apply andb_prop in A. destruct A as [Aw A].
  destruct (key_eqb k' k); simpl; [exact A | now rewrite Aw, IH].
Qed.

Lemma merge_events_cons existing_config entry entries :
  merge_events existing_config (entry :: entries)
  = (next <- merge_event existing_config entry ;; merge_events next entries).
Proof.
  unfold merge_events. simpl.
  destruct (merge_event existing_config entry) as [next|e]; [reflexivity|].
  simpl. induction entries as [|x r IH]; [reflexivity | exact IH].
Qed.

(** One turn of the loop on a configuration of the expected shape. *)
Lemma merge_event_spec cfg hooks event items :
  get (PStr "hooks") cfg = Some (PDict hooks) ->
  all_lists hooks = true ->
  exists hooks',
    merge_event (PDict cfg) (PStr event, PList items)
    = Ok (PDict (set (PStr "hooks") (PDict hooks') cfg))
    /\ all_lists hooks' = true
    /\ get (PStr event) hooks'
       = Some (PList (match get (PStr event) hooks with
                      | Some (PList existing) => existing ++ items
                      | _ => items
                      end)%list)
    /\ (forall other, other <> event ->
          get (PStr other) hooks' = get (PStr other) hooks).
Proof.
  intros Hh A. unfold merge_event, py_getitem. rewrite Hh. cbn [bind].
  unfold mem. destruct (get (PStr event) hooks) as [v|] eqn:G.
  - pose proof (get_all_lists _ _ _ A G) as L.
    destruct v as [| | | |existing|]; try discriminate L.
    rewrite G. cbn [py_iter bind py_setitem].
    eexists. split; [reflexivity|]. split; [now apply all_lists_set|].
    split.
    + rewrite get_set_str. now rewrite String.eqb_refl.
    + intros other N. rewrite get_set_str.
      destruct (String.eqb event other) eqn:E; [|reflexivity].
      apply String.eqb_eq in E. congruence.
  - rewrite get_set_str, String.eqb_refl. cbn [py_iter bind py_setitem].
    eexists. split; [reflexivity|].
    split; [now apply all_lists_set, all_lists_set|]. split.
    + rewrite get_set_str. now rewrite String.eqb_refl.
    + intros other N. rewrite !get_set_str.
      destruct (String.eqb event other) eqn:E; [|reflexivity].
      apply String.eqb_eq in E. congruence.
Qed.

Lemma set_hooks_other cfg hooks k :
  k <> "hooks" ->
  get (PStr k) (set (PStr "hooks") hooks cfg) = get (PStr k) cfg.
Proof.
  intro N. rewrite get_set_str.
  destruct (String.eqb "hooks" k) eqn:E; [|reflexivity].
  apply String.eqb_eq in E. congruence.
Qed.

(** The loop on a configuration of the expected shape. *)
Lemma merge_events_spec entries : forall cfg hooks,
  get (PStr "hooks") cfg = Some (PDict hooks) ->
  all_lists hooks = true ->
  entries_ok entries = true ->
  exists cfg' hooks',
    merge_events (PDict cfg) entries = Ok (PDict cfg')
    /\ get (PStr "hooks") cfg' = Some (PDict hooks')
    /\ all_lists hooks' = true
    /\ (forall event,
          get (PStr event) hooks' = merged_list hooks entries event)
    /\ (forall k, k <> "hooks" -> get (PStr k) cfg' = get (PStr k) cfg).
Proof.
  induction entries as [|[k v] r IH]; intros cfg hooks Hh A Ok_entries.
  - exists cfg, hooks. repeat split; try assumption.
    intro event. unfold merged_list. simpl.
    destruct (get (PStr event) hooks) as [w|] eqn:G; [|reflexivity].
    pose proof (get_all_lists _ _ _ A G) as L.
    destruct w; try discriminate L. now rewrite app_nil_r.
  - unfold entries_ok in Ok_entries. simpl in Ok_entries.
    apply andb_prop in Ok_entries. destruct Ok_entries as [Hkv Hr].
    apply andb_prop in Hkv. destruct Hkv as [Hk Hv].
    destruct k as [| | |event| |]; try discriminate Hk.
    destruct v as [| | | |items|]; try discriminate Hv.
    destruct (merge_event_spec cfg hooks event items Hh A)
      as [hooks1 [Run [A1 [Gev Goth]]]].
    destruct (IH (set (PStr "hooks") (PDict hooks1) cfg) hooks1)
      as [cfg' [hooks' [Run' [Hh' [A' [Gall Gcfg]]]]]].
    + rewrite get_set_str. reflexivity.
    + exact A1.
    + exact Hr.
    + exists cfg', hooks'. rewrite merge_events_cons, Run. cbn [bind].
      repeat split; try assumption.
      * intro ev. rewrite Gall. unfold merged_list. simpl.
        destruct (String.eqb event ev) eqn:E.
        -- apply String.eqb_eq in E. subst ev. rewrite Gev. simpl.
           destruct (get (PStr event) hooks) as [w|] eqn:G.
           ++ pose proof (get_all_lists _ _ _ A G) as L.
              destruct w; try discriminate L. now rewrite app_assoc.
           ++ reflexivity.
        -- rewrite Goth by (intros ->; now rewrite String.eqb_refl in E).
           reflexivity.
      * intros k N. rewrite Gcfg by exact N. now apply set_hooks_other.
Qed.

Lemma incoming_for_unique event items before after :
  has_entry event before = false -> has_entry event after = false ->
  incoming_for event (before ++ (PStr event, PList items) :: after) = items.
Proof.
  assert (Z : forall l, has_entry event l = false -> incoming_for event l = []).
  { induction l as [|[k v] r IH]; [reflexivity|].
    unfold has_entry. simpl. intro H. apply orb_false_elim in H.
    destruct H as [Hk Hr]. destruct k; try (now apply IH).
    simpl in Hk. destruct v; try (now apply IH).
    rewrite Hk. now apply IH. }
  intros Hb Ha. induction before as [|[k v] r IH]; simpl.
  - rewrite String.eqb_refl, (Z after Ha). apply app_nil_r.
  - unfold has_entry in Hb. simpl in Hb. apply orb_false_elim in Hb.
    destruct Hb as [Hk Hr]. destruct k; try (now apply IH).
    simpl in Hk. destruct v; try (now apply IH).
    rewrite Hk. now apply IH.
Qed.

Lemma has_entry_middle event items before after :
  has_entry event (before ++ (PStr event, PList items) :: after) = true.
Proof.
  unfold has_entry. rewrite existsb_app. simpl.
  rewrite String.eqb_refl. simpl. apply orb_true_r.
Qed.

(** One turn of the loop on an event that has a list or is new. *)
Lemma merge_event_touched cfg hooks event items :
  get (PStr "hooks") cfg = Some (PDict hooks) ->
  match get (PStr event) hooks with
  | Some (PList _) | None => true
  | Some _ => false
  end = true ->
  exists hooks',
    merge_event (PDict cfg) (PStr event, PList items)
    = Ok (PDict (set (PStr "hooks") (PDict hooks') cfg))
    /\ get (PStr event) hooks'
       = Some (PList (match get (PStr event) hooks with
                      | Some (PList existing) => existing ++ items
                      | _ => items
                      end)%list)
    /\ (forall other, other <> event ->
          get (PStr other) hooks' = get (PStr other) hooks).
Proof.
  intros Hh T. unfold merge_event, py_getitem. rewrite Hh. cbn [bind].
  unfold mem. destruct (get (PStr event) hooks) as [v|] eqn:G.
  - destruct v as [| | | |existing|]; try discriminate T.
    rewrite G. cbn [py_iter bind py_setitem].
    eexists. split; [reflexivity|]. split.
    + rewrite get_set_str. now rewrite String.eqb_refl.
    + intros other N. rewrite get_set_str.
      destruct (String.eqb event other) eqn:E; [|reflexivity].
      apply String.eqb_eq in E. congruence.
  - rewrite get_set_str, String.eqb_refl. cbn [py_iter bind py_setitem].
    eexists. split; [reflexivity|]. split.
    + rewrite get_set_str. now rewrite String.eqb_refl.
    + intros other N. rewrite !get_set_str.
      destruct (String.eqb event other) eqn:E; [|reflexivity].
      apply String.eqb_eq in E. congruence.
Qed.

(** The events that the later entries name still have lists. *)
Lemma touched_lists_step hooks hooks' event existing entries :
  get (PStr event) hooks' = Some (PList existing) ->
  (forall other, other <> event ->
     get (PStr other) hooks' = get (PStr other) hooks) ->
  entries_ok entries = true ->
  touched_lists hooks entries = true ->
  touched_lists hooks' entries = true.
Proof.
  intros Gev Goth. unfold touched_lists, entries_ok.
  induction entries as [|[k v] r IH]; [reflexivity|].
  cbn [forallb fst snd]. intros Hok Ht.
  apply andb_prop in Hok. destruct Hok as [Hkv Hr].
  apply andb_prop in Ht. destruct Ht as [Hk Ht].
  rewrite (IH Hr Ht), andb_true_r.
  destruct k as [| | |name| |]; try discriminate Hkv.
  destruct (String.eqb name event) eqn:E.
  - apply String.eqb_eq in E. subst name. now rewrite Gev.
  - rewrite Goth; [exact Hk|]. intros ->. now rewrite String.eqb_refl in E.
Qed.

(** The loop on incoming entries that meet lists only.  The events that
    the entries do not name are not looked at. *)
Lemma merge_events_touched entries : forall cfg hooks,
  get (PStr "hooks") cfg = Some (PDict hooks) ->
  touched_lists hooks entries = true ->
  entries_ok entries = true ->
  exists cfg' hooks',
    merge_events (PDict cfg) entries = Ok (PDict cfg')
    /\ get (PStr "hooks") cfg' = Some (PDict hooks')
    /\ (forall event,
          get (PStr event) hooks' = merged_list hooks entries event)
    /\ (forall k, k <> "hooks" -> get (PStr k) cfg' = get (PStr k) cfg).
Proof.
  induction entries as [|[k v] r IH]; intros cfg hooks Hh T Ok_entries.
  - exists cfg, hooks. repeat split; try assumption.
    intro event. unfold merged_list. simpl.
    destruct (get (PStr event) hooks) as [w|] eqn:G; [|reflexivity].
    destruct w; try reflexivity. now rewrite app_nil_r.
  - pose proof Ok_entries as Hok. unfold entries_ok in Hok. simpl in Hok.
    apply andb_prop in Hok. destruct Hok as [Hkv Hr].
    apply andb_prop in Hkv. destruct Hkv as [Hk Hv].
    destruct k as [| | |event| |]; try discriminate Hk.
    destruct v as [| | | |items|]; try discriminate Hv.
    pose proof T as T0. unfold touched_lists in T0. cbn [forallb fst] in T0.
    apply andb_prop in T0. destruct T0 as [Tev Tr].
    destruct (merge_event_touched cfg hooks event items Hh Tev)
      as [hooks1 [Run [Gev Goth]]].
    destruct (IH (set (PStr "hooks") (PDict hooks1) cfg) hooks1)
      as [cfg' [hooks' [Run' [Hh' [Gall Gcfg]]]]].
    + rewrite get_set_str. reflexivity.
    + now apply (touched_lists_step hooks hooks1 event _ r Gev Goth Hr).
    + exact Hr.
    + exists cfg', hooks'. rewrite merge_events_cons, Run. cbn [bind].
      repeat split; try assumption.
      * intro ev. rewrite Gall. unfold merged_list. simpl.
        destruct (String.eqb event ev) eqn:E.
        -- apply String.eqb_eq in E. subst ev. rewrite Gev. simpl.
           destruct (get (PStr event) hooks) as [w|] eqn:G.
           ++ destruct w; try discriminate Tev. now rewrite app_assoc.
           ++ reflexivity.
        -- rewrite Goth by (intros ->; now rewrite String.eqb_refl in E).
           reflexivity.
      * intros k N. rewrite Gcfg by exact N. now apply set_hooks_other.
Qed.

(** The merge when the incoming entries meet lists only. *)
Lemma merge_into_touched existing_config hooks hooks_config entries :
  existing_hooks existing_config = Some hooks ->
  touched_lists hooks entries = true ->
  hooks_to_merge hooks_config = PDict entries ->
  entries_ok entries = true ->
  exists merged merged_hooks,
    merge_into (PDict existing_config) hooks_config = Ok (PDict merged)
    /\ get (PStr "hooks") merged = Some (PDict merged_hooks)
    /\ (forall event,
          get (PStr event) merged_hooks = merged_list hooks entries event)
    /\ (forall k, k <> "hooks" ->
          get (PStr k) merged = get (PStr k) existing_config).
Proof.
  intros Hex T Hin Hok. unfold merge_into, ensure_hooks, py_contains, mem.
  rewrite Hin. unfold existing_hooks in Hex.
  destruct (get (PStr "hooks") existing_config) as [h|] eqn:G; cbn [bind].
  - destruct h; try discriminate Hex. injection Hex as ->.
    destruct (merge_events_touched entries existing_config hooks G T Hok)
      as [cfg' [hooks' [Run [Hh [Gall Gcfg]]]]].
    exists cfg', hooks'. now repeat split.
  - injection Hex as <-. cbn [py_setitem bind].
    destruct (merge_events_touched entries
                (set (PStr "hooks") (PDict []) existing_config) [])
      as [cfg' [hooks' [Run [Hh [Gall Gcfg]]]]];
      [now rewrite get_set_str | exact T | exact Hok |].
    exists cfg', hooks'. repeat split; try assumption.
    intros k N. rewrite Gcfg by exact N. now apply set_hooks_other.
Qed.

(** The merge into a configuration of the expected shape. *)
Lemma merge_into_spec existing_config hooks hooks_config entries :
  existing_hooks existing_config = Some hooks ->
  all_lists hooks = true ->
  hooks_to_merge hooks_config = PDict entries ->
  entries_ok entries = true ->
  exists merged merged_hooks,
    merge_into (PDict existing_config) hooks_config = Ok (PDict merged)
    /\ get (PStr "hooks") merged = Some (PDict merged_hooks)
    /\ (forall event,
          get (PStr event) merged_hooks = merged_list hooks entries event)
    /\ (forall k, k <> "hooks" ->
          get (PStr k) merged = get (PStr k) existing_config).
Proof.
  intros Hex A Hin Hok. unfold merge_into, ensure_hooks, py_contains, mem.
  rewrite Hin. unfold existing_hooks in Hex.
  destruct (get (PStr "hooks") existing_config) as [h|] eqn:G; cbn [bind].
  - destruct h; try discriminate Hex. injection Hex as ->.
    destruct (merge_events_spec entries existing_config hooks G A Hok)
      as [cfg' [hooks' [Run [Hh [_ [Gall Gcfg]]]]]].
    exists cfg', hooks'. now repeat split.
  - injection Hex as <-. cbn [py_setitem bind].
    destruct (merge_events_spec entries
                (set (PStr "hooks") (PDict []) existing_config) [])
      as [cfg' [hooks' [Run [Hh [_ [Gall Gcfg]]]]]];
      [now rewrite get_set_str | reflexivity | exact Hok |].
    exists cfg', hooks'. repeat split; try assumption.
    intros k N. rewrite Gcfg by exact N. now apply set_hooks_other.
Qed.

End MergeFacts.

Module MergeClaims.
Import PyDict PyDictFacts MergeFacts.

Lemma parts_prefix_refl p : parts_prefix p p = true.
Proof.
  induction p as [|a p IH]; simpl; [reflexivity|].
  now rewrite String.eqb_refl.
Qed.

Lemma file_at_written d p text : file_at (write_text d p text) p = Contents text.
Proof. simpl. unfold path_eqb. now rewrite parts_prefix_refl. Qed.

(** The read of a file that is there with a text. *)
Lemma read_existing_contents json d config_path content :
  file_at d config_path = Contents content ->
  read_existing json d config_path = Ok (parse_config json content).
Proof.
  intro F. unfold read_existing, path_exists, read_text. now rewrite F.
Qed.

(** The read raises exactly on a path that cannot be examined. *)
Lemma read_existing_raises json d config_path e :
  read_existing json d config_path = Raise e
  <-> file_at d config_path = Inaccessible /\ e = OSError.
Proof.
  unfold read_existing, path_exists, read_text.
  destruct (file_at d config_path); cbn [bind].
  - destruct (dir_at d config_path); split;
      try discriminate; intros [? _]; discriminate.
  - split; [intros [= <-]; now split | intros [_ ->]; reflexivity].
  - split; [discriminate | intros [? _]; discriminate].
  - split; [discriminate | intros [? _]; discriminate].
Qed.

(** The function after the install path is known, the read has returned
    and the merge has returned. *)
Lemma merge_hooks_run os json self d hooks_config dry_run install_path
      base_path self' log0 existing log1 merged :
  locate os self install_path = Ok (base_path, self', log0) ->
  read_existing json d (base_path ++ ["opencode.json"])%list
  = Ok (existing, log1) ->
  merge_into existing hooks_config = Ok merged ->
  let config_path := (base_path ++ ["opencode.json"])%list in
  merge_hooks_to_config os json self d hooks_config dry_run install_path
  = if dry_run
    then Ok {| returned := true; adapter_after := self'; disk_after := d;
               logged := (log0 ++ log1 ++ [dry_run_info])%list |}
    else
      if fst (write_config json d base_path config_path merged)
      then Ok {| returned := true; adapter_after := self';
                 disk_after :=
                   snd (write_config json d base_path config_path merged);
                 logged := (log0 ++ log1)%list |}
      else Ok {| returned := false; adapter_after := self';
                 disk_after :=
                   snd (write_config json d base_path config_path merged);
                 logged := (log0 ++ log1 ++ [write_error])%list |}.
Proof.
  intros Hloc Hread Hmerge. cbv zeta. unfold merge_hooks_to_config.
  rewrite Hloc. cbn [bind]. rewrite Hread. cbn [bind]. rewrite Hmerge.
  cbn [bind].
  destruct (write_config json d base_path
              (base_path ++ ["opencode.json"])%list merged) as [done d'].
  reflexivity.
Qed.

Lemma merge_hooks_raise os json self d hooks_config dry_run install_path
      base_path self' log0 existing log1 e :
  locate os self install_path = Ok (base_path, self', log0) ->
  read_existing json d (base_path ++ ["opencode.json"])%list
  = Ok (existing, log1) ->
  merge_into existing hooks_config = Raise e ->
  merge_hooks_to_config os json self d hooks_config dry_run install_path
  = Raise e.
Proof.
  intros Hloc Hread Hmerge. unfold merge_hooks_to_config.
  rewrite Hloc. cbn [bind]. rewrite Hread. cbn [bind]. now rewrite Hmerge.
Qed.

Lemma merge_hooks_read_raise os json self d hooks_config dry_run install_path
      base_path self' log0 e :
  locate os self install_path = Ok (base_path, self', log0) ->
  read_existing json d (base_path ++ ["opencode.json"])%list = Raise e ->
  merge_hooks_to_config os json self d hooks_config dry_run install_path
  = Raise e.
Proof.
  intros Hloc Hread. unfold merge_hooks_to_config.
  rewrite Hloc. cbn [bind]. now rewrite Hread.
Qed.

(** A call that returns, taken apart. *)
Lemma merge_hooks_returns os json self d hooks_config dry_run install_path
      outcome :
  merge_hooks_to_config os json self d hooks_config dry_run install_path
  = Ok outcome ->
  exists base_path self' log0 existing log1 merged,
    locate os self install_path = Ok (base_path, self', log0)
    /\ read_existing json d (base_path ++ ["opencode.json"])%list
       = Ok (existing, log1)
    /\ merge_into existing hooks_config = Ok merged
    /\ adapter_after outcome = self'
    /\ returned outcome
       = (dry_run
          || fst (write_config json d base_path
                    (base_path ++ ["opencode.json"])%list merged))
    /\ disk_after outcome
       = (if dry_run then d
          else snd (write_config json d base_path
                      (base_path ++ ["opencode.json"])%list merged))
    /\ logged outcome
       = (log0 ++ log1
          ++ (if dry_run then [dry_run_info]
              else if fst (write_config json d base_path
                             (base_path ++ ["opencode.json"])%list merged)
                   then [] else [write_error]))%list.
Proof.
  unfold merge_hooks_to_config.
  destruct (locate os self install_path) as [[[base self'] log0]|e]
    eqn:Hloc; [|discriminate].
  cbn [bind].
  destruct (read_existing json d (base ++ ["opencode.json"])%list)
    as [[existing log1]|e] eqn:Hread; [|discriminate].
  cbn [bind].
  destruct (merge_into existing hooks_config) as [merged|e] eqn:Hmerge;
    [|discriminate].
  cbn [bind]. intro Run.
  exists base, self', log0, existing, log1, merged.
  split; [reflexivity|]. split; [exact Hread|]. split; [exact Hmerge|].
  destruct dry_run.
  - injection Run as <-. now repeat split.
  - destruct (write_config json d base (base ++ ["opencode.json"])%list merged)
      as [[|] d']; injection Run as <-; cbn [fst snd orb];
      repeat split; cbn [logged]; now rewrite ?app_nil_r.
Qed.

(** The write, by what it meets.  A write that does not come to its end
    leaves every other file as it was; the file itself is as it was or,
    when the write raised after the file was opened, holds the first
    characters of the text. *)
Lemma write_config_done json d base_path config_path merged :
  fst (write_config json d base_path config_path merged)
  = write_succeeds json d config_path merged.
Proof.
  unfold write_config, write_succeeds.
  destruct (write_fate_at d config_path);
    destruct (json_dumps json merged); reflexivity.
Qed.

Lemma write_config_written json d base_path config_path merged :
  fst (write_config json d base_path config_path merged) = true ->
  exists text,
    json_dumps json merged = Some text
    /\ snd (write_config json d base_path config_path merged)
       = write_text (mkdir_parents d base_path (List.length base_path))
                    config_path text.
Proof.
  unfold write_config.
  destruct (write_fate_at d config_path);
    destruct (json_dumps json merged) as [text|]; try discriminate.
  intros _. now exists text.
Qed.

Lemma write_config_elsewhere json d base_path config_path merged q :
  path_eqb config_path q = false ->
  file_at (snd (write_config json d base_path config_path merged)) q
  = file_at d q.
Proof.
  intro N. unfold write_config.
  destruct (write_fate_at d config_path);
    destruct (json_dumps json merged); cbn [snd file_at write_text mkdir_parents];
    try reflexivity; now rewrite N.
Qed.

Lemma write_config_fate json d base_path config_path merged q :
  write_fate_at (snd (write_config json d base_path config_path merged)) q
  = write_fate_at d q.
Proof.
  unfold write_config.
  destruct (write_fate_at d config_path);
    destruct (json_dumps json merged); reflexivity.
Qed.

Lemma write_config_failed json d base_path config_path merged :
  fst (write_config json d base_path config_path merged) = false ->
  file_at (snd (write_config json d base_path config_path merged)) config_path
  = match write_fate_at d config_path, json_dumps json merged with
    | WriteFails kept, Some text => Contents (substring 0 kept text)
    | _, _ => file_at d config_path
    end.
Proof.
  unfold write_config.
  destruct (write_fate_at d config_path);
    destruct (json_dumps json merged);
    cbn [fst snd file_at write_text mkdir_parents];
    try discriminate; try reflexivity.
  intros _. unfold path_eqb. now rewrite parts_prefix_refl.
Qed.

End MergeClaims.

(** C8: the merge appends.  The file holds a configuration, a mapping
    whose [hooks], when present, is a mapping; the incoming configuration
    gives its entries under a top-level [hooks] key or bare, every entry a
    string event name with a list, and every event it names has a list in
    the file or is new.  Then the merge of what the file holds returns a
    configuration in which every event has its existing list followed by
    the incoming entries for it, in order: for an event with existing list
    [existing] and one incoming entry [incoming] the list is
    [existing ++ incoming], with the empty list for [existing] when the
    event is new.  Events without incoming entries and the other keys of
    the configuration are untouched, nothing is removed and nothing is
    deduplicated.  The call reads the file, and when it is no dry run and
    the write meets no failure it writes this configuration to the file. *)
Theorem C8_merge_appends (os : os_env) (json : json_lib) (self : adapter)
    (d : disk) (base_path : Path) (content : string)
    (existing_config hooks hooks_config : PyDict.dict)
    (entries : list (pyval * pyval)) :
  let config_path := (base_path ++ ["opencode.json"])%list in
  file_at d config_path = Contents content ->
  PyStr.strip (strip_comment_lines content) <> "" ->
  json_loads json (strip_comment_lines content) = Some (PDict existing_config) ->
  existing_hooks existing_config = Some hooks ->
  touched_lists hooks entries = true ->
  (PyDict.get (PStr "hooks") hooks_config = Some (PDict entries)
   \/ (PyDict.get (PStr "hooks") hooks_config = None
       /\ entries = hooks_config)) ->
  entries_ok entries = true ->
  exists merged merged_hooks,
    merge_into (PDict existing_config) hooks_config = Ok (PDict merged)
    /\ PyDict.get (PStr "hooks") merged = Some (PDict merged_hooks)
    /\ (forall event,
          PyDict.get (PStr event) merged_hooks
          = merged_list hooks entries event)
    /\ (forall event existing incoming before after,
          (PyDict.get (PStr event) hooks = Some (PList existing)
           \/ (PyDict.get (PStr event) hooks = None /\ existing = [])) ->
          entries = (before ++ (PStr event, PList incoming) :: after)%list ->
          has_entry event before = false ->
          has_entry event after = false ->
          PyDict.get (PStr event) merged_hooks
          = Some (PList (existing ++ incoming)%list))
    /\ (forall event,
          has_entry event entries = false ->
          PyDict.get (PStr event) merged_hooks = PyDict.get (PStr event) hooks)
    /\ (forall k, k <> "hooks" ->
          PyDict.get (PStr k) merged = PyDict.get (PStr k) existing_config)
    /\ (forall text,
          write_fate_at d config_path = Written ->
          json_dumps json (PDict merged) = Some text ->
          exists outcome,
            merge_hooks_to_config os json self d hooks_config false
                                  (Some base_path) = Ok outcome
            /\ returned outcome = true
            /\ file_at (disk_after outcome) config_path = Contents text).
Proof.
  intros config_path Hfile Hne Hparse Hex T Hform Hok.
  assert (Hin : hooks_to_merge hooks_config = PDict entries).
  { unfold hooks_to_merge. destruct Hform as [-> | [-> ->]]; reflexivity. }
  destruct (MergeFacts.merge_into_touched existing_config hooks hooks_config
              entries Hex T Hin Hok)
    as [merged [merged_hooks [Run [Hh [Gall Gcfg]]]]].
  exists merged, merged_hooks.
  split; [exact Run|]. split; [exact Hh|]. split; [exact Gall|].
  split; [|split; [|split; [exact Gcfg|]]].
  - intros event existing incoming before after Hold -> Hb Ha.
    rewrite Gall. unfold merged_list.
    rewrite MergeFacts.incoming_for_unique by assumption.
    destruct Hold as [-> | [-> ->]]; [reflexivity|].
    now rewrite MergeFacts.has_entry_middle.
  - intros event Hno. rewrite Gall. unfold merged_list. rewrite Hno.
    assert (Z : incoming_for event entries = []).
    { clear - Hno. induction entries as [|[k v] r IH]; [reflexivity|].
      unfold has_entry in Hno. simpl in Hno. apply orb_false_elim in Hno.
      destruct Hno as [Hk Hr]. destruct k; try (now apply IH).
      simpl in Hk. destruct v; try (now apply IH).
      simpl. rewrite Hk. now apply IH. }
    rewrite Z.
    destruct (PyDict.get (PStr event) hooks) as [w|]; [|reflexivity].
    destruct w; try reflexivity. now rewrite app_nil_r.
  - intros text Hw Hd.
    assert (Hread : read_existing json d config_path
                    = Ok (PDict existing_config, [])).
    { rewrite (MergeClaims.read_existing_contents _ _ _ _ Hfile).
      unfold parse_config. rewrite Hparse.
      destruct (PyStr.strip (strip_comment_lines content));
        [congruence | reflexivity]. }
    pose proof (MergeClaims.merge_hooks_run os json self d hooks_config false
                  (Some base_path) base_path self [] _ _ (PDict merged)
                  eq_refl Hread Run) as R.
    cbv zeta in R. fold config_path in R.
    assert (W : write_config json d base_path config_path (PDict merged)
                = (true, write_text
                           (mkdir_parents d base_path (List.length base_path))
                           config_path text))
      by (unfold write_config; now rewrite Hw, Hd).
    rewrite W in R. cbn [fst snd] in R.
    eexists. split; [exact R|]. split; [reflexivity|].
    apply MergeClaims.file_at_written.
Qed.

(** The example of the specification, for any two hook entries. *)
Example merge_example (X Y : pyval) :
  merge_into
    (PDict [(PStr "hooks", PDict [(PStr "PreToolUse", PList [Y])])])
    [(PStr "hooks", PDict [(PStr "PreToolUse", PList [X])])]
  = Ok (PDict [(PStr "hooks", PDict [(PStr "PreToolUse", PList [Y; X])])]).
Proof. reflexivity. Qed.

(** Merging the same input twice doubles the entries. *)
Example merge_twice (X : pyval) :
  (once <- merge_into (PDict []) [(PStr "Stop", PList [X])] ;;
   merge_into once [(PStr "Stop", PList [X])])
  = Ok (PDict [(PStr "hooks", PDict [(PStr "Stop", PList [X; X])])]).
Proof. reflexivity. Qed.

(** The example of the specification, from the file to the file: the
    file holds [Y], the call brings [X], and the file holds [Y], [X]. *)
Lemma C8_merge_appends_witness :
  exists outcome,
    merge_hooks_to_config (example_os None) literal_json fresh_adapter
      (disk_with ["/"; "tmp"; "opencode.json"]
                 "// hooks of the project
{'hooks': {'PreToolUse': ['Y']}}" Written)
      [(PStr "hooks", PDict [(PStr "PreToolUse", PList [PStr "X"])])]
      false (Some ["/"; "tmp"])
    = Ok outcome
    /\ returned outcome = true
    /\ file_at (disk_after outcome) ["/"; "tmp"; "opencode.json"]
       = Contents "{'hooks': {'PreToolUse': ['Y', 'X']}}".
Proof.
  assert (N : PyStr.strip
                (strip_comment_lines "// hooks of the project
{'hooks': {'PreToolUse': ['Y']}}") <> "") by discriminate.
  destruct (C8_merge_appends (example_os None) literal_json fresh_adapter
              (disk_with ["/"; "tmp"; "opencode.json"]
                         "// hooks of the project
{'hooks': {'PreToolUse': ['Y']}}" Written)
              ["/"; "tmp"]
              "// hooks of the project
{'hooks': {'PreToolUse': ['Y']}}"
              [(PStr "hooks", PDict [(PStr "PreToolUse", PList [PStr "Y"])])]
              [(PStr "PreToolUse", PList [PStr "Y"])]
              [(PStr "hooks", PDict [(PStr "PreToolUse", PList [PStr "X"])])]
              [(PStr "PreToolUse", PList [PStr "X"])]
              eq_refl N eq_refl eq_refl eq_refl (or_introl eq_refl) eq_refl)
    as [merged [merged_hooks [Run [_ [_ [_ [_ [_ Hcall]]]]]]]].
  injection Run as <-.
  exact (Hcall "{'hooks': {'PreToolUse': ['Y', 'X']}}" eq_refl eq_refl).
Defined.




(* ================================================================== *)
(** * Further properties of the adapter *)
(* ================================================================== *)

(** ** Tool names and the tools rewrite, once more *)

Module ToolsMore.
Import PyDict PyDictFacts ToolsFacts.

Lemma lower_char_idem c : PyStr.lower_char (PyStr.lower_char c) = PyStr.lower_char c.
Proof. destruct c as [[] [] [] [] [] [] [] []]; vm_compute; reflexivity. Qed.

Lemma lower_idem s : PyStr.lower (PyStr.lower s) = PyStr.lower s.
Proof.
  induction s as [|c s IH]; simpl; [reflexivity|].
  now rewrite lower_char_idem, IH.
Qed.

(** The platform names of the table are lower-case, its keys are not. *)
Lemma table_values_lower tool mapped :
  table_get _OPENCODE_TOOL_NAME_MAP tool = Some mapped ->
  PyStr.lower mapped = mapped.
Proof.
  intro H. apply AgentFacts.table_get_In in H.
  unfold _OPENCODE_TOOL_NAME_MAP in H.
  repeat (destruct H as [H|H]; [injection H as <- <-; reflexivity|]).
  destruct H.
Qed.

Lemma table_keys_not_lower tool mapped :
  table_get _OPENCODE_TOOL_NAME_MAP tool = Some mapped ->
  PyStr.lower tool <> tool.
Proof.
  intro H. apply AgentFacts.table_get_In in H.
  unfold _OPENCODE_TOOL_NAME_MAP in H.
  repeat (destruct H as [H|H]; [injection H as <- <-; discriminate|]).
  destruct H.
Qed.

Lemma map_tool_name_lower tool :
  PyStr.lower (map_tool_name tool) = map_tool_name tool.
Proof.
  unfold map_tool_name.
  destruct (table_get _OPENCODE_TOOL_NAME_MAP tool) as [m|] eqn:E.
  - now apply table_values_lower with tool.
  - apply lower_idem.
Qed.

Lemma map_tool_name_idem tool :
  map_tool_name (map_tool_name tool) = map_tool_name tool.
Proof.
  pose proof (map_tool_name_lower tool) as L.
  unfold map_tool_name at 1.
  destruct (table_get _OPENCODE_TOOL_NAME_MAP (map_tool_name tool)) as [m|] eqn:E.
  - apply table_keys_not_lower in E. congruence.
  - exact L.
Qed.

(** *** Lists *)

Lemma dedup_names_length l : forall seen,
  List.length (dedup_names seen l) <= List.length l.
Proof.
  induction l as [|v r IH]; intro seen; simpl; [lia|].
  destruct v; simpl; try (specialize (IH seen); lia).
  destruct (existsb (String.eqb s) seen); simpl.
  - specialize (IH seen). lia.
  - specialize (IH (seen ++ [s])%list). lia.
Qed.

Lemma dedup_names_fixed l : forall seen,
  NoDup (seen ++ str_names l) -> dedup_names seen l = l.
Proof.
  induction l as [|v r IH]; intros seen ND; simpl; [reflexivity|].
  destruct v; simpl in *; try (now rewrite IH).
  destruct (existsb (String.eqb s) seen) eqn:E.
  - apply existsb_eqb_In in E. apply NoDup_remove_2 in ND.
    exfalso. apply ND. apply in_or_app. now left.
  - f_equal. apply IH. rewrite <- app_assoc. exact ND.
Qed.

Lemma dedup_names_incl l : forall seen v,
  In v (dedup_names seen l) -> In v l.
Proof.
  induction l as [|w r IH]; intros seen v H; simpl in *; [assumption|].
  destruct w; simpl in H;
    try (destruct H as [H|H]; [now left | right; now apply IH with seen]).
  destruct (existsb (String.eqb s) seen).
  - right. now apply IH with seen.
  - destruct H as [H|H]; [now left | right; now apply IH with (seen ++ [s])%list].
Qed.

Lemma map_entry_idem v : map_entry (map_entry v) = map_entry v.
Proof. destruct v; simpl; try reflexivity. now rewrite map_tool_name_idem. Qed.

Lemma map_entry_fixed_list l :
  (forall v, In v l -> map_entry v = v) -> map map_entry l = l.
Proof.
  induction l as [|v r IH]; intro H; simpl; [reflexivity|].
  rewrite H by now left. f_equal. apply IH. intros w Hw. apply H. now right.
Qed.

Lemma tools_list_spec_idem items :
  tools_list_spec (tools_list_spec items) = tools_list_spec items.
Proof.
  unfold tools_list_spec.
  rewrite map_entry_fixed_list.
  - apply dedup_names_fixed.
    apply (dedup_names_NoDup (map map_entry items) []). constructor.
  - intros v Hv. apply dedup_names_incl in Hv. apply in_map_iff in Hv.
    destruct Hv as [w [<- _]]. apply map_entry_idem.
Qed.

(** *** Mappings *)

Lemma set_absent k v d :
  mem (PStr k) d = false -> set (PStr k) v d = (d ++ [(PStr k, v)])%list.
Proof.
  unfold mem. induction d as [|[k' w] r IH]; simpl; [reflexivity|].
  destruct (key_eqb k' (PStr k)); [discriminate|].
  intro H. now rewrite IH.
Qed.

(** The loop over entries whose keys are distinct names that the table
    leaves alone copies them behind the accumulator. *)
Lemma tools_dict_fold_fixed d : forall acc,
  Forall (fun k => is_str k = true) (keys acc) ->
  Forall (fun k => map_entry k = k /\ is_str k = true) (keys d) ->
  NoDup (str_names (keys acc) ++ str_names (keys d)) ->
  fold_left tools_dict_step d acc = (acc ++ d)%list.
Proof.
  induction d as [|[k v] r IH]; intros acc Fa Fd ND; simpl.
  - now rewrite app_nil_r.
  - inversion Fd as [|? ? [Hfix Hstr] Fr]; subst.
    destruct k as [| | |name| |]; try discriminate Hstr.
    simpl in Hfix. injection Hfix as Hfix.
    unfold tools_dict_step at 2. simpl. rewrite Hfix.
    assert (Habs : mem (PStr name) acc = false).
    { rewrite (mem_str_names _ _ Fa).
      destruct (existsb (String.eqb name) (str_names (keys acc))) eqn:E;
        [|reflexivity].
      apply existsb_eqb_In in E. simpl in ND. apply NoDup_remove_2 in ND.
      exfalso. apply ND. apply in_or_app. now left. }
    rewrite (set_absent _ _ _ Habs). rewrite IH.
    + now rewrite <- app_assoc.
    + unfold keys. rewrite map_app. apply Forall_app. split; [exact Fa|].
      now repeat constructor.
    + exact Fr.
    + unfold keys. rewrite map_app. simpl. rewrite str_names_app. simpl.
      rewrite <- app_assoc. exact ND.
Qed.

Lemma renamed_entries_length entries :
  List.length (renamed_entries entries) <= List.length entries.
Proof.
  induction entries as [|[k v] r IH]; simpl; [lia|].
  destruct k; simpl; lia.
Qed.

(** The keys of the rewritten mapping. *)
Lemma tools_dict_keys entries :
  keys (fold_left tools_dict_step entries [])
  = dedup_names [] (map (fun e => PStr (fst e)) (renamed_entries entries)).
Proof. apply (tools_dict_fold_keys entries []). constructor. Qed.

Lemma tools_dict_keys_shape entries :
  Forall (fun k => map_entry k = k /\ is_str k = true)
         (keys (fold_left tools_dict_step entries [])).
Proof.
  rewrite tools_dict_keys. apply Forall_forall. intros k Hk.
  apply dedup_names_incl in Hk. apply in_map_iff in Hk.
  destruct Hk as [[n v] [<- Hin]]. apply renamed_entries_In in Hin.
  destruct Hin as [tool [_ Hn]]. simpl in *. subst n.
  split; [|reflexivity]. now rewrite map_tool_name_idem.
Qed.

Lemma tools_dict_keys_NoDup entries :
  NoDup (str_names (keys (fold_left tools_dict_step entries []))).
Proof.
  rewrite tools_dict_keys.
  apply (dedup_names_NoDup
           (map (fun e => PStr (fst e)) (renamed_entries entries)) []).
  constructor.
Qed.

Lemma str_names_all_str l :
  Forall (fun k => is_str k = true) l -> map PStr (str_names l) = l.
Proof.
  induction l as [|v r IH]; intro F; simpl; [reflexivity|].
  inversion F as [|? ? Hv Fr]; subst.
  destruct v; try discriminate Hv. simpl. now rewrite IH.
Qed.

Lemma NoDup_map_PStr l : NoDup l -> NoDup (map PStr l).
Proof.
  induction 1 as [|x l Hx ND IH]; simpl; constructor; [|exact IH].
  intro H. apply in_map_iff in H. destruct H as [y [E Hy]].
  injection E as ->. contradiction.
Qed.

Lemma tools_rewrite_idem tools :
  _transform_tools_for_opencode (_transform_tools_for_opencode tools)
  = _transform_tools_for_opencode tools.
Proof.
  destruct tools as [| | | |items|entries]; try reflexivity.
  - simpl. rewrite !(tools_list_fold _ []). simpl. f_equal.
    apply tools_list_spec_idem.
  - simpl. f_equal.
    apply (tools_dict_fold_fixed _ []).
    + constructor.
    + apply tools_dict_keys_shape.
    + apply tools_dict_keys_NoDup.
Qed.

End ToolsMore.

(** X1: every tool name the rewrite produces is lower-case, and the
    rewrite of a name it produced is that name again. *)
Theorem X1_tool_names_lower (tool : string) :
  PyStr.lower (map_tool_name tool) = map_tool_name tool
  /\ map_tool_name (map_tool_name tool) = map_tool_name tool.
Proof.
  split; [apply ToolsMore.map_tool_name_lower | apply ToolsMore.map_tool_name_idem].
Qed.

(** X2: the tools rewrite is idempotent: rewriting a value that is
    already rewritten changes nothing, whatever the value is. *)
Theorem X2_tools_rewrite_idempotent (tools : pyval) :
  _transform_tools_for_opencode (_transform_tools_for_opencode tools)
  = _transform_tools_for_opencode tools.
Proof. apply ToolsMore.tools_rewrite_idem. Qed.

(** X3: the rewritten tools value is well formed and no larger than the
    input: a mapping has string keys only, no key twice, and at most as
    many entries as the input; a list is at most as long as the input. *)
Theorem X3_tools_rewrite_size :
  (forall entries,
     exists normalized,
       _transform_tools_for_opencode (PDict entries) = PDict normalized
       /\ Forall (fun k => is_str k = true) (PyDict.keys normalized)
       /\ NoDup (PyDict.keys normalized)
       /\ List.length normalized <= List.length entries)
  /\ (forall items,
        exists normalized_list,
          _transform_tools_for_opencode (PList items) = PList normalized_list
          /\ List.length normalized_list <= List.length items).
Proof.
  split.
  - intro entries. eexists. split; [reflexivity|].
    pose proof (ToolsMore.tools_dict_keys_shape entries) as Sh.
    assert (St : Forall (fun k => is_str k = true)
                   (PyDict.keys (fold_left tools_dict_step entries []))).
    { eapply Forall_impl; [|exact Sh]. now intros k [_ ?]. }
    split; [exact St|]. split.
    + rewrite <- (ToolsMore.str_names_all_str _ St).
      apply ToolsMore.NoDup_map_PStr, ToolsMore.tools_dict_keys_NoDup.
    + rewrite <- (length_map fst).
      fold (PyDict.keys (fold_left tools_dict_step entries [])).
      rewrite ToolsMore.tools_dict_keys.
      etransitivity; [apply ToolsMore.dedup_names_length|].
      rewrite length_map. apply ToolsMore.renamed_entries_length.
  - intro items. eexists. split; [reflexivity|].
    rewrite (ToolsFacts.tools_list_fold _ []). simpl.
    etransitivity; [apply ToolsMore.dedup_names_length|].
    now rewrite length_map.
Qed.

(** ** The frontmatter rewrites, once more *)

Module FrontmatterMore.
Import PyDict PyDictFacts FrontmatterFacts.

Lemma set_same k v d : get (PStr k) d = Some v -> set (PStr k) v d = d.
Proof.
  induction d as [|[k' w] r IH]; simpl; [discriminate|].
  destruct (key_eqb k' (PStr k)).
  - now intros [= ->].
  - intro H. now rewrite IH.
Qed.

Lemma remove_absent k d : get (PStr k) d = None -> remove (PStr k) d = d.
Proof.
  induction d as [|[k' w] r IH]; simpl; [reflexivity|].
  destruct (key_eqb k' (PStr k)); [discriminate|].
  intro H. now rewrite IH.
Qed.

Lemma keys_set_present k v w d :
  get (PStr k) d = Some w -> keys (set (PStr k) v d) = keys d.
Proof. intro H. rewrite keys_set_str. unfold mem. now rewrite H. Qed.

Lemma keys_remove_incl k d x : In x (keys (remove k d)) -> In x (keys d).
Proof.
  unfold keys. induction d as [|[k' w] r IH]; simpl; [tauto|].
  destruct (key_eqb k' k); simpl; intuition.
Qed.

Lemma keys_set_incl k v d x :
  In x (keys (set (PStr k) v d)) -> In x (keys d) \/ x = PStr k.
Proof.
  rewrite keys_set_str. destruct (mem (PStr k) d); [now left|].
  intro H. apply in_app_or in H. destruct H as [H|[<-|[]]]; [now left | now right].
Qed.

Lemma keys_drop_fields_incl fields : forall d x,
  In x (keys (drop_fields fields d)) -> In x (keys d).
Proof.
  unfold drop_fields. induction fields as [|f r IH]; intros d x H; [exact H|].
  simpl in H. apply IH in H. now apply keys_remove_incl in H.
Qed.

Lemma drop_fields_absent fields : forall d,
  (forall f, In f fields -> get (PStr f) d = None) -> drop_fields fields d = d.
Proof.
  unfold drop_fields. induction fields as [|f r IH]; intros d H; [reflexivity|].
  simpl. rewrite remove_absent by (apply H; now left).
  apply IH. intros g Hg. apply H. now right.
Qed.

(** The keys and the [tools] value after [_transform_frontmatter]. *)
Lemma transform_frontmatter_shape fm result :
  _transform_frontmatter fm = Ok result ->
  keys result = keys fm
  /\ get (PStr "tools") result
     = option_map _transform_tools_for_opencode (get (PStr "tools") fm).
Proof.
  unfold _transform_frontmatter.
  assert (Step : forall d,
            keys d = keys fm ->
            get (PStr "tools") d = get (PStr "tools") fm ->
            match get (PStr "tools") d with
            | Some tools =>
                Ok (set (PStr "tools") (_transform_tools_for_opencode tools) d)
            | None => Ok d
            end = Ok result ->
            keys result = keys fm
            /\ get (PStr "tools") result
               = option_map _transform_tools_for_opencode
                            (get (PStr "tools") fm)).
  { intros d Hk Ht. rewrite <- Ht.
    destruct (get (PStr "tools") d) as [t|] eqn:G; intros [= <-].
    - rewrite (keys_set_present _ _ _ _ G), get_set_str. now split.
    - now split. }
  destruct (get (PStr "model") fm) as [m|] eqn:Gm; cbn [bind].
  - destruct (rewrite_model m) as [[v|]|e]; cbn [bind];
      [| now apply Step | discriminate].
    apply Step.
    + now apply keys_set_present with m.
    + now rewrite get_set_str.
  - now apply Step.
Qed.

(** What [rewrite_model] assigns, it leaves alone the next time. *)
Lemma rewrite_model_settled m assigned :
  rewrite_model m = Ok assigned ->
  let m' := match assigned with Some v => v | None => m end in
  rewrite_model m' = Ok None \/ rewrite_model m' = Ok (Some m').
Proof.
  unfold rewrite_model at 1.
  destruct (str_of_scalar m) as [text|] eqn:T; [|discriminate].
  destruct (match m with PStr s => table_get _OPENCODE_MODEL_MAP s | _ => None end)
    as [q|] eqn:K.
  - intros [= <-]. cbv zeta.
    destruct m; try discriminate K.
    apply AgentFacts.table_get_In in K. unfold _OPENCODE_MODEL_MAP in K.
    repeat (destruct K as [K|K];
            [injection K as <- <-; vm_compute; auto|]).
    destruct K.
  - destruct (negb (PyStr.contains "/" text) && negb (str_eq_val "inherit" m))
      eqn:C; intros [= <-]; cbv zeta.
    + left. unfold rewrite_model. cbn [str_of_scalar].
      destruct (table_get _OPENCODE_MODEL_MAP ("anthropic/" ++ text)) eqn:E.
      * apply AgentFacts.model_map_no_slash in E. discriminate E.
      * reflexivity.
    + left. unfold rewrite_model. now rewrite T, K, C.
Qed.

(** A frontmatter whose [model] and [tools] are settled is returned as
    it is. *)
Lemma transform_frontmatter_fixed d :
  (forall m, get (PStr "model") d = Some m ->
             rewrite_model m = Ok None \/ rewrite_model m = Ok (Some m)) ->
  (forall t, get (PStr "tools") d = Some t ->
             _transform_tools_for_opencode t = t) ->
  _transform_frontmatter d = Ok d.
Proof.
  intros Hm Ht. unfold _transform_frontmatter.
  assert (Tools : match get (PStr "tools") d with
                  | Some tools =>
                      Ok (set (PStr "tools") (_transform_tools_for_opencode tools) d)
                  | None => Ok d
                  end = Ok d).
  { destruct (get (PStr "tools") d) as [t|] eqn:G; [|reflexivity].
    now rewrite (Ht t eq_refl), (set_same _ _ _ G). }
  destruct (get (PStr "model") d) as [m|] eqn:G; cbn [bind]; [|exact Tools].
  destruct (Hm m eq_refl) as [-> | ->]; cbn [bind].
  - exact Tools.
  - now rewrite (set_same _ _ _ G).
Qed.

(** The result of [_transform_frontmatter] is settled, and so is every
    frontmatter with the same [model] and [tools]. *)
Lemma transform_frontmatter_settles fm result d :
  _transform_frontmatter fm = Ok result ->
  get (PStr "model") d = get (PStr "model") result ->
  get (PStr "tools") d = get (PStr "tools") result ->
  _transform_frontmatter d = Ok d.
Proof.
  intros Run Gm Gt.
  pose proof (transform_frontmatter_cases fm) as Cases. rewrite Run in Cases.
  destruct Cases as [_ [Hmodel Hnone]].
  destruct (transform_frontmatter_shape fm result Run) as [_ Htools].
  apply transform_frontmatter_fixed.
  - intros m G. rewrite Gm in G.
    destruct (get (PStr "model") fm) as [m0|] eqn:G0.
    + destruct (Hmodel m0 eq_refl) as [assigned [Rw Res]].
      rewrite Res in G. injection G as <-.
      now apply rewrite_model_settled.
    + rewrite (Hnone eq_refl) in G. discriminate G.
  - intros t G. rewrite Gt, Htools in G.
    destruct (get (PStr "tools") fm) as [t0|]; [|discriminate G].
    injection G as <-. apply ToolsMore.tools_rewrite_idem.
Qed.

End FrontmatterMore.

Module RewriteMore.
Import PyDict PyDictFacts FrontmatterFacts FrontmatterMore.

Lemma command_unfold fm :
  _transform_command_frontmatter fm
  = (result <- _transform_frontmatter fm ;;
     Ok (drop_fields command_drop_list (argument_hint_step result))).
Proof. reflexivity. Qed.

Lemma neq_eqb a b : a <> b -> String.eqb a b = false.
Proof. intro N. now apply String.eqb_neq. Qed.

Lemma get_other_convert k d :
  k <> "type" -> k <> "mode" ->
  get (PStr k) (convert_type d) = get (PStr k) d.
Proof.
  intros N1 N2. unfold convert_type.
  destruct (get (PStr "type") d) as [t|]; [|reflexivity].
  repeat match goal with
         | |- context [if ?b then _ else _] => destruct b
         end;
    rewrite ?get_set_str, ?get_remove_str;
    rewrite ?(neq_eqb "mode" k), ?(neq_eqb "type" k) by congruence;
    reflexivity.
Qed.

Lemma keys_convert_incl d x :
  In x (keys (convert_type d)) -> In x (keys d) \/ x = PStr "mode".
Proof.
  unfold convert_type. destruct (get (PStr "type") d) as [t|]; [|now left].
  repeat match goal with
         | |- context [if ?b then _ else _] => destruct b
         end; intro H;
    try (apply keys_set_incl in H; destruct H as [H|H]; [|now right]);
    left; now apply keys_remove_incl in H.
Qed.

Lemma get_rename_to_hint field d k :
  field <> "argument-hint" ->
  get (PStr k) (rename_to_hint field d)
  = match get (PStr field) d with
    | Some v =>
        if String.eqb "argument-hint" k then Some v
        else if String.eqb field k then None
        else get (PStr k) d
    | None => get (PStr k) d
    end.
Proof.
  intro N. unfold rename_to_hint.
  destruct (get (PStr field) d) as [v|]; [|reflexivity].
  now rewrite get_set_str, get_remove_str.
Qed.

(** The lookups after the [args] / [arguments] branch. *)
Lemma get_hint_step d k :
  get (PStr k) (argument_hint_step d)
  = match get (PStr "argument-hint") d with
    | Some h => get (PStr k) d
    | None =>
        match get (PStr "args") d with
        | Some v =>
            if String.eqb "argument-hint" k then Some v
            else if String.eqb "args" k then None
            else get (PStr k) d
        | None =>
            match get (PStr "arguments") d with
            | Some v =>
                if String.eqb "argument-hint" k then Some v
                else if String.eqb "arguments" k then None
                else get (PStr k) d
            | None => get (PStr k) d
            end
        end
    end.
Proof.
  unfold argument_hint_step, mem.
  destruct (get (PStr "argument-hint") d) as [h|] eqn:H.
  - now rewrite !andb_false_r.
  - rewrite !andb_true_r.
    destruct (get (PStr "args") d) as [v|] eqn:A.
    + rewrite get_rename_to_hint by discriminate. now rewrite A.
    + destruct (get (PStr "arguments") d) as [v|] eqn:B; [|reflexivity].
      rewrite get_rename_to_hint by discriminate. now rewrite B.
Qed.

Lemma hint_step_fixed d :
  (get (PStr "argument-hint") d <> None
   \/ (get (PStr "args") d = None /\ get (PStr "arguments") d = None)) ->
  argument_hint_step d = d.
Proof.
  unfold argument_hint_step, mem. intros [H|[A B]].
  - destruct (get (PStr "argument-hint") d); [|congruence].
    now rewrite !andb_false_r.
  - now rewrite A, B.
Qed.

Lemma agent_idem fm result :
  _transform_agent_frontmatter fm = Ok result ->
  _transform_agent_frontmatter result = Ok result.
Proof.
  unfold _transform_agent_frontmatter at 1.
  destruct (_transform_frontmatter fm) as [r1|e] eqn:Run; [|discriminate].
  intro H.
  assert (Hr : result = drop_fields agent_drop_list (convert_type r1))
    by (cbn [bind] in H; now injection H).
  clear H.
  assert (G : forall k, get (PStr k) result
                        = if existsb (String.eqb k) agent_drop_list then None
                          else get (PStr k) (convert_type r1))
    by (intro k; rewrite Hr; apply get_drop_fields).
  clear Hr. unfold _transform_agent_frontmatter.
  rewrite (transform_frontmatter_settles fm r1 result Run).
  - cbn [bind]. f_equal.
    assert (Ty : get (PStr "type") result = None)
      by (rewrite G; apply AgentFacts.get_type_convert).
    unfold convert_type at 1. rewrite Ty.
    apply drop_fields_absent. intros f Hf. rewrite G.
    simpl in Hf. destruct Hf as [<-|[<-|[<-|[<-|[]]]]]; reflexivity.
  - rewrite G. simpl. now apply get_other_convert.
  - rewrite G. simpl. now apply get_other_convert.
Qed.

Lemma command_idem fm result :
  _transform_command_frontmatter fm = Ok result ->
  _transform_command_frontmatter result = Ok result.
Proof.
  rewrite command_unfold.
  destruct (_transform_frontmatter fm) as [r1|e] eqn:Run; [|discriminate].
  intro H.
  assert (Hr : result = drop_fields command_drop_list (argument_hint_step r1))
    by (cbn [bind] in H; now injection H).
  clear H.
  assert (G : forall k, get (PStr k) result
                        = if existsb (String.eqb k) command_drop_list then None
                          else get (PStr k) (argument_hint_step r1))
    by (intro k; rewrite Hr; apply get_drop_fields).
  clear Hr. rewrite command_unfold.
  rewrite (transform_frontmatter_settles fm r1 result Run).
  - cbn [bind]. f_equal. rewrite hint_step_fixed.
    + apply drop_fields_absent. intros f Hf. rewrite G.
      simpl in Hf. destruct Hf as [<-|[<-|[<-|[<-|[]]]]]; reflexivity.
    + rewrite !G. simpl. rewrite !get_hint_step. simpl.
      destruct (get (PStr "argument-hint") r1) as [h|];
        [left; discriminate|].
      destruct (get (PStr "args") r1) as [v|]; [left; discriminate|].
      destruct (get (PStr "arguments") r1) as [v|]; [left; discriminate|].
      right. now split.
  - rewrite G. simpl. now rewrite get_hint_step; simpl;
      repeat match goal with
             | |- context [match ?x with _ => _ end] => destruct x
             end.
  - rewrite G. simpl. now rewrite get_hint_step; simpl;
      repeat match goal with
             | |- context [match ?x with _ => _ end] => destruct x
             end.
Qed.

End RewriteMore.

(** X4: [_transform_frontmatter] keeps the keys of the frontmatter and
    their order, and touches no value but those of [model] and [tools];
    it raises only on a model value that cannot be hashed. *)
Theorem X4_frontmatter_keys_kept (frontmatter : PyDict.dict) :
  match _transform_frontmatter frontmatter with
  | Ok result =>
      PyDict.keys result = PyDict.keys frontmatter
      /\ (forall k, k <> "model" -> k <> "tools" ->
            PyDict.get (PStr k) result = PyDict.get (PStr k) frontmatter)
      /\ PyDict.get (PStr "tools") result
         = option_map _transform_tools_for_opencode
                      (PyDict.get (PStr "tools") frontmatter)
  | Raise e =>
      exists m, PyDict.get (PStr "model") frontmatter = Some m
                /\ str_of_scalar m = None
  end.
Proof.
  pose proof (FrontmatterFacts.transform_frontmatter_cases frontmatter) as C.
  destruct (_transform_frontmatter frontmatter) as [result|e] eqn:Run;
    [|exact C].
  destruct (FrontmatterMore.transform_frontmatter_shape _ _ Run) as [K T].
  destruct C as [O _]. now repeat split.
Qed.

(** X5: the three frontmatter rewrites are idempotent: a frontmatter
    that one of them returned is returned unchanged by the same rewrite. *)
Theorem X5_rewrites_idempotent (frontmatter : PyDict.dict) :
  (forall result, _transform_frontmatter frontmatter = Ok result ->
                  _transform_frontmatter result = Ok result)
  /\ (forall result, _transform_agent_frontmatter frontmatter = Ok result ->
                     _transform_agent_frontmatter result = Ok result)
  /\ (forall result, _transform_command_frontmatter frontmatter = Ok result ->
                     _transform_command_frontmatter result = Ok result).
Proof.
  repeat split.
  - intros result Run.
    now apply (FrontmatterMore.transform_frontmatter_settles frontmatter result).
  - apply RewriteMore.agent_idem.
  - apply RewriteMore.command_idem.
Qed.

Lemma X5_rewrites_idempotent_witness :
  _transform_agent_frontmatter
    [(PStr "model", PStr "anthropic/claude-opus-4-5");
     (PStr "tools", PList [PStr "bash"]); (PStr "mode", PStr "subagent")]
  = Ok [(PStr "model", PStr "anthropic/claude-opus-4-5");
        (PStr "tools", PList [PStr "bash"]); (PStr "mode", PStr "subagent")].
Proof.
  destruct (X5_rewrites_idempotent
              [(PStr "model", PStr "opus"); (PStr "type", PStr "subagent");
               (PStr "tools", PList [PStr "Bash"; PStr "bash"]);
               (PStr "version", PStr "1.0")]) as [_ [Hagent _]].
  apply Hagent. reflexivity.
Defined.

(** X6: the agent rewrite loses nothing but what it names.  A field
    other than [model], [tools], [type], [mode] and the four dropped
    fields keeps its value, and every key of the result is a key of the
    input or [mode].  A [type] that is neither ["subagent"] nor
    ["primary"] is removed without a [mode] taking its place. *)
Theorem X6_agent_fields_kept (frontmatter : PyDict.dict) :
  match _transform_agent_frontmatter frontmatter with
  | Ok result =>
      (forall k,
         existsb (String.eqb k)
                 ("model" :: "tools" :: "type" :: "mode" :: agent_drop_list)
         = false ->
         PyDict.get (PStr k) result = PyDict.get (PStr k) frontmatter)
      /\ (forall k, In k (PyDict.keys result) ->
                    In k (PyDict.keys frontmatter) \/ k = PStr "mode")
      /\ (forall t,
            PyDict.get (PStr "type") frontmatter = Some t ->
            t <> PStr "subagent" -> t <> PStr "primary" ->
            PyDict.get (PStr "type") result = None
            /\ PyDict.get (PStr "mode") result
               = PyDict.get (PStr "mode") frontmatter)
  | Raise e =>
      exists m, PyDict.get (PStr "model") frontmatter = Some m
                /\ str_of_scalar m = None
  end.
Proof.
  unfold _transform_agent_frontmatter.
  pose proof (FrontmatterFacts.transform_frontmatter_cases frontmatter) as C.
  destruct (_transform_frontmatter frontmatter) as [r1|e] eqn:Run;
    cbn [bind]; [|exact C].
  destruct C as [O _].
  destruct (FrontmatterMore.transform_frontmatter_shape _ _ Run) as [K _].
  split; [|split].
  - intros k Hk. rewrite FrontmatterFacts.get_drop_fields.
    simpl in Hk. repeat (apply orb_false_elim in Hk; destruct Hk as [? Hk]).
    simpl.
    repeat match goal with
           | H : String.eqb k _ = false |- _ =>
               rewrite H; apply String.eqb_neq in H
           end.
    repeat match goal with
           | H : String.eqb k _ = false |- _ => apply String.eqb_neq in H
           end.
    simpl. rewrite RewriteMore.get_other_convert by assumption.
    now apply O.
  - intros k Hk. apply FrontmatterMore.keys_drop_fields_incl in Hk.
    apply RewriteMore.keys_convert_incl in Hk. now rewrite K in Hk.
  - intros t Ht N1 N2. rewrite !FrontmatterFacts.get_drop_fields. simpl.
    split; [apply AgentFacts.get_type_convert|].
    rewrite AgentFacts.get_mode_convert.
    rewrite !O by discriminate. rewrite Ht.
    destruct (PyDict.get (PStr "mode") frontmatter); [reflexivity|].
    assert (S1 : str_eq_val "subagent" t = false).
    { destruct t; try reflexivity. simpl. apply String.eqb_neq. congruence. }
    assert (S2 : str_eq_val "primary" t = false).
    { destruct t; try reflexivity. simpl. apply String.eqb_neq. congruence. }
    now rewrite S1, S2.
Qed.

(** X7: the command rewrite.  [name], [version], [type] and [tags] are
    removed.  Without an [argument-hint], [args] becomes the
    [argument-hint] and [arguments] stays where it is; without [args],
    [arguments] becomes it.  With an [argument-hint] already there, it is
    kept and [args] and [arguments] both stay in the result. *)
Theorem X7_command_rewrite (frontmatter : PyDict.dict) :
  match _transform_command_frontmatter frontmatter with
  | Ok result =>
      (PyDict.get (PStr "name") result = None
       /\ PyDict.get (PStr "version") result = None
       /\ PyDict.get (PStr "type") result = None
       /\ PyDict.get (PStr "tags") result = None)
      /\ (forall v,
            PyDict.get (PStr "argument-hint") frontmatter = None ->
            PyDict.get (PStr "args") frontmatter = Some v ->
            PyDict.get (PStr "argument-hint") result = Some v
            /\ PyDict.get (PStr "args") result = None
            /\ PyDict.get (PStr "arguments") result
               = PyDict.get (PStr "arguments") frontmatter)
      /\ (forall v,
            PyDict.get (PStr "argument-hint") frontmatter = None ->
            PyDict.get (PStr "args") frontmatter = None ->
            PyDict.get (PStr "arguments") frontmatter = Some v ->
            PyDict.get (PStr "argument-hint") result = Some v
            /\ PyDict.get (PStr "arguments") result = None)
      /\ (forall h,
            PyDict.get (PStr "argument-hint") frontmatter = Some h ->
            PyDict.get (PStr "argument-hint") result = Some h
            /\ PyDict.get (PStr "args") result
               = PyDict.get (PStr "args") frontmatter
            /\ PyDict.get (PStr "arguments") result
               = PyDict.get (PStr "arguments") frontmatter)
  | Raise e =>
      exists m, PyDict.get (PStr "model") frontmatter = Some m
                /\ str_of_scalar m = None
  end.
Proof.
  rewrite RewriteMore.command_unfold.
  pose proof (FrontmatterFacts.transform_frontmatter_cases frontmatter) as C.
  destruct (_transform_frontmatter frontmatter) as [r1|e] eqn:Run;
    cbn [bind]; [|exact C].
  destruct C as [O _].
  assert (Oh : PyDict.get (PStr "argument-hint") r1
               = PyDict.get (PStr "argument-hint") frontmatter)
    by (apply O; discriminate).
  assert (Oa : PyDict.get (PStr "args") r1
               = PyDict.get (PStr "args") frontmatter)
    by (apply O; discriminate).
  assert (Ob : PyDict.get (PStr "arguments") r1
               = PyDict.get (PStr "arguments") frontmatter)
    by (apply O; discriminate).
  split; [|split; [|split]].
  - repeat split; now rewrite FrontmatterFacts.get_drop_fields.
  - intros v Hh Ha.
    rewrite !FrontmatterFacts.get_drop_fields, !RewriteMore.get_hint_step.
    rewrite Oh, Oa, Ob, Hh, Ha. simpl. now repeat split.
  - intros v Hh Ha Hb.
    rewrite !FrontmatterFacts.get_drop_fields, !RewriteMore.get_hint_step.
    rewrite Oh, Oa, Ob, Hh, Ha, Hb. simpl. now split.
  - intros h Hh.
    rewrite !FrontmatterFacts.get_drop_fields, !RewriteMore.get_hint_step.
    rewrite Oh, Oa, Ob, Hh. simpl. now repeat split.
Qed.

(** ** The hook rewrite, once more *)

Module HookMore.
Import PyStr PyStrFacts HookFacts.

Lemma not_contains_longer p q s :
  contains p q = true -> contains p s = false -> contains q s = false.
Proof.
  intros Hpq Hp. destruct (contains q s) eqn:K; [|reflexivity].
  rewrite (contains_trans p q s Hpq K) in Hp. discriminate Hp.
Qed.

Lemma replace_absent c0 old' new s :
  contains (String c0 old') s = false -> replace (String c0 old') new s = s.
Proof. apply replace_scan_absent. Qed.

(** A content without a placeholder root is returned as it is. *)
Lemma hook_untouched s :
  contains braced_root s = false -> contains bare_root s = false ->
  transform_hook s = s.
Proof.
  intros Hb Hu. unfold transform_hook.
  rewrite (replace_absent _ _ _ s)
    by (apply (not_contains_longer braced_root); [reflexivity | exact Hb]).
  rewrite (replace_absent _ _ _ s)
    by (apply (not_contains_longer bare_root); [reflexivity | exact Hu]).
  rewrite (replace_absent _ _ _ s) by exact Hb.
  now rewrite (replace_absent _ _ _ s) by exact Hu.
Qed.

End HookMore.

(** X8: [transform_hook] returns a content unchanged exactly when the
    content holds no placeholder root, braced or unbraced. *)
Theorem X8_hook_unchanged_iff (hook_content : string) :
  transform_hook hook_content = hook_content
  <-> (PyStr.contains braced_root hook_content = false
       /\ PyStr.contains bare_root hook_content = false).
Proof.
  split.
  - intro E. rewrite <- E. split.
    + apply HookFacts.hook_no_braced_root.
    + apply HookFacts.hook_no_bare_root.
  - intros [Hb Hu]. now apply HookMore.hook_untouched.
Qed.

(** X9: [transform_hook] is idempotent: a rewritten hook is rewritten to
    itself. *)
Theorem X9_hook_idempotent (hook_content : string) :
  transform_hook (transform_hook hook_content) = transform_hook hook_content.
Proof.
  apply HookMore.hook_untouched.
  - apply HookFacts.hook_no_braced_root.
  - apply HookFacts.hook_no_bare_root.
Qed.

(** ** Install path and configuration path, once more *)

Module PathMore.

Lemma parts_prefix_last (a : Path) x y :
  parts_prefix (a ++ [x])%list (a ++ [y])%list = String.eqb x y.
Proof.
  induction a as [|p a IH]; simpl.
  - now rewrite andb_true_r.
  - now rewrite String.eqb_refl.
Qed.

(** On an adapter without a memo the call memoizes what it returns. *)
Lemma get_install_path_memo os self p self' log :
  get_install_path os self = Ok (p, self', log) ->
  _install_path self' = Some p.
Proof.
  unfold get_install_path.
  destruct (_install_path self) as [q|] eqn:M.
  - intros [= <- <- <-]. exact M.
  - destruct (configured_path self) as [text|e]; [|discriminate].
    cbn [bind].
    destruct (expanduser os text) as [env_path|e]; [|discriminate].
    cbn [bind].
    destruct (checked_override os env_path) as [[chosen log']|e];
      [|discriminate].
    cbn [bind]. intros [= <- <- <-]. reflexivity.
Qed.

(** The override branch raises exactly what the resolution raises, in
    the order of the calls. *)
Lemma checked_override_raises os env_path override e :
  environ os "OPENCODE_CONFIG_PATH" = Some override ->
  override <> "" ->
  checked_override os env_path = Raise e
  <-> (expanduser os override = Raise e
       \/ exists expanded,
            expanduser os override = Ok expanded
            /\ (resolve os expanded = Raise e
                \/ exists candidate,
                     resolve os expanded = Ok candidate
                     /\ (home_dir os = Raise e
                         \/ exists user_home,
                              home_dir os = Ok user_home
                              /\ resolve os user_home = Raise e))).
Proof.
  intros Henv Hne. unfold checked_override. rewrite Henv.
  destruct override as [|c r]; [congruence|].
  destruct (expanduser os (String c r)) as [expanded|e1] eqn:E1; cbn [bind].
  2:{ split; [intros [= <-]; now left|].
      intro H. decompose [or ex and] H; congruence. }
  destruct (resolve os expanded) as [candidate|e2] eqn:R1; cbn [bind].
  2:{ split.
      - intros [= <-]. right. exists expanded. split; [reflexivity|].
        now left.
      - intro H. decompose [or ex and] H; congruence. }
  destruct (home_dir os) as [user_home|e3] eqn:H1; cbn [bind].
  2:{ split.
      - intros [= <-]. right. exists expanded. split; [reflexivity|].
        right. exists candidate. split; [exact R1|]. now left.
      - intro H. decompose [or ex and] H; congruence. }
  destruct (resolve os user_home) as [home|e4] eqn:R2; cbn [bind].
  - split.
    + destruct (relative_to candidate home); discriminate.
    + intro H. decompose [or ex and] H; congruence.
  - split.
    + intros [= <-]. right. exists expanded. split; [reflexivity|].
      right. exists candidate. split; [exact R1|]. right.
      exists user_home. now split.
    + intro H. decompose [or ex and] H; congruence.
Qed.

End PathMore.

(** X10: the install path is computed once.  Whatever a call returned,
    every later call on the adapter it left returns the same path and
    logs nothing, in any environment. *)
Theorem X10_install_path_memoized (os os' : os_env) (self self' : adapter)
    (path : Path) (log : list log_record) :
  get_install_path os self = Ok (path, self', log) ->
  get_install_path os' self' = Ok (path, self', []).
Proof.
  intro Run. apply PathMore.get_install_path_memo in Run.
  unfold get_install_path. now rewrite Run.
Qed.

Lemma X10_install_path_memoized_witness :
  get_install_path (example_os (Some "/etc/opencode"))
    {| config := [];
       _install_path := Some ["/"; "home"; "user"; "work"; "opencode"] |}
  = Ok (["/"; "home"; "user"; "work"; "opencode"],
        {| config := [];
           _install_path := Some ["/"; "home"; "user"; "work"; "opencode"] |},
        []).
Proof.
  apply (X10_install_path_memoized (example_os (Some "~/work/opencode")) _
           fresh_adapter _ _ []).
  reflexivity.
Defined.

(** X11: without an override, that is, with the variable unset or empty,
    an adapter without a memo answers from the platform configuration
    alone: the configured [install_path], or [~/.config/opencode] when none
    is configured, with its [~] expanded, is returned and memoized and
    nothing is logged; what [expanduser] raises is raised.  A configured
    [install_path] that is no string raises [TypeError], override or
    not. *)
Theorem X11_install_path_default (os : os_env) (self : adapter) :
  _install_path self = None ->
  let answer text :=
    match expanduser os text with
    | Ok path =>
        Ok (path, {| config := config self; _install_path := Some path |}, [])
    | Raise e => Raise e
    end in
  (environ os "OPENCODE_CONFIG_PATH" = None
   \/ environ os "OPENCODE_CONFIG_PATH" = Some "" ->
   get_install_path os self
   = match PyDict.get (PStr "install_path") (config self) with
     | Some (PStr text) => answer text
     | Some _ => Raise TypeError
     | None => answer "~/.config/opencode"
     end)
  /\ (forall v,
        PyDict.get (PStr "install_path") (config self) = Some v ->
        is_str v = false ->
        get_install_path os self = Raise TypeError).
Proof.
  intros M answer. split.
  - intro E. unfold get_install_path, configured_path, checked_override.
    rewrite M.
    assert (Step : forall text,
      (env_path <- expanduser os text ;;
       checked <- match environ os "OPENCODE_CONFIG_PATH" with
                  | Some (String c r as override) =>
                      expanded <- expanduser os override ;;
                      candidate <- resolve os expanded ;;
                      home <- home_dir os ;;
                      home <- resolve os home ;;
                      if relative_to candidate home
                      then Ok (candidate, [])
                      else Ok (env_path, [override_warning override])
                  | Some EmptyString | None => Ok (env_path, [])
                  end ;;
       let '(env_path, log) := checked in
       Ok (env_path,
           {| config := config self; _install_path := Some env_path |}, log))
      = answer text).
    { intro text. unfold answer.
      destruct (expanduser os text); cbn [bind]; [|reflexivity].
      destruct E as [-> | ->]; reflexivity. }
    destruct (PyDict.get (PStr "install_path") (config self)) as [v|];
      cbn [bind]; [|apply Step].
    destruct v; try reflexivity. apply Step.
  - intros v G S. unfold get_install_path, configured_path.
    rewrite M, G. destruct v; try reflexivity. discriminate S.
Qed.

Lemma X11_install_path_default_witness :
  get_install_path (example_os (Some ""))
    {| config := [(PStr "install_path", PStr "/opt/ring/opencode")];
       _install_path := None |}
  = Ok (["/"; "opt"; "ring"; "opencode"],
        {| config := [(PStr "install_path", PStr "/opt/ring/opencode")];
           _install_path := Some ["/"; "opt"; "ring"; "opencode"] |},
        [])
  /\ get_install_path (example_os None) fresh_adapter
     = Ok (["/"; "home"; "user"; ".config"; "opencode"],
           {| config := [];
              _install_path :=
                Some ["/"; "home"; "user"; ".config"; "opencode"] |},
           [])
  /\ get_install_path (example_os None)
       {| config := [(PStr "install_path", PStr "~nobody/opencode")];
          _install_path := None |}
     = Raise RuntimeError.
Proof.
  split; [|split].
  - destruct (X11_install_path_default (example_os (Some ""))
                {| config := [(PStr "install_path", PStr "/opt/ring/opencode")];
                   _install_path := None |} eq_refl) as [Hdefault _].
    exact (Hdefault (or_intror eq_refl)).
  - destruct (X11_install_path_default (example_os None) fresh_adapter
                eq_refl) as [Hdefault _].
    exact (Hdefault (or_introl eq_refl)).
  - destruct (X11_install_path_default (example_os None)
                {| config := [(PStr "install_path", PStr "~nobody/opencode")];
                   _install_path := None |} eq_refl) as [Hdefault _].
    exact (Hdefault (or_introl eq_refl)).
Defined.

(** X27: nothing of the resolution of an override is caught.  With an
    override present on an adapter without a memo, the call raises
    exactly when one of [expanduser] of the override, [resolve] of the
    result, [Path.home] and [resolve] of the home directory raises, in
    this order, and it raises what that call raised; the handler of the
    [try] only takes the [ValueError] of [relative_to]. *)
Theorem X27_install_path_raises (os : os_env) (self : adapter)
    (default override : string) (default_path : Path) (e : exn) :
  _install_path self = None ->
  (PyDict.get (PStr "install_path") (config self) = Some (PStr default)
   \/ (PyDict.get (PStr "install_path") (config self) = None
       /\ default = "~/.config/opencode")) ->
  expanduser os default = Ok default_path ->
  environ os "OPENCODE_CONFIG_PATH" = Some override ->
  override <> "" ->
  get_install_path os self = Raise e
  <-> (expanduser os override = Raise e
       \/ exists expanded,
            expanduser os override = Ok expanded
            /\ (resolve os expanded = Raise e
                \/ exists candidate,
                     resolve os expanded = Ok candidate
                     /\ (home_dir os = Raise e
                         \/ exists user_home,
                              home_dir os = Ok user_home
                              /\ resolve os user_home = Raise e))).
Proof.
  intros M Hconfig Hdefault Henv Hne.
  rewrite <- (PathMore.checked_override_raises os default_path override e
                Henv Hne).
  unfold get_install_path, configured_path. rewrite M.
  assert (C : match PyDict.get (PStr "install_path") (config self) with
              | Some (PStr text) => Ok text
              | Some _ => Raise TypeError
              | None => Ok "~/.config/opencode"
              end = Ok default)
    by (destruct Hconfig as [-> | [-> ->]]; reflexivity).
  rewrite C. cbn [bind]. rewrite Hdefault. cbn [bind].
  destruct (checked_override os default_path) as [[chosen log]|e'];
    cbn [bind]; [split; discriminate | split; intros [= <-]; reflexivity].
Qed.

Lemma X27_install_path_raises_witness :
  get_install_path (example_os (Some "~nobody/opencode")) fresh_adapter
  = Raise RuntimeError.
Proof.
  assert (N : "~nobody/opencode" <> "") by discriminate.
  apply (X27_install_path_raises (example_os (Some "~nobody/opencode"))
           fresh_adapter "~/.config/opencode" "~nobody/opencode"
           ["/"; "home"; "user"; ".config"; "opencode"] RuntimeError
           eq_refl (or_intror (conj eq_refl eq_refl)) eq_refl eq_refl N).
  left. reflexivity.
Defined.

(** ** The merge, once more *)

Module MergeMore.
Import PyDict PyDictFacts MergeFacts.

Lemma merge_events_raise entries e :
  fold_left (fun acc entry => existing_config <- acc ;;
                              merge_event existing_config entry)
            entries (Raise e) = Raise e.
Proof. induction entries as [|x r IH]; [reflexivity | exact IH]. Qed.

(** The merge into a configuration of the expected shape, with the shape
    of what it returns. *)
Lemma merge_into_shape existing_config hooks hooks_config entries :
  existing_hooks existing_config = Some hooks ->
  all_lists hooks = true ->
  hooks_to_merge hooks_config = PDict entries ->
  entries_ok entries = true ->
  exists merged merged_hooks,
    merge_into (PDict existing_config) hooks_config = Ok (PDict merged)
    /\ existing_hooks merged = Some merged_hooks
    /\ all_lists merged_hooks = true
    /\ (forall event,
          get (PStr event) merged_hooks = merged_list hooks entries event).
Proof.
  intros Hex A Hin Hok. unfold merge_into, ensure_hooks, py_contains, mem.
  rewrite Hin. unfold existing_hooks in Hex.
  destruct (get (PStr "hooks") existing_config) as [h|] eqn:G; cbn [bind].
  - destruct h; try discriminate Hex. injection Hex as ->.
    destruct (merge_events_spec entries existing_config hooks G A Hok)
      as [cfg' [hooks' [Run [Hh [A' [Gall _]]]]]].
    exists cfg', hooks'. unfold existing_hooks. rewrite Hh. now repeat split.
  - injection Hex as <-. cbn [py_setitem bind].
    destruct (merge_events_spec entries
                (set (PStr "hooks") (PDict []) existing_config) [])
      as [cfg' [hooks' [Run [Hh [A' [Gall _]]]]]];
      [now rewrite get_set_str | reflexivity | exact Hok |].
    exists cfg', hooks'. unfold existing_hooks. rewrite Hh. now repeat split.
Qed.

Lemma incoming_for_app event a b :
  incoming_for event (a ++ b)
  = (incoming_for event a ++ incoming_for event b)%list.
Proof.
  induction a as [|[k v] r IH]; simpl; [reflexivity|].
  destruct k; try exact IH. destruct v; try exact IH.
  destruct (String.eqb s event); [|exact IH].
  now rewrite IH, app_assoc.
Qed.

Lemma has_entry_app event a b :
  has_entry event (a ++ b) = has_entry event a || has_entry event b.
Proof. apply existsb_app. Qed.

Lemma incoming_for_none event l :
  has_entry event l = false -> incoming_for event l = [].
Proof.
  induction l as [|[k v] r IH]; [reflexivity|].
  unfold has_entry. simpl. intro E. apply orb_false_elim in E.
  destruct E as [Ek Er]. destruct k; try (now apply IH).
  simpl in Ek. destruct v; try (now apply IH).
  rewrite Ek. now apply IH.
Qed.

(** Merging [b] into the lists that the merge of [a] left gives the
    lists of the merge of [a] followed by [b]. *)
Lemma merged_list_app hooks hooks1 a b event :
  all_lists hooks = true ->
  (forall ev, get (PStr ev) hooks1 = merged_list hooks a ev) ->
  merged_list hooks1 b event = merged_list hooks (a ++ b)%list event.
Proof.
  intros A H. unfold merged_list at 1. rewrite H. unfold merged_list.
  rewrite incoming_for_app, has_entry_app.
  destruct (get (PStr event) hooks) as [w|] eqn:G.
  - pose proof (get_all_lists _ _ _ A G) as L.
    destruct w; try discriminate L. now rewrite app_assoc.
  - destruct (has_entry event a) eqn:E; simpl; [reflexivity|].
    now rewrite (incoming_for_none _ _ E).
Qed.

(** The keys after [d[k] = v] begin with the keys before. *)
Lemma keys_set_prefix k v d :
  exists added, keys (set k v d) = (keys d ++ added)%list.
Proof.
  unfold keys. induction d as [|[k' w] r IH]; simpl.
  - now exists [k].
  - destruct (key_eqb k' k); simpl.
    + exists []. now rewrite app_nil_r.
    + destruct IH as [added E]. exists added. now rewrite E.
Qed.

Lemma merge_event_keys cfg hooks entry next :
  get (PStr "hooks") cfg = Some (PDict hooks) ->
  merge_event (PDict cfg) entry = Ok next ->
  exists cfg' hooks' added,
    next = PDict cfg'
    /\ keys cfg' = keys cfg
    /\ get (PStr "hooks") cfg' = Some (PDict hooks')
    /\ keys hooks' = (keys hooks ++ added)%list.
Proof.
  intros Hh. destruct entry as [event_name event_hooks].
  unfold merge_event, py_getitem. rewrite Hh. cbn [bind].
  set (h1 := if mem event_name hooks then hooks
             else set event_name (PList []) hooks).
  assert (K1 : exists a1, keys h1 = (keys hooks ++ a1)%list).
  { subst h1. destruct (mem event_name hooks).
    - exists []. now rewrite app_nil_r.
    - apply keys_set_prefix. }
  destruct (get event_name h1) as [[| | | |current|]|]; try discriminate.
  destruct (py_iter event_hooks) as [added|e]; [|discriminate].
  cbn [bind py_setitem]. intros [= <-].
  destruct K1 as [a1 K1].
  destruct (keys_set_prefix event_name (PList (current ++ added)) h1)
    as [a2 K2].
  eexists _, _, (a1 ++ a2)%list. split; [reflexivity|].
  split; [now apply FrontmatterMore.keys_set_present with (PDict hooks)|].
  split; [now rewrite get_set_str|].
  now rewrite K2, K1, app_assoc.
Qed.

Lemma merge_events_keys entries : forall cfg hooks merged,
  get (PStr "hooks") cfg = Some (PDict hooks) ->
  merge_events (PDict cfg) entries = Ok merged ->
  exists cfg' hooks' added,
    merged = PDict cfg'
    /\ keys cfg' = keys cfg
    /\ get (PStr "hooks") cfg' = Some (PDict hooks')
    /\ keys hooks' = (keys hooks ++ added)%list.
Proof.
  induction entries as [|entry r IH]; intros cfg hooks merged Hh Run.
  - injection Run as <-. exists cfg, hooks, []. rewrite app_nil_r.
    now repeat split.
  - rewrite merge_events_cons in Run.
    destruct (merge_event (PDict cfg) entry) as [next|e] eqn:Step;
      [|discriminate Run].
    cbn [bind] in Run.
    destruct (merge_event_keys cfg hooks entry next Hh Step)
      as [cfg1 [hooks1 [a1 [-> [K1 [Hh1 Kh1]]]]]].
    destruct (IH cfg1 hooks1 merged Hh1 Run)
      as [cfg' [hooks' [a2 [-> [K2 [Hh2 Kh2]]]]]].
    exists cfg', hooks', (a1 ++ a2)%list. split; [reflexivity|].
    split; [congruence|]. split; [exact Hh2|].
    now rewrite Kh2, Kh1, app_assoc.
Qed.

(** Whatever the [hooks] value is, a turn that returns leaves the keys
    of the configuration as they are. *)
Lemma merge_event_keys_any cfg entry next :
  merge_event (PDict cfg) entry = Ok next ->
  exists cfg' h h',
    next = PDict cfg'
    /\ keys cfg' = keys cfg
    /\ get (PStr "hooks") cfg = Some h
    /\ get (PStr "hooks") cfg' = Some h'.
Proof.
  destruct entry as [event_name event_hooks].
  unfold merge_event, py_getitem.
  destruct (get (PStr "hooks") cfg) as [h|] eqn:Hh; [|discriminate].
  cbn [bind].
  assert (Put : forall v,
            PDict (set (PStr "hooks") v cfg) = next ->
            exists cfg' h0 h',
              next = PDict cfg'
              /\ keys cfg' = keys cfg
              /\ Some h = Some h0
              /\ get (PStr "hooks") cfg' = Some h').
  { intros v <-. exists (set (PStr "hooks") v cfg), h, v.
    split; [reflexivity|].
    split; [now apply FrontmatterMore.keys_set_present with h|].
    split; [reflexivity|]. now rewrite get_set_str. }
  destruct h as [| | | |items|hooks]; try discriminate.
  - destruct (num_of event_name) as [z|]; [|discriminate].
    destruct (if existsb (fun item => key_eqb item event_name) items
              then Ok items
              else match list_index z (List.length items) with
                   | Some i => Ok (list_set i (PList []) items)
                   | None => Raise IndexError
                   end) as [items1|e]; [|discriminate].
    cbn [bind].
    destruct (list_index z (List.length items1)) as [i|]; [|discriminate].
    destruct (nth_error items1 i) as [[| | | |current|]|]; try discriminate.
    destruct (py_iter event_hooks) as [added|e];
      [|cbn [bind]; discriminate].
    cbn [bind py_setitem]. intros [= E]. now apply Put in E.
  - set (h1 := if mem event_name hooks then hooks
               else set event_name (PList []) hooks).
    destruct (get event_name h1) as [[| | | |current|]|]; try discriminate.
    destruct (py_iter event_hooks) as [added|e];
      [|cbn [bind]; discriminate].
    cbn [bind py_setitem]. intros [= E]. now apply Put in E.
Qed.

Lemma merge_events_keys_any entries : forall cfg merged,
  merge_events (PDict cfg) entries = Ok merged ->
  exists cfg', merged = PDict cfg' /\ keys cfg' = keys cfg.
Proof.
  induction entries as [|entry r IH]; intros cfg merged Run.
  - injection Run as <-. now exists cfg.
  - rewrite merge_events_cons in Run.
    destruct (merge_event (PDict cfg) entry) as [next|e] eqn:Step;
      [|discriminate Run].
    cbn [bind] in Run.
    destruct (merge_event_keys_any cfg entry next Step)
      as [cfg1 [h [h1 [-> [K1 _]]]]].
    destruct (IH cfg1 merged Run) as [cfg' [-> K2]].
    exists cfg'. split; [reflexivity | congruence].
Qed.

End MergeMore.

(** X12: [get_config_path] answers [opencode.jsonc] when something
    exists at that path and [opencode.json] otherwise, and raises [OSError]
    when the path cannot be examined.  [merge_hooks_to_config] does not
    ask it: it always works on [opencode.json].  It never changes
    [opencode.jsonc]; what it merges into is what it read from
    [opencode.json], and when it returns true [opencode.json] holds the
    serialisation of that merged configuration. *)
Theorem X12_config_path_and_merge_target (os : os_env) (json : json_lib)
    (self self' : adapter) (d : disk) (hooks_config : PyDict.dict)
    (base : Path) (log0 : list log_record) :
  get_install_path os self = Ok (base, self', log0) ->
  let jsonc_path := (base ++ ["opencode.jsonc"])%list in
  let json_path := (base ++ ["opencode.json"])%list in
  get_config_path os d self
  = match file_at d jsonc_path with
    | Inaccessible => Raise OSError
    | Missing =>
        Ok (if dir_at d jsonc_path then jsonc_path else json_path, self', log0)
    | Unreadable | Contents _ => Ok (jsonc_path, self', log0)
    end
  /\ forall outcome,
       merge_hooks_to_config os json self d hooks_config false None
       = Ok outcome ->
       file_at (disk_after outcome) jsonc_path = file_at d jsonc_path
       /\ exists existing log1 merged,
            read_existing json d json_path = Ok (existing, log1)
            /\ merge_into existing hooks_config = Ok merged
            /\ (returned outcome = true ->
                exists text,
                  json_dumps json merged = Some text
                  /\ file_at (disk_after outcome) json_path = Contents text).
Proof.
  intros Run jsonc_path json_path. split.
  - unfold get_config_path, path_exists. rewrite Run. cbn [bind].
    fold jsonc_path json_path.
    destruct (file_at d jsonc_path); cbn [bind]; try reflexivity.
    now destruct (dir_at d jsonc_path).
  - intros outcome Call.
    destruct (MergeClaims.merge_hooks_returns _ _ _ _ _ _ _ _ Call)
      as [base' [self1 [log' [existing [log1 [merged
            [Hloc [Hread [Hmerge [_ [Hret [Hdisk _]]]]]]]]]]]].
    cbn [locate] in Hloc. rewrite Run in Hloc.
    injection Hloc as <- <- <-. fold json_path in Hread, Hret, Hdisk.
    cbn [orb] in Hret. split.
    + rewrite Hdisk. apply MergeClaims.write_config_elsewhere.
      unfold path_eqb. subst json_path jsonc_path.
      now rewrite PathMore.parts_prefix_last.
    + exists existing, log1, merged.
      split; [exact Hread|]. split; [exact Hmerge|].
      intro T. rewrite Hret in T.
      destruct (MergeClaims.write_config_written _ _ _ _ _ T)
        as [text [Hdumps Hafter]].
      exists text. split; [exact Hdumps|].
      rewrite Hdisk, Hafter. apply MergeClaims.file_at_written.
Qed.

(** The configuration lives in [opencode.jsonc]; the merge does not read
    it and writes its hooks next to it. *)
Lemma X12_config_path_and_merge_target_witness :
  get_config_path (example_os None)
    (disk_with ["/"; "home"; "user"; ".config"; "opencode"; "opencode.jsonc"]
               "{'hooks': {'PreToolUse': ['Y']}}" Written)
    fresh_adapter
  = Ok (["/"; "home"; "user"; ".config"; "opencode"; "opencode.jsonc"],
        {| config := [];
           _install_path := Some ["/"; "home"; "user"; ".config"; "opencode"] |},
        [])
  /\ exists outcome,
       merge_hooks_to_config (example_os None) literal_json fresh_adapter
         (disk_with
            ["/"; "home"; "user"; ".config"; "opencode"; "opencode.jsonc"]
            "{'hooks': {'PreToolUse': ['Y']}}" Written)
         [(PStr "PreToolUse", PList [PStr "X"])] false None
       = Ok outcome
       /\ file_at (disk_after outcome)
            ["/"; "home"; "user"; ".config"; "opencode"; "opencode.jsonc"]
          = Contents "{'hooks': {'PreToolUse': ['Y']}}"
       /\ file_at (disk_after outcome)
            ["/"; "home"; "user"; ".config"; "opencode"; "opencode.json"]
          = Contents "{'hooks': {'PreToolUse': ['X']}}".
Proof.
  destruct (X12_config_path_and_merge_target (example_os None) literal_json
              fresh_adapter
              {| config := [];
                 _install_path :=
                   Some ["/"; "home"; "user"; ".config"; "opencode"] |}
              (disk_with
                 ["/"; "home"; "user"; ".config"; "opencode"; "opencode.jsonc"]
                 "{'hooks': {'PreToolUse': ['Y']}}" Written)
              [(PStr "PreToolUse", PList [PStr "X"])]
              ["/"; "home"; "user"; ".config"; "opencode"] [] eq_refl)
    as [Hpath Hmerge].
  split; [vm_compute in Hpath; vm_compute; exact Hpath|].
  exists {| returned := true;
            adapter_after :=
              {| config := [];
                 _install_path :=
                   Some ["/"; "home"; "user"; ".config"; "opencode"] |};
            disk_after :=
              write_text
                (mkdir_parents
                   (disk_with
                      ["/"; "home"; "user"; ".config"; "opencode";
                       "opencode.jsonc"]
                      "{'hooks': {'PreToolUse': ['Y']}}" Written)
                   ["/"; "home"; "user"; ".config"; "opencode"] 5)
                ["/"; "home"; "user"; ".config"; "opencode"; "opencode.json"]
                "{'hooks': {'PreToolUse': ['X']}}";
            logged := [] |}.
  match goal with
  | |- ?call = Ok ?o /\ _ =>
      assert (Call : call = Ok o) by (vm_compute; reflexivity)
  end.
  split; [exact Call|].
  destruct (Hmerge _ Call)
    as [Hjsonc [existing [log1 [merged [Hread [Hrun Hjson]]]]]].
  split; [vm_compute in Hjsonc; vm_compute; exact Hjsonc|].
  destruct (Hjson eq_refl) as [text [Hdumps Hfile]].
  vm_compute in Hread. injection Hread as <- _.
  vm_compute in Hrun. injection Hrun as <-.
  vm_compute in Hdumps. injection Hdumps as <-.
  vm_compute in Hfile. vm_compute. exact Hfile.
Defined.

(** X13: a dry run never touches the disk: when it returns, it returns
    true, the disk is the one it was given and the dry-run line is
    logged.  It raises exactly when the call that writes raises. *)
Theorem X13_dry_run (os : os_env) (json : json_lib) (self : adapter)
    (d : disk) (hooks_config : PyDict.dict) (install_path : option Path) :
  match merge_hooks_to_config os json self d hooks_config true install_path with
  | Ok outcome =>
      returned outcome = true
      /\ disk_after outcome = d
      /\ In dry_run_info (logged outcome)
  | Raise e =>
      merge_hooks_to_config os json self d hooks_config false install_path
      = Raise e
  end
  /\ forall e,
       merge_hooks_to_config os json self d hooks_config false install_path
       = Raise e ->
       merge_hooks_to_config os json self d hooks_config true install_path
       = Raise e.
Proof.
  unfold merge_hooks_to_config.
  destruct (locate os self install_path) as [[[base self'] log0]|e];
    cbn [bind]; [|split; [reflexivity | now intros]].
  destruct (read_existing json d (base ++ ["opencode.json"])%list)
    as [[existing log1]|e]; cbn [bind];
    [|split; [reflexivity | now intros]].
  destruct (merge_into existing hooks_config) as [merged|e]; cbn [bind];
    [|split; [reflexivity | now intros]].
  split.
  - cbn [returned disk_after logged]. repeat split.
    apply in_or_app. right. apply in_or_app. right. now left.
  - intros e.
    destruct (write_config json d base (base ++ ["opencode.json"])%list merged)
      as [[|] d']; discriminate.
Qed.

(** X14: merging a configuration without entries, bare or wrapped, only
    makes sure that the [hooks] mapping exists: an existing mapping with
    [hooks] is returned as it is, and one without gets an empty [hooks]
    mapping as its last key. *)
Theorem X14_merge_nothing (existing_config : PyDict.dict) :
  let expected :=
    if PyDict.mem (PStr "hooks") existing_config then existing_config
    else (existing_config ++ [(PStr "hooks", PDict [])])%list in
  merge_into (PDict existing_config) [] = Ok (PDict expected)
  /\ merge_into (PDict existing_config) [(PStr "hooks", PDict [])]
     = Ok (PDict expected).
Proof.
  assert (E : ensure_hooks (PDict existing_config)
              = Ok (PDict (if PyDict.mem (PStr "hooks") existing_config
                           then existing_config
                           else (existing_config
                                 ++ [(PStr "hooks", PDict [])])%list))).
  { unfold ensure_hooks, py_contains. cbn [bind].
    destruct (PyDict.mem (PStr "hooks") existing_config) eqn:M;
      [reflexivity|].
    cbn [py_setitem]. now rewrite ToolsMore.set_absent. }
  cbv zeta. unfold merge_into. rewrite E. now split.
Qed.

(** X15: an existing configuration file whose text parses to [null], a
    boolean or a number makes the call raise [TypeError], dry run or
    not: the handler around the read does not cover the merge. *)
Theorem X15_scalar_config_raises (os : os_env) (json : json_lib)
    (self self' : adapter) (d : disk) (hooks_config : PyDict.dict)
    (dry_run : bool) (install_path : option Path) (base : Path)
    (log0 : list log_record) (content : string) (parsed : pyval) :
  locate os self install_path = Ok (base, self', log0) ->
  file_at d (base ++ ["opencode.json"])%list = Contents content ->
  PyStr.strip (strip_comment_lines content) <> "" ->
  json_loads json (strip_comment_lines content) = Some parsed ->
  match parsed with
  | PNone | PBool _ | PInt _ => True
  | _ => False
  end ->
  merge_hooks_to_config os json self d hooks_config dry_run install_path
  = Raise TypeError.
Proof.
  intros Hloc Hfile Hne Hparse Hkind.
  assert (Hread : read_existing json d (base ++ ["opencode.json"])%list
                  = Ok (parsed, [])).
  { rewrite (MergeClaims.read_existing_contents _ _ _ _ Hfile).
    unfold parse_config. rewrite Hparse.
    destruct (PyStr.strip (strip_comment_lines content));
      [congruence | reflexivity]. }
  apply MergeClaims.merge_hooks_raise with base self' log0 parsed [];
    [exact Hloc | exact Hread |].
  destruct parsed; try contradiction; reflexivity.
Qed.

Lemma X15_scalar_config_raises_witness :
  merge_hooks_to_config (example_os None) null_json fresh_adapter
    (example_disk (Contents "null") Written)
    [(PStr "Stop", PList [PStr "X"])] true (Some ["/"; "tmp"])
  = Raise TypeError.
Proof.
  apply (X15_scalar_config_raises (example_os None) null_json fresh_adapter
           fresh_adapter (example_disk (Contents "null") Written)
           [(PStr "Stop", PList [PStr "X"])] true (Some ["/"; "tmp"])
           ["/"; "tmp"] [] "null" PNone eq_refl eq_refl).
  - discriminate.
  - reflexivity.
  - exact I.
Defined.

(** X16: an incoming configuration with a [hooks] key is always read as
    wrapped.  When the value under [hooks] is no mapping, the merge into
    an existing mapping raises [AttributeError]: a bare configuration
    cannot name an event [hooks]. *)
Theorem X16_wrapped_not_mapping (existing_config hooks_config : PyDict.dict)
                                (wrapped : pyval) :
  PyDict.get (PStr "hooks") hooks_config = Some wrapped ->
  match wrapped with PDict _ => False | _ => True end ->
  merge_into (PDict existing_config) hooks_config = Raise AttributeError.
Proof.
  intros G K. unfold merge_into, ensure_hooks, py_contains, hooks_to_merge.
  rewrite G. cbn [bind].
  destruct (PyDict.mem (PStr "hooks") existing_config); cbn [py_setitem bind];
    destruct wrapped; try contradiction; reflexivity.
Qed.

Lemma X16_wrapped_not_mapping_witness :
  merge_into (PDict []) [(PStr "hooks", PList [PStr "X"])]
  = Raise AttributeError.
Proof.
  apply (X16_wrapped_not_mapping [] [(PStr "hooks", PList [PStr "X"])]
           (PList [PStr "X"]) eq_refl).
  exact I.
Defined.

(** X17: merges compose by concatenation.  Merging one configuration and
    then another leaves, for every event, the list that one merge of the
    entries of the first followed by the entries of the second leaves; in
    particular, merging the same configuration twice doubles its
    entries. *)
Theorem X17_merges_compose (existing_config hooks first second : PyDict.dict)
    (entries1 entries2 : list (pyval * pyval)) :
  existing_hooks existing_config = Some hooks ->
  all_lists hooks = true ->
  hooks_to_merge first = PDict entries1 ->
  hooks_to_merge second = PDict entries2 ->
  entries_ok entries1 = true ->
  entries_ok entries2 = true ->
  exists merged merged_hooks,
    (once <- merge_into (PDict existing_config) first ;;
     merge_into once second) = Ok (PDict merged)
    /\ existing_hooks merged = Some merged_hooks
    /\ forall event,
         PyDict.get (PStr event) merged_hooks
         = merged_list hooks (entries1 ++ entries2)%list event.
Proof.
  intros Hex A H1 H2 Ok1 Ok2.
  destruct (MergeMore.merge_into_shape existing_config hooks first entries1
              Hex A H1 Ok1) as [m1 [h1 [Run1 [Hex1 [A1 G1]]]]].
  destruct (MergeMore.merge_into_shape m1 h1 second entries2
              Hex1 A1 H2 Ok2) as [m2 [h2 [Run2 [Hex2 [_ G2]]]]].
  exists m2, h2. rewrite Run1. cbn [bind]. split; [exact Run2|].
  split; [exact Hex2|].
  intro event. rewrite G2. now apply MergeMore.merged_list_app.
Qed.

Lemma X17_merges_compose_witness :
  exists merged merged_hooks,
    (once <- merge_into
               (PDict [(PStr "hooks", PDict [(PStr "Stop", PList [PStr "Y"])])])
               [(PStr "Stop", PList [PStr "X"])] ;;
     merge_into once [(PStr "hooks", PDict [(PStr "Stop", PList [PStr "X"])])])
    = Ok (PDict merged)
    /\ existing_hooks merged = Some merged_hooks
    /\ PyDict.get (PStr "Stop") merged_hooks
       = Some (PList [PStr "Y"; PStr "X"; PStr "X"]).
Proof.
  destruct (X17_merges_compose
              [(PStr "hooks", PDict [(PStr "Stop", PList [PStr "Y"])])]
              [(PStr "Stop", PList [PStr "Y"])]
              [(PStr "Stop", PList [PStr "X"])]
              [(PStr "hooks", PDict [(PStr "Stop", PList [PStr "X"])])]
              [(PStr "Stop", PList [PStr "X"])]
              [(PStr "Stop", PList [PStr "X"])]
              eq_refl eq_refl eq_refl eq_refl eq_refl eq_refl)
    as [merged [merged_hooks [Run [Hex G]]]].
  exists merged, merged_hooks. split; [exact Run|]. split; [exact Hex|].
  apply G.
Defined.

(** X18: the merge keeps the order of what exists.  The keys of the
    merged configuration are the existing keys in their order, with
    [hooks] behind them when it was missing; the events of an existing
    [hooks] mapping keep their order, and new events come behind them. *)
Theorem X18_merge_keeps_order (existing_config hooks_config : PyDict.dict)
                              (merged : pyval) :
  merge_into (PDict existing_config) hooks_config = Ok merged ->
  exists merged_config,
    merged = PDict merged_config
    /\ PyDict.keys merged_config
       = (PyDict.keys existing_config
          ++ (if PyDict.mem (PStr "hooks") existing_config then []
              else [PStr "hooks"]))%list
    /\ forall hooks,
         PyDict.get (PStr "hooks") existing_config = Some (PDict hooks) ->
         exists merged_hooks added,
           PyDict.get (PStr "hooks") merged_config = Some (PDict merged_hooks)
           /\ PyDict.keys merged_hooks = (PyDict.keys hooks ++ added)%list.
Proof.
  unfold merge_into, ensure_hooks, py_contains. cbn [bind].
  unfold PyDict.mem.
  destruct (PyDict.get (PStr "hooks") existing_config) as [h|] eqn:G.
  - cbn [bind]. rewrite app_nil_r.
    destruct (hooks_to_merge hooks_config) as [| | | | |entries];
      try discriminate.
    destruct h as [| | | | |hooks].
    6:{ intro Run.
        destruct (MergeMore.merge_events_keys entries existing_config hooks
                    merged G Run) as [cfg' [hooks' [added [-> [K [Hh Kh]]]]]].
        exists cfg'. split; [reflexivity|]. split; [exact K|].
        intros hooks0 [= <-]. now exists hooks', added. }
    all: intro Run;
      destruct (MergeMore.merge_events_keys_any entries existing_config
                  merged Run) as [cfg' [-> K]];
      exists cfg'; (split; [reflexivity|]); (split; [exact K|]);
      discriminate.
  - cbn [py_setitem bind].
    destruct (hooks_to_merge hooks_config) as [| | | | |entries];
      try discriminate.
    intro Run.
    destruct (MergeMore.merge_events_keys entries
                (PyDict.set (PStr "hooks") (PDict []) existing_config) []
                merged) as [cfg' [hooks' [added [-> [K [Hh Kh]]]]]];
      [now rewrite PyDictFacts.get_set_str | exact Run |].
    exists cfg'. split; [reflexivity|]. split.
    + rewrite K, PyDictFacts.keys_set_str. unfold PyDict.mem. now rewrite G.
    + discriminate.
Qed.

Lemma X18_merge_keeps_order_witness :
  exists merged_config,
    PDict [(PStr "theme", PStr "dark");
           (PStr "hooks",
            PDict [(PStr "Stop", PList [PStr "Z"]);
                   (PStr "PreToolUse", PList [PStr "X"])]);
           (PStr "model", PStr "m")]
    = PDict merged_config
    /\ PyDict.keys merged_config
       = [PStr "theme"; PStr "hooks"; PStr "model"].
Proof.
  destruct (X18_merge_keeps_order
              [(PStr "theme", PStr "dark");
               (PStr "hooks", PDict [(PStr "Stop", PList [])]);
               (PStr "model", PStr "m")]
              [(PStr "PreToolUse", PList [PStr "X"]);
               (PStr "Stop", PList [PStr "Z"])]
              (PDict [(PStr "theme", PStr "dark");
                      (PStr "hooks",
                       PDict [(PStr "Stop", PList [PStr "Z"]);
                              (PStr "PreToolUse", PList [PStr "X"])]);
                      (PStr "model", PStr "m")])
              eq_refl) as [merged_config [E [K _]]].
  exists merged_config. split; [exact E | exact K].
Defined.

(** ** The comment lines of the configuration file *)

Module CommentMore.
Import PyStr.

Lemma strip_comment_lines_eq content :
  strip_comment_lines content
  = join nl (filter kept_line (split_char newline content)).
Proof. reflexivity. Qed.

Lemma split_char_cons sep s : exists w ws, split_char sep s = w :: ws.
Proof.
  destruct s as [|c r]; simpl; [now eexists; eexists|].
  destruct (Ascii.eqb c sep); [now eexists; eexists|].
  destruct (split_char sep r); now eexists; eexists.
Qed.

Lemma join_cons_char sep c w ws :
  join sep (String c w :: ws) = String c (join sep (w :: ws)).
Proof. now destruct ws. Qed.

(** Splitting at the line breaks and joining again gives the text. *)
Lemma join_split s : join nl (split_char newline s) = s.
Proof.
  induction s as [|c r IH]; [reflexivity|].
  cbn [split_char]. destruct (Ascii.eqb c newline) eqn:E.
  - apply Ascii.eqb_eq in E. subst c.
    destruct (split_char_cons newline r) as [w [ws Hs]].
    rewrite Hs in *.
    change (join nl ("" :: w :: ws)) with (String newline (join nl (w :: ws))).
    now rewrite IH.
  - destruct (split_char_cons newline r) as [w [ws Hs]].
    rewrite Hs in *. rewrite join_cons_char. now rewrite IH.
Qed.

Lemma split_char_no_sep sep s :
  has_char sep s = false -> split_char sep s = [s].
Proof.
  induction s as [|c r IH]; [reflexivity|].
  cbn [has_char split_char]. intro H. apply orb_false_elim in H.
  destruct H as [E H]. rewrite E. now rewrite (IH H).
Qed.

Lemma split_char_app sep p r :
  has_char sep p = false ->
  split_char sep (p ++ String sep r) = p :: split_char sep r.
Proof.
  induction p as [|c p IH]; intro H.
  - cbn [append split_char]. now rewrite Ascii.eqb_refl.
  - cbn [has_char] in H. apply orb_false_elim in H. destruct H as [E H].
    cbn [append split_char]. rewrite E. now rewrite (IH H).
Qed.

(** No line of a split text holds a line break. *)
Lemma split_char_lines sep s :
  forallb (fun line => negb (has_char sep line)) (split_char sep s) = true.
Proof.
  induction s as [|c r IH]; [reflexivity|].
  cbn [split_char]. destruct (Ascii.eqb c sep) eqn:E; [exact IH|].
  destruct (split_char sep r) as [|w ws]; cbn [forallb has_char] in *.
  - now rewrite E.
  - rewrite E. exact IH.
Qed.

(** Joining lines and splitting again gives the lines. *)
Lemma split_join lines :
  lines <> [] ->
  forallb (fun line => negb (has_char newline line)) lines = true ->
  split_char newline (join nl lines) = lines.
Proof.
  induction lines as [|p ps IH]; [congruence|]. intros _ H.
  cbn [forallb] in H. apply andb_prop in H. destruct H as [Hp Hps].
  apply negb_true_iff in Hp.
  destruct ps as [|q qs].
  - cbn [join]. now apply split_char_no_sep.
  - change (join nl (p :: q :: qs))
      with (p ++ String newline (join nl (q :: qs))).
    rewrite (split_char_app _ _ _ Hp). f_equal.
    apply IH; [discriminate | exact Hps].
Qed.

Lemma forallb_filter {A} (f g : A -> bool) l :
  forallb f l = true -> forallb f (filter g l) = true.
Proof.
  induction l as [|x l IH]; [reflexivity|]. cbn [forallb filter].
  intro H. apply andb_prop in H. destruct H as [Hx Hl].
  destruct (g x); cbn [forallb]; [rewrite Hx|]; now apply IH.
Qed.

Lemma filter_all {A} (f : A -> bool) l :
  filter f l = l <-> forallb f l = true.
Proof.
  split.
  - intro E. rewrite <- E. clear E.
    induction l as [|x l IH]; [reflexivity|]. cbn [filter].
    destruct (f x) eqn:Fx; [|exact IH]. cbn [forallb].
    now rewrite Fx, IH.
  - induction l as [|x l IH]; [reflexivity|]. cbn [forallb filter].
    intro H. apply andb_prop in H. destruct H as [Hx Hl].
    rewrite Hx. now rewrite (IH Hl).
Qed.

Lemma filter_twice {A} (f : A -> bool) l : filter f (filter f l) = filter f l.
Proof.
  induction l as [|x l IH]; [reflexivity|]. cbn [filter].
  destruct (f x) eqn:Fx; [|exact IH]. cbn [filter]. now rewrite Fx, IH.
Qed.

(** The lines of the cleaned text are the kept lines; with no line kept
    the cleaned text is empty, which is one empty line. *)
Lemma lines_of_clean content :
  split_char newline (strip_comment_lines content)
  = match filter kept_line (split_char newline content) with
    | [] => [""]
    | lines => lines
    end.
Proof.
  rewrite strip_comment_lines_eq.
  destruct (filter kept_line (split_char newline content)) as [|p ps] eqn:F;
    [reflexivity|].
  apply split_join; [discriminate|].
  rewrite <- F. apply forallb_filter, split_char_lines.
Qed.

(** *** Whitespace *)

Lemma lstrip_empty s : lstrip s = "" <-> all_space s = true.
Proof.
  induction s as [|c r IH]; cbn [lstrip all_space]; [tauto|].
  destruct (is_space c); cbn [andb]; [exact IH|].
  split; discriminate.
Qed.

Lemma rstrip_empty s : rstrip s = "" <-> all_space s = true.
Proof.
  induction s as [|c r IH]; cbn [rstrip all_space]; [tauto|].
  destruct (rstrip r) eqn:R.
  - destruct (is_space c); cbn [andb]; [tauto|].
    split; discriminate.
  - split; [discriminate|]. intro H. apply andb_prop in H.
    destruct H as [_ H]. apply IH in H. discriminate.
Qed.

Lemma all_space_lstrip s : all_space (lstrip s) = all_space s.
Proof.
  induction s as [|c r IH]; cbn [lstrip all_space]; [reflexivity|].
  destruct (is_space c) eqn:E; cbn [andb all_space]; [exact IH|].
  now rewrite E.
Qed.

Lemma strip_empty s : strip s = "" <-> all_space s = true.
Proof. unfold strip. now rewrite rstrip_empty, all_space_lstrip. Qed.

Lemma all_space_app a b : all_space (a ++ b) = all_space a && all_space b.
Proof.
  induction a as [|c a IH]; cbn [append all_space]; [reflexivity|].
  now rewrite IH, andb_assoc.
Qed.

Lemma all_space_join lines :
  all_space (join nl lines) = forallb all_space lines.
Proof.
  induction lines as [|p ps IH]; [reflexivity|].
  destruct ps as [|q qs].
  - cbn [join forallb]. now rewrite andb_true_r.
  - change (join nl (p :: q :: qs)) with (p ++ nl ++ join nl (q :: qs)).
    rewrite !all_space_app, IH. reflexivity.
Qed.

Lemma forallb_kept_space lines :
  forallb all_space (filter kept_line lines)
  = forallb (fun line => is_comment_line line || all_space line) lines.
Proof.
  induction lines as [|p ps IH]; [reflexivity|].
  cbn [filter forallb]. unfold kept_line at 1.
  destruct (is_comment_line p); cbn [negb orb forallb]; now rewrite IH.
Qed.

(** The cleaned text is blank exactly when every line of the file is a
    comment line or blank. *)
Lemma clean_blank content :
  strip (strip_comment_lines content) = ""
  <-> forallb (fun line => is_comment_line line || all_space line)
        (split_char newline content) = true.
Proof.
  rewrite strip_empty, strip_comment_lines_eq, all_space_join.
  now rewrite forallb_kept_space.
Qed.

End CommentMore.

(** X19: the comment filter of the read works on whole lines.  The lines
    of the cleaned text are the lines of the file that do not start with
    [//] after stripping, in order (one empty line when nothing is kept);
    the filter changes nothing exactly when the file has no such line,
    and filtering twice is filtering once. *)
Theorem X19_comment_lines (content : string) :
  let lines := PyStr.split_char newline content in
  PyStr.split_char newline (strip_comment_lines content)
  = match filter kept_line lines with
    | [] => [""]
    | kept_lines => kept_lines
    end
  /\ (strip_comment_lines content = content
      <-> forallb kept_line lines = true)
  /\ strip_comment_lines (strip_comment_lines content)
     = strip_comment_lines content.
Proof.
  cbv zeta. split; [apply CommentMore.lines_of_clean|]. split.
  - rewrite <- CommentMore.filter_all. split.
    + intro E.
      pose proof (CommentMore.lines_of_clean content) as L.
      rewrite E in L.
      destruct (filter kept_line (PyStr.split_char newline content)) eqn:F.
      * exfalso.
        assert (C : content = "")
          by (rewrite <- E, CommentMore.strip_comment_lines_eq, F;
              reflexivity).
        rewrite C in F. discriminate.
      * now rewrite L.
    + intro F. rewrite CommentMore.strip_comment_lines_eq, F.
      apply CommentMore.join_split.
  - rewrite (CommentMore.strip_comment_lines_eq
               (strip_comment_lines content)).
    rewrite CommentMore.lines_of_clean.
    destruct (filter kept_line (PyStr.split_char newline content)) eqn:F.
    + rewrite CommentMore.strip_comment_lines_eq, F. reflexivity.
    + rewrite <- F, CommentMore.filter_twice.
      now rewrite CommentMore.strip_comment_lines_eq.
Qed.

(** X20: whether the parser is asked depends on the lines only.  A file
    whose every line is a comment line or blank is read as the empty
    configuration, without a warning and whatever the parser would say;
    any other file is handed to the parser without its comment lines, and
    a parse failure gives the empty configuration and the warning. *)
Theorem X20_read_of_comments (json : json_lib) (d : disk)
    (config_path : Path) (content : string) :
  file_at d config_path = Contents content ->
  read_existing json d config_path
  = Ok (if forallb (fun line => is_comment_line line || all_space line)
              (PyStr.split_char newline content)
        then (PDict [], [])
        else match json_loads json (strip_comment_lines content) with
             | Some parsed => (parsed, [])
             | None => (PDict [], [read_warning])
             end).
Proof.
  intro Hfile. rewrite (MergeClaims.read_existing_contents _ _ _ _ Hfile).
  f_equal. unfold parse_config.
  pose proof (CommentMore.clean_blank content) as B.
  destruct (forallb (fun line => is_comment_line line || all_space line)
              (PyStr.split_char newline content)).
  - now rewrite (proj2 B eq_refl).
  - destruct (PyStr.strip (strip_comment_lines content)); [|reflexivity].
    pose proof (proj1 B eq_refl). discriminate.
Qed.

Lemma X20_read_of_comments_witness :
  read_existing null_json
    (example_disk (Contents "// settings
  // none yet
") Written)
    ["/"; "tmp"; "opencode.json"]
  = Ok (PDict [], []).
Proof.
  exact (X20_read_of_comments null_json
           (example_disk (Contents "// settings
  // none yet
") Written)
           ["/"; "tmp"; "opencode.json"] _ eq_refl).
Defined.

(** ** Metadata that does not survive its rewrite *)

Module HeaderMore.
Import PyDict PyDictFacts.

Lemma Ok_inj {A} (a b : A) : Ok a = Ok b -> a = b.
Proof. now intros [= ->]. Qed.

Lemma key_eqb_not_str k f :
  negb (key_eqb k (PStr f)) = negb (removed_key [f] k).
Proof.
  destruct k; try reflexivity.
  cbn [removed_key existsb]. rewrite orb_false_r. reflexivity.
Qed.

Lemma removed_key_cons f fields k :
  removed_key (f :: fields) k = key_eqb k (PStr f) || removed_key fields k.
Proof. destruct k; reflexivity. Qed.

Lemma keys_remove f d :
  keys (remove (PStr f) d)
  = filter (fun k => negb (key_eqb k (PStr f))) (keys d).
Proof.
  unfold keys. induction d as [|[k v] r IH]; [reflexivity|].
  cbn [remove map fst filter].
  destruct (key_eqb k (PStr f)); cbn [negb]; [exact IH|].
  cbn [map fst]. now rewrite IH.
Qed.

Lemma filter_filter {A} (f g : A -> bool) l :
  filter g (filter f l) = filter (fun x => f x && g x) l.
Proof.
  induction l as [|x l IH]; [reflexivity|]. cbn [filter].
  destruct (f x); cbn [andb filter]; [|exact IH].
  destruct (g x); now rewrite IH.
Qed.

Lemma keys_drop_fields fields : forall d,
  keys (drop_fields fields d)
  = filter (fun k => negb (removed_key fields k)) (keys d).
Proof.
  unfold drop_fields.
  induction fields as [|f r IH]; intro d; cbn [fold_left].
  - induction (keys d) as [|k l IHl]; [reflexivity|].
    cbn [filter]. destruct k; cbn [removed_key existsb negb];
      now rewrite <- IHl.
  - rewrite IH, keys_remove, filter_filter.
    apply filter_ext. intro k. rewrite removed_key_cons.
    now rewrite negb_orb.
Qed.

Lemma filter_none {A} (f : A -> bool) l :
  filter (fun x => negb (f x)) l = [] <-> forallb f l = true.
Proof.
  induction l as [|x l IH]; [now split|]. cbn [filter forallb].
  destruct (f x); cbn [negb andb]; [exact IH|].
  split; discriminate.
Qed.

Lemma keys_nil (d : dict) : keys d = [] <-> d = [].
Proof. destruct d; split; try reflexivity; discriminate. Qed.

(** The pops leave nothing exactly when every key is a popped one. *)
Lemma drop_fields_nil fields d :
  drop_fields fields d = []
  <-> forallb (removed_key fields) (keys d) = true.
Proof. now rewrite <- keys_nil, keys_drop_fields, filter_none. Qed.

Lemma get_removed fields d k :
  forallb (removed_key fields) (keys d) = true ->
  existsb (String.eqb k) fields = false ->
  get (PStr k) d = None.
Proof.
  intros H N. induction d as [|[k' v] r IH]; [reflexivity|].
  cbn [keys map fst forallb] in H. apply andb_prop in H.
  destruct H as [Hk Hr]. cbn [get].
  destruct (key_eqb k' (PStr k)) eqn:E; [|now apply IH].
  apply key_eqb_str in E. subst k'. cbn [removed_key] in Hk. congruence.
Qed.

Lemma transform_frontmatter_plain fm :
  get (PStr "model") fm = None -> get (PStr "tools") fm = None ->
  _transform_frontmatter fm = Ok fm.
Proof.
  intros M T. unfold _transform_frontmatter. rewrite M. cbn [bind].
  now rewrite T.
Qed.

Lemma forallb_weaken {A} (f g : A -> bool) l :
  (forall x, f x = true -> g x = true) ->
  forallb f l = true -> forallb g l = true.
Proof.
  intro W. induction l as [|x l IH]; [reflexivity|]. cbn [forallb].
  intro H. apply andb_prop in H. destruct H as [Hx Hl].
  now rewrite (W _ Hx), IH.
Qed.

(** [_transform_command_frontmatter] leaves nothing exactly for the
    metadata of popped fields only. *)
Lemma command_nothing fm :
  _transform_command_frontmatter fm = Ok []
  <-> command_leaves_nothing fm = true.
Proof.
  unfold command_leaves_nothing. rewrite RewriteMore.command_unfold. split.
  - destruct (_transform_frontmatter fm) as [r|e] eqn:Run; cbn [bind];
      [|discriminate].
    intro E. apply Ok_inj, drop_fields_nil in E.
    destruct (FrontmatterMore.transform_frontmatter_shape _ _ Run) as [K _].
    rewrite <- K.
    pose proof (get_removed _ _ "argument-hint" E eq_refl) as H.
    rewrite RewriteMore.get_hint_step in H.
    destruct (get (PStr "argument-hint") r) eqn:Gh; [discriminate|].
    destruct (get (PStr "args") r) eqn:Ga; [discriminate|].
    destruct (get (PStr "arguments") r) eqn:Gb; [discriminate|].
    rewrite RewriteMore.hint_step_fixed in E by (right; now split).
    exact E.
  - intro H.
    rewrite transform_frontmatter_plain
      by (now apply get_removed with command_drop_list).
    cbn [bind]. f_equal.
    rewrite RewriteMore.hint_step_fixed
      by (right; split; now apply get_removed with command_drop_list).
    now apply drop_fields_nil.
Qed.

Lemma convert_type_plain d :
  get (PStr "mode") (convert_type d) = None ->
  convert_type d = remove (PStr "type") d.
Proof.
  rewrite AgentFacts.get_mode_convert. unfold convert_type, mem.
  destruct (get (PStr "mode") d) eqn:Gm; [discriminate|].
  destruct (get (PStr "type") d) as [t|] eqn:Gt.
  - destruct (str_eq_val "subagent" t); [discriminate|].
    destruct (str_eq_val "primary" t); [discriminate|]. reflexivity.
  - intros _. symmetry. now apply FrontmatterMore.remove_absent.
Qed.

(** [_transform_agent_frontmatter] leaves nothing exactly for the
    metadata of popped fields only whose [type] gives no [mode]. *)
Lemma agent_nothing fm :
  _transform_agent_frontmatter fm = Ok []
  <-> agent_leaves_nothing fm = true.
Proof.
  unfold agent_leaves_nothing, _transform_agent_frontmatter. split.
  - destruct (_transform_frontmatter fm) as [r|e] eqn:Run; cbn [bind];
      [|discriminate].
    intro E. apply Ok_inj in E.
    destruct (FrontmatterMore.transform_frontmatter_shape _ _ Run) as [K _].
    pose proof (FrontmatterFacts.transform_frontmatter_cases fm) as C.
    rewrite Run in C. destruct C as [O _].
    rewrite <- K, <- (O "type") by discriminate.
    pose proof E as E'. apply drop_fields_nil in E'.
    pose proof (get_removed _ _ "mode" E' eq_refl) as M.
    rewrite (convert_type_plain _ M) in E.
    change (drop_fields ("type" :: agent_drop_list) r = []) in E.
    apply drop_fields_nil in E. rewrite E. cbn [andb].
    rewrite AgentFacts.get_mode_convert in M.
    destruct (get (PStr "mode") r); [discriminate|].
    destruct (get (PStr "type") r) as [t|]; [|reflexivity].
    destruct (str_eq_val "subagent" t); [discriminate|].
    now destruct (str_eq_val "primary" t).
  - intro H. apply andb_prop in H. destruct H as [Hk Ht].
    rewrite transform_frontmatter_plain
      by (now apply get_removed with ("type" :: agent_drop_list)).
    cbn [bind]. f_equal.
    assert (M : get (PStr "mode") (convert_type fm) = None).
    { rewrite AgentFacts.get_mode_convert.
      rewrite (get_removed _ _ "mode" Hk eq_refl).
      destruct (get (PStr "type") fm) as [t|]; [|reflexivity].
      apply andb_prop in Ht. destruct Ht as [A B].
      apply negb_true_iff in A, B. now rewrite A, B. }
    rewrite (convert_type_plain _ M).
    change (drop_fields ("type" :: agent_drop_list) fm = []).
    now apply drop_fields_nil.
Qed.

Lemma truthy_keys (a b : dict) : keys a = keys b -> truthy a = truthy b.
Proof. destruct a, b; try reflexivity; discriminate. Qed.

End HeaderMore.

(** X21: which metadata a rewrite removes entirely.  [_transform_frontmatter]
    returns the empty mapping for the empty mapping only.  The command
    rewrite returns it exactly when every field is one of [name],
    [version], [type] and [tags]; the agent rewrite exactly when every
    field is one of [type], [version], [last_updated], [changelog] and
    [output_schema] and the [type] is neither [subagent] nor [primary]. *)
Theorem X21_rewrite_leaves_nothing (frontmatter : PyDict.dict) :
  (_transform_frontmatter frontmatter = Ok [] <-> frontmatter = [])
  /\ (_transform_command_frontmatter frontmatter = Ok []
      <-> forallb (removed_key ["name"; "version"; "type"; "tags"])
                  (PyDict.keys frontmatter) = true)
  /\ (_transform_agent_frontmatter frontmatter = Ok []
      <-> forallb (removed_key ["type"; "version"; "last_updated";
                                "changelog"; "output_schema"])
                  (PyDict.keys frontmatter)
          && match PyDict.get (PStr "type") frontmatter with
             | Some agent_type =>
                 negb (str_eq_val "subagent" agent_type)
                 && negb (str_eq_val "primary" agent_type)
             | None => true
             end = true).
Proof.
  split; [|split; [exact (HeaderMore.command_nothing frontmatter)
                  | exact (HeaderMore.agent_nothing frontmatter)]].
  split.
  - intro Run.
    destruct (FrontmatterMore.transform_frontmatter_shape _ _ Run) as [K _].
    apply HeaderMore.keys_nil. now rewrite <- K.
  - now intros ->.
Qed.

(** X22: the header of a transformed document.  For a document with
    metadata, [transform_skill] always writes a header, the rewritten
    metadata rendered, a line break and the rewritten body; when the
    [model] cannot be hashed, all three transformations raise.
    [transform_command] and [transform_agent] write no header at all, only
    the rewritten body, when the rewrite leaves no field. *)
Theorem X22_document_header {codec : FrontmatterCodec}
    (content body : string) (frontmatter : PyDict.dict) :
  extract_frontmatter content = (frontmatter, body) ->
  frontmatter <> [] ->
  let plain := _normalize_tool_references body in
  match _transform_frontmatter frontmatter with
  | Ok rewritten =>
      transform_skill content
      = Ok (create_frontmatter rewritten ++ nl ++ plain)
  | Raise e =>
      transform_skill content = Raise e
      /\ transform_agent content = Raise e
      /\ transform_command content = Raise e
  end
  /\ (command_leaves_nothing frontmatter = true ->
      transform_command content = Ok plain)
  /\ (agent_leaves_nothing frontmatter = true ->
      transform_agent content = Ok plain).
Proof.
  intros Hex Hne plain.
  assert (T : truthy frontmatter = true)
    by (destruct frontmatter; [congruence | reflexivity]).
  unfold transform_skill, transform_agent, transform_command, transform_with.
  rewrite Hex, T. split; [|split].
  - destruct (_transform_frontmatter frontmatter) as [r|e] eqn:Run.
    + cbn [bind].
      destruct (FrontmatterMore.transform_frontmatter_shape _ _ Run)
        as [K _].
      now rewrite (HeaderMore.truthy_keys _ _ K), T.
    + unfold _transform_agent_frontmatter.
      rewrite RewriteMore.command_unfold, Run. now repeat split.
  - intro H. apply HeaderMore.command_nothing in H. now rewrite H.
  - intro H. apply HeaderMore.agent_nothing in H. now rewrite H.
Qed.

Lemma X22_document_header_witness :
  transform_command (H := lines_codec)
    "---
name: review
version: 1.0.0
---
Use the Bash tool."
  = Ok "Use the bash tool.".
Proof.
  destruct (X22_document_header (codec := lines_codec)
              "---
name: review
version: 1.0.0
---
Use the Bash tool."
              "Use the Bash tool."
              [(PStr "name", PStr "review"); (PStr "version", PStr "1.0.0")]
              eq_refl) as [_ [Hcommand _]]; [discriminate|].
  exact (Hcommand eq_refl).
Defined.

(** ** What the body rewrite never touches *)

Module BodyMore.
Import PyStr ToolRef.

Lemma is_word_lower_char c : is_word (lower_char c) = is_word c.
Proof.
  destruct c as [[] [] [] [] [] [] [] []]; vm_compute; reflexivity.
Qed.

Lemma nonword_part_app a b :
  nonword_part (a ++ b) = nonword_part a ++ nonword_part b.
Proof.
  induction a as [|c a IH]; [reflexivity|]. cbn [append nonword_part].
  destruct (is_word c); [exact IH|]. cbn [append]. now rewrite IH.
Qed.

Lemma nonword_part_word a : all_word a = true -> nonword_part a = "".
Proof.
  induction a as [|c a IH]; [reflexivity|]. cbn [all_word nonword_part].
  intro H. apply andb_prop in H. destruct H as [Hc Ha].
  rewrite Hc. now apply IH.
Qed.

Lemma substring_zero s : substring 0 0 s = "".
Proof. now destruct s. Qed.

(** What a name of word characters matches, in any letter case, is made
    of word characters. *)
Lemma matched_is_word name : forall s,
  all_word name = true -> startswith_ci name s = true ->
  all_word (substring 0 (String.length name) s) = true.
Proof.
  induction name as [|a name IH]; intros s W M.
  - now rewrite substring_zero.
  - destruct s as [|c r]; [discriminate|].
    cbn [all_word] in W. apply andb_prop in W. destruct W as [Wa W].
    cbn [startswith_ci] in M. apply andb_prop in M. destruct M as [E M].
    apply Ascii.eqb_eq in E.
    cbn [String.length substring all_word].
    rewrite (IH r W M), andb_true_r.
    now rewrite <- is_word_lower_char, <- E, is_word_lower_char.
Qed.

Section Scan.
Variables (a : ascii) (name' repl : string).
Let name := String a name'.
Hypothesis name_word : all_word name = true.
Hypothesis repl_word : all_word repl = true.

Lemma scan_keeps_nonword s : forall prev_word skip,
  all_word (substring 0 skip s) = true ->
  nonword_part (sub_scan name repl prev_word skip s) = nonword_part s.
Proof.
  induction s as [|c r IH]; intros prev_word skip H; [reflexivity|].
  cbn [sub_scan]. destruct skip as [|k].
  - destruct (matches_at name prev_word (String c r)) eqn:M.
    + unfold matches_at in M.
      apply andb_prop in M. destruct M as [M _].
      apply andb_prop in M. destruct M as [M _].
      apply andb_prop in M. destruct M as [_ M].
      pose proof (matched_is_word name _ name_word M) as W.
      subst name. cbn [String.length substring all_word] in W.
      apply andb_prop in W. destruct W as [Wc Wr].
      rewrite nonword_part_app, (nonword_part_word _ repl_word).
      cbn [append nonword_part]. rewrite Wc.
      apply IH. cbn [String.length Nat.sub]. now rewrite Nat.sub_0_r.
    + cbn [nonword_part].
      rewrite (IH (is_word c) 0) by now rewrite substring_zero.
      reflexivity.
  - cbn [substring all_word] in H. apply andb_prop in H.
    destruct H as [Hc Hr]. cbn [nonword_part]. rewrite Hc. now apply IH.
Qed.

Lemma sub_keeps_nonword text :
  nonword_part (sub name repl text) = nonword_part text.
Proof. apply scan_keeps_nonword. now rewrite substring_zero. Qed.

End Scan.

Lemma table_words :
  forallb (fun entry =>
             match fst entry with
             | EmptyString => false
             | String _ _ => all_word (fst entry) && all_word (snd entry)
             end) _OPENCODE_TOOL_NAME_MAP = true.
Proof. vm_compute. reflexivity. Qed.

Lemma fold_keeps_nonword table : forall text,
  forallb (fun entry =>
             match fst entry with
             | EmptyString => false
             | String _ _ => all_word (fst entry) && all_word (snd entry)
             end) table = true ->
  nonword_part
    (fold_left (fun result entry => sub (fst entry) (snd entry) result)
               table text)
  = nonword_part text.
Proof.
  induction table as [|[name repl] table IH]; intros text H; [reflexivity|].
  cbn [forallb fst snd] in H. apply andb_prop in H. destruct H as [He Ht].
  cbn [fold_left fst snd]. rewrite (IH _ Ht).
  destruct name as [|a name']; [discriminate|].
  apply andb_prop in He. destruct He as [Wn Wr].
  now apply sub_keeps_nonword.
Qed.

End BodyMore.

(** X23: the body rewrite changes word characters only.  Every character
    of the body that is no letter, digit or underscore (whitespace, line
    breaks, punctuation) is in the result, in the same order, and the
    result has no other such character. *)
Theorem X23_body_keeps_nonword (text : string) :
  nonword_part (_normalize_tool_references text) = nonword_part text.
Proof.
  unfold _normalize_tool_references.
  apply BodyMore.fold_keeps_nonword, BodyMore.table_words.
Qed.

(** ** Values of the wrong kind in the merge *)

Module MergeKinds.
Import PyDict PyDictFacts.

(** The merge after [hooks] is known to be there. *)
Lemma merge_into_first cfg hooks_config entry rest :
  mem (PStr "hooks") cfg = true ->
  hooks_to_merge hooks_config = PDict (entry :: rest) ->
  merge_into (PDict cfg) hooks_config
  = (next <- merge_event (PDict cfg) entry ;; merge_events next rest).
Proof.
  intros M H. unfold merge_into, ensure_hooks, py_contains. cbn [bind].
  rewrite M, H. cbn [bind]. apply MergeFacts.merge_events_cons.
Qed.

Lemma merge_into_first_new cfg hooks_config entry rest :
  mem (PStr "hooks") cfg = false ->
  hooks_to_merge hooks_config = PDict (entry :: rest) ->
  merge_into (PDict cfg) hooks_config
  = (next <- merge_event (PDict (set (PStr "hooks") (PDict []) cfg)) entry ;;
     merge_events next rest).
Proof.
  intros M H. unfold merge_into, ensure_hooks, py_contains. cbn [bind].
  rewrite M, H. cbn [py_setitem bind]. apply MergeFacts.merge_events_cons.
Qed.

(** One turn of the loop, by the kinds of the values it meets. *)
Lemma merge_event_kinds cfg hooks event event_hooks :
  get (PStr "hooks") cfg = Some (PDict hooks) ->
  merge_event (PDict cfg) (PStr event, event_hooks)
  = match get (PStr event) hooks with
    | Some (PList current) =>
        added <- py_iter event_hooks ;;
        Ok (PDict (set (PStr "hooks")
                       (PDict (set (PStr event) (PList (current ++ added)%list)
                                   hooks)) cfg))
    | Some _ => Raise AttributeError
    | None =>
        added <- py_iter event_hooks ;;
        Ok (PDict (set (PStr "hooks")
                       (PDict (set (PStr event) (PList added)
                                   (set (PStr event) (PList []) hooks))) cfg))
    end.
Proof.
  intro G. unfold merge_event, py_getitem. rewrite G. cbn [bind].
  unfold mem. destruct (get (PStr event) hooks) as [v|] eqn:E.
  - rewrite E. destruct v; reflexivity.
  - rewrite get_set_str, String.eqb_refl. reflexivity.
Qed.

End MergeKinds.

(** X24: values of the wrong kind make the merge raise at the first
    event.  An existing [hooks] value that is no mapping raises
    [TypeError]; an existing value of the event that is no list raises
    [AttributeError]; an incoming value of the event that is [None], a
    boolean or a number raises [TypeError]. *)
Theorem X24_merge_wrong_kinds (existing_config hooks_config : PyDict.dict)
    (event : string) (event_hooks : pyval) (rest : list (pyval * pyval)) :
  hooks_to_merge hooks_config = PDict ((PStr event, event_hooks) :: rest) ->
  match existing_hooks existing_config with
  | None =>
      merge_into (PDict existing_config) hooks_config = Raise TypeError
  | Some hooks =>
      match PyDict.get (PStr event) hooks with
      | Some (PList _) | None =>
          match event_hooks with
          | PNone | PBool _ | PInt _ =>
              merge_into (PDict existing_config) hooks_config
              = Raise TypeError
          | _ => True
          end
      | Some _ =>
          merge_into (PDict existing_config) hooks_config
          = Raise AttributeError
      end
  end.
Proof.
  intro H. unfold existing_hooks.
  destruct (PyDict.get (PStr "hooks") existing_config) as [h|] eqn:G.
  - assert (M : PyDict.mem (PStr "hooks") existing_config = true)
      by (unfold PyDict.mem; now rewrite G).
    rewrite (MergeKinds.merge_into_first _ _ _ _ M H).
    destruct h as [| | | | |hooks];
      try (unfold merge_event, py_getitem; rewrite G; reflexivity).
    rewrite (MergeKinds.merge_event_kinds _ _ _ _ G).
    destruct (PyDict.get (PStr event) hooks) as [[]|];
      try reflexivity; destruct event_hooks; try exact I; reflexivity.
  - assert (M : PyDict.mem (PStr "hooks") existing_config = false)
      by (unfold PyDict.mem; now rewrite G).
    rewrite (MergeKinds.merge_into_first_new _ _ _ _ M H).
    rewrite (MergeKinds.merge_event_kinds _ [])
      by (now rewrite PyDictFacts.get_set_str).
    cbn [PyDict.get]. destruct event_hooks; try exact I; reflexivity.
Qed.

Lemma X24_merge_wrong_kinds_witness :
  merge_into (PDict [(PStr "hooks", PDict [(PStr "Stop", PStr "x")])])
             [(PStr "Stop", PList [PStr "y"])]
  = Raise AttributeError.
Proof.
  exact (X24_merge_wrong_kinds
           [(PStr "hooks", PDict [(PStr "Stop", PStr "x")])]
           [(PStr "Stop", PList [PStr "y"])]
           "Stop" (PList [PStr "y"]) [] eq_refl).
Defined.

(** X25: [extend] takes what it is given apart.  An incoming value of an
    event that is a string is appended character by character, and one
    that is a mapping is appended as its keys, behind the entries the
    event has. *)
Theorem X25_merge_iterates (existing_config hooks : PyDict.dict)
    (event : string) (event_hooks : pyval) (current added : list pyval) :
  PyDict.get (PStr "hooks") existing_config = Some (PDict hooks) ->
  PyDict.get (PStr event) hooks = Some (PList current) ->
  event <> "hooks" ->
  added = match event_hooks with
          | PStr s => map (fun c => PStr (String c EmptyString))
                          (list_ascii_of_string s)
          | PDict d => PyDict.keys d
          | PList items => items
          | _ => []
          end ->
  match event_hooks with PNone | PBool _ | PInt _ => False | _ => True end ->
  exists merged merged_hooks,
    merge_into (PDict existing_config) [(PStr event, event_hooks)]
    = Ok (PDict merged)
    /\ PyDict.get (PStr "hooks") merged = Some (PDict merged_hooks)
    /\ PyDict.get (PStr event) merged_hooks
       = Some (PList (current ++ added)%list).
Proof.
  intros G E Hne -> K.
  assert (M : PyDict.mem (PStr "hooks") existing_config = true)
    by (unfold PyDict.mem; now rewrite G).
  assert (H : hooks_to_merge [(PStr event, event_hooks)]
              = PDict [(PStr event, event_hooks)]).
  { unfold hooks_to_merge. cbn [PyDict.get].
    rewrite PyDictFacts.key_eqb_str_str.
    now rewrite (proj2 (String.eqb_neq event "hooks") Hne). }
  rewrite (MergeKinds.merge_into_first _ _ _ _ M H).
  rewrite (MergeKinds.merge_event_kinds _ _ _ _ G), E.
  destruct event_hooks; try contradiction; cbn [py_iter bind];
    eexists; eexists;
    (split; [reflexivity|]);
    rewrite PyDictFacts.get_set_str, String.eqb_refl;
    (split; [reflexivity|]);
    now rewrite PyDictFacts.get_set_str, String.eqb_refl.
Qed.

Lemma X25_merge_iterates_witness :
  exists merged merged_hooks,
    merge_into (PDict [(PStr "hooks", PDict [(PStr "Stop", PList [PStr "x"])])])
               [(PStr "Stop", PStr "ab")]
    = Ok (PDict merged)
    /\ PyDict.get (PStr "hooks") merged = Some (PDict merged_hooks)
    /\ PyDict.get (PStr "Stop") merged_hooks
       = Some (PList [PStr "x"; PStr "a"; PStr "b"]).
Proof.
  apply (X25_merge_iterates
           [(PStr "hooks", PDict [(PStr "Stop", PList [PStr "x"])])]
           [(PStr "Stop", PList [PStr "x"])]
           "Stop" (PStr "ab") [PStr "x"] [PStr "a"; PStr "b"]
           eq_refl eq_refl).
  - discriminate.
  - reflexivity.
  - exact I.
Defined.

(** ** What a merge leaves behind *)

Module StateMore.

Lemma get_install_path_config os self p self' log :
  get_install_path os self = Ok (p, self', log) ->
  config self' = config self.
Proof.
  unfold get_install_path.
  destruct (_install_path self) as [q|] eqn:M.
  - now intros [= <- <- <-].
  - destruct (configured_path self) as [text|e]; [|discriminate].
    cbn [bind].
    destruct (expanduser os text) as [env_path|e]; [|discriminate].
    cbn [bind].
    destruct (checked_override os env_path) as [[chosen log']|e];
      [|discriminate].
    cbn [bind]. intros [= <- <- <-]. reflexivity.
Qed.

(** The directories after the write: those that were there, and the
    directory of the file with its ancestors. *)
Lemma write_config_dirs json d base_path config_path merged q :
  (dir_at d q = true ->
   dir_at (snd (write_config json d base_path config_path merged)) q = true)
  /\ (dir_at (snd (write_config json d base_path config_path merged)) q = true ->
      dir_at d q = true \/ is_ancestor_or_self q base_path = true).
Proof.
  unfold write_config.
  destruct (write_fate_at d config_path);
    destruct (json_dumps json merged);
    cbn [snd dir_at write_text mkdir_parents]; split;
    try (intros ->; reflexivity);
    intro H; apply orb_prop in H; destruct H as [H|H]; auto;
    apply andb_prop in H; now right.
Qed.

End StateMore.

(** X26: what a call that returns leaves behind.  With an install path
    given, the adapter is as before: neither the environment nor the memo
    is consulted.  Without one, the adapter has memoized the directory the
    call worked in, and [get_install_path] answers it from then on, in
    every environment.  On the disk, no file other than the
    [opencode.json] of that directory has changed, and what writing a
    path meets is as before; the directories that were there are there,
    and a new one is that directory or one of its ancestors. *)
Theorem X26_merge_leaves_behind (os : os_env) (json : json_lib)
    (self : adapter) (d : disk) (hooks_config : PyDict.dict)
    (dry_run : bool) (install_path : option Path) (outcome : merge_outcome) :
  merge_hooks_to_config os json self d hooks_config dry_run install_path
  = Ok outcome ->
  exists base,
    match install_path with
    | Some given => base = given /\ adapter_after outcome = self
    | None =>
        config (adapter_after outcome) = config self
        /\ forall os',
             get_install_path os' (adapter_after outcome)
             = Ok (base, adapter_after outcome, [])
    end
    /\ (forall q,
          path_eqb (base ++ ["opencode.json"])%list q = false ->
          file_at (disk_after outcome) q = file_at d q)
    /\ (forall q, write_fate_at (disk_after outcome) q = write_fate_at d q)
    /\ (forall q, dir_at d q = true -> dir_at (disk_after outcome) q = true)
    /\ (forall q, dir_at (disk_after outcome) q = true ->
                  dir_at d q = true \/ is_ancestor_or_self q base = true).
Proof.
  intro Run.
  destruct (MergeClaims.merge_hooks_returns _ _ _ _ _ _ _ _ Run)
    as [base [self' [log0 [existing [log1 [merged
          [Hloc [_ [_ [Ha [_ [Hd _]]]]]]]]]]]].
  exists base. split; [|split; [|split; [|split]]].
  - destruct install_path as [given|]; cbn [locate] in Hloc.
    + injection Hloc as <- <- _. now split.
    + rewrite Ha. split.
      * now apply StateMore.get_install_path_config with os base log0.
      * intro os'. unfold get_install_path.
        now rewrite (PathMore.get_install_path_memo _ _ _ _ _ Hloc).
  - intros q Hq. rewrite Hd. destruct dry_run; [reflexivity|].
    now apply MergeClaims.write_config_elsewhere.
  - intro q. rewrite Hd. destruct dry_run; [reflexivity|].
    apply MergeClaims.write_config_fate.
  - intros q Hq. rewrite Hd. destruct dry_run; [exact Hq|].
    now apply StateMore.write_config_dirs.
  - intros q Hq. rewrite Hd in Hq. destruct dry_run; [now left|].
    now apply StateMore.write_config_dirs in Hq.
Qed.

Lemma X26_merge_leaves_behind_witness :
  exists base,
    forall os',
      get_install_path os'
        {| config := [];
           _install_path :=
             Some ["/"; "home"; "user"; ".config"; "opencode"] |}
      = Ok (base,
            {| config := [];
               _install_path :=
                 Some ["/"; "home"; "user"; ".config"; "opencode"] |},
            []).
Proof.
  destruct (X26_merge_leaves_behind (example_os None) example_json
              fresh_adapter (example_disk Missing Written) [] true None
              {| returned := true;
                 adapter_after :=
                   {| config := [];
                      _install_path :=
                        Some ["/"; "home"; "user"; ".config"; "opencode"] |};
                 disk_after := example_disk Missing Written;
                 logged := [dry_run_info] |}
              eq_refl) as [base [[_ Hmemo] _]].
  exists base. exact Hmemo.
Defined.
